(** * A shallow embedding of the artist-data pipeline

    The development follows [data_collector.py] (catalog client, record
    normaliser, Spotify enrichment) and [visualizer.py] (summary statistics:
    artists per million, peak formation period).

    Conventions of the embedding.
    - A Python [str] is the list of its Unicode code points ([Py.str]).
    - A nullable cell of a data frame ([None], [NaN], [<NA>]) is [None] of an
      [option].
    - A call that may raise returns a [Py.result].
    - A [DataFrame] is the list of its rows, in row order; the index label of
      a row is a field of the row.
    - What the network, the clock and the file system answer is an
      explicit argument of the function that asks.
    - A body that decodes is taken to be a JSON object whose members have
      the types the service documents; the [expires_in] of a token answer
      is taken as any JSON value.
    - Progress messages ([update_progress]) and the pauses ([time.sleep])
      change no result and are left out, except in [fetch_artists], where the
      messages tell the branches of the loop apart. *)

From Stdlib Require Import String Ascii.
From Stdlib Require Import List ZArith NArith QArith Qabs Qround Bool Lia Lqa.
From Stdlib Require Import Permutation Sorted.
Import ListNotations.

#[local] Open Scope Z_scope.

(* ================================================================== *)
(** * Part I: the program                                              *)
(* ================================================================== *)

(** ** Python values *)

Module Py.

(** A [str]: the sequence of its code points. *)
Definition str : Type := list N.

(** An ASCII literal as a [str]. *)
Definition of_string (s : string) : str :=
  map N_of_ascii (list_ascii_of_string s).

Definition str_eqb (a b : str) : bool :=
  if list_eq_dec N.eq_dec a b then true else false.

(** The exceptions the modelled code can raise. *)
Inductive exn : Type :=
| ValueError
| TypeError
| OverflowError
| OSError
| Exception (status_code : Z).

Inductive result (A : Type) : Type :=
| Ok (a : A)
| Raise (e : exn).
Arguments Ok {A} a.
Arguments Raise {A} e.

Definition bind {A B} (m : result A) (k : A -> result B) : result B :=
  match m with
  | Ok a => k a
  | Raise e => Raise e
  end.

(** [s.isascii()]: every code point is below 128 (true of the empty
    string). *)
Definition isascii (s : str) : bool := forallb (fun c => (c <? 128)%N) s.

Definition in_runs (runs : list (N * N)) (c : N) : bool :=
  existsb (fun r => ((fst r <=? c) && (c <=? snd r))%N) runs.

(** Code points of general category Nd (Unicode 14.0.0, the table of
    CPython 3.11).  Every run starts at a digit zero and holds whole
    decades, so the value of [c] in the run starting at [lo] is
    [(c - lo) mod 10]. *)
Definition decimal_runs : list (N * N) := [
  (48, 57); (1632, 1641); (1776, 1785); (1984, 1993); (2406, 2415);
  (2534, 2543); (2662, 2671); (2790, 2799); (2918, 2927); (3046, 3055);
  (3174, 3183); (3302, 3311); (3430, 3439); (3558, 3567); (3664, 3673);
  (3792, 3801); (3872, 3881); (4160, 4169); (4240, 4249); (6112, 6121);
  (6160, 6169); (6470, 6479); (6608, 6617); (6784, 6793); (6800, 6809);
  (6992, 7001); (7088, 7097); (7232, 7241); (7248, 7257); (42528, 42537);
  (43216, 43225); (43264, 43273); (43472, 43481); (43504, 43513);
  (43600, 43609); (44016, 44025); (65296, 65305); (66720, 66729);
  (68912, 68921); (69734, 69743); (69872, 69881); (69942, 69951);
  (70096, 70105); (70384, 70393); (70736, 70745); (70864, 70873);
  (71248, 71257); (71360, 71369); (71472, 71481); (71904, 71913);
  (72016, 72025); (72784, 72793); (73040, 73049); (73120, 73129);
  (92768, 92777); (92864, 92873); (93008, 93017); (120782, 120831);
  (123200, 123209); (123632, 123641); (125264, 125273); (130032, 130041)
]%N.

(** Code points whose Numeric_Type is Digit but not Decimal: superscripts,
    subscripts, circled and parenthesised digits and the like. *)
Definition digit_only_runs : list (N * N) := [
  (178, 179); (185, 185); (4969, 4977); (6618, 6618); (8304, 8304);
  (8308, 8313); (8320, 8329); (9312, 9320); (9332, 9340); (9352, 9360);
  (9450, 9450); (9461, 9469); (9471, 9471); (10102, 10110); (10112, 10120);
  (10122, 10130); (68160, 68163); (69216, 69224); (69714, 69722);
  (127232, 127242)
]%N.

(** The decimal value of a code point, when it has one. *)
Definition decimal_value (c : N) : option Z :=
  match find (fun r => ((fst r <=? c) && (c <=? snd r))%N) decimal_runs with
  | Some (lo, _) => Some (Z.of_N ((c - lo) mod 10))
  | None => None
  end.

Definition isdecimal_char (c : N) : bool :=
  match decimal_value c with Some _ => true | None => false end.

Definition isdigit_char (c : N) : bool :=
  isdecimal_char c || in_runs digit_only_runs c.

(** [s.isdigit()]: [s] is not empty and every character is a digit
    (Numeric_Type Digit or Decimal). *)
Definition isdigit (s : str) : bool :=
  match s with
  | [] => false
  | _ => forallb isdigit_char s
  end.

Fixpoint int_digits (acc : Z) (s : str) : result Z :=
  match s with
  | [] => Ok acc
  | c :: s' =>
      match decimal_value c with
      | Some d => int_digits (10 * acc + d) s'
      | None => Raise ValueError
      end
  end.

(** [int(s)] on a string without sign, blank or underscore, which is all
    [extract_year] can pass: the characters must all be decimal digits,
    of any script; anything else is a [ValueError]. *)
Definition int (s : str) : result Z :=
  match s with
  | [] => Raise ValueError
  | _ => int_digits 0 s
  end.

(** [s[:n]] *)
Definition slice_to (n : nat) (s : str) : str := firstn n s.

(** An untyped cell, as pandas keeps it in an [object] column. *)
Inductive obj : Type :=
| PyNone
| PyInt (n : Z)
| PyStr (s : str).

(** A [float64] cell: [NaN], an infinity, or a finite value.  Finite
    values are kept exact; rounding is not modelled. *)
Inductive float : Type :=
| NaN
| Inf (negative : bool)
| Fin (q : Q).

Definition isna (x : float) : bool :=
  match x with NaN => true | _ => false end.

(** A value of a decoded JSON body, as [json.loads] hands it over.  The
    items of a list and the members of a dict are left out: no code
    modelled here looks into them. *)
Inductive json : Type :=
| JNull                                    (* [None] *)
| JBool (b : bool)
| JInt (n : Z)
| JFloat (x : float)
| JStr (s : str)
| JList
| JDict.

(** Rounding to the nearest integer, a tie going to the even one. *)
Definition round_half_even (q : Q) : Z :=
  let f := Qfloor q in
  match Qcompare (q - inject_Z f) (1 # 2) with
  | Lt => f
  | Gt => f + 1
  | Eq => if Z.even f then f else f + 1
  end.

Definition us_per_second : Z := 1000000.
Definition us_per_day : Z := 86400 * us_per_second.

(** The range of [timedelta]: at most 999999999 days either way, the days
    counted downwards (floor division) as [timedelta] normalises them. *)
Definition check_delta_day_range (us : Z) : result Z :=
  if Z.abs (us / us_per_day) >? 999999999 then Raise OverflowError
  else Ok us.

(** [timedelta(seconds=v)], in microseconds.  An integer (a [bool] is
    one) counts as it is; a float is rounded to the microsecond, ties to
    even (the product is taken exactly), [NaN] is a [ValueError] and an
    infinity an [OverflowError]; any other value is a [TypeError]. *)
Definition timedelta_seconds (v : json) : result Z :=
  match v with
  | JInt n => check_delta_day_range (n * us_per_second)
  | JBool b => Ok (if b then us_per_second else 0)
  | JFloat NaN => Raise ValueError
  | JFloat (Inf _) => Raise OverflowError
  | JFloat (Fin q) =>
      check_delta_day_range (round_half_even (q * inject_Z us_per_second))
  | JNull | JStr _ | JList | JDict => Raise TypeError
  end.

(** A [datetime] is the count of microseconds since [datetime.min], the
    first instant of the year 1; [datetime.max] is the last microsecond
    of the year 9999, 3652059 days later. *)
Definition datetime_end : Z := 3652059 * us_per_day.

(** [t + delta] on a [datetime] and a [timedelta]: a result outside the
    years 1 to 9999 is an [OverflowError]. *)
Definition datetime_add (t delta : Z) : result Z :=
  let sum := t + delta in
  if (0 <=? sum) && (sum <? datetime_end) then Ok sum
  else Raise OverflowError.

End Py.

Notation "x <- m ;; k" := (Py.bind m (fun x => k))
  (at level 61, m at next level, right associativity).

(** ** Data model *)

(** A raw catalog record after [pd.json_normalize]: the nested fields
    [area.name], [life-span.begin], [life-span.end] and [life-span.ended]
    are columns of their own, null where the record has no value.  (A key
    that no record of an answer has gives no column, and the code raises
    a [KeyError] on reading it; the embedding has the column, all null.
    Statements on whether a call returns or raises are made for answers
    that fill the four columns, [Pipeline.columns_filled].) *)
Module Raw.
Record t : Type := mk {
  id : Py.str;
  name : Py.str;
  score : Z;
  area_name : option Py.str;
  life_span_begin : option Py.str;
  life_span_end : option Py.str;
  life_span_ended : option bool
}.
End Raw.

(** A row of [countries_df]. *)
Module Country.
Record t : Type := mk {
  Country_name : Py.str;
  area : Py.obj;
  capital : Py.obj;
  population : Py.obj;
  region : Py.obj
}.
End Country.

(** The data frame of [process_artist_data] after the feature columns are
    added: the original columns and the derived ones. *)
Module Frame.
Record t : Type := mk {
  raw : Raw.t;
  Country_name : option Py.str;
  Begin_date : option Py.str;
  End_date : option Py.str;
  Ended : bool;
  Year_formed : option Z;
  Year_disbanded : option Z;
  Lifespan : option Z
}.
End Frame.

(** A row of [artist_df]: the index label (the catalog id) and the six
    selected columns. *)
Module Row.
Record t : Type := mk {
  idx : Py.str;
  name : Py.str;
  Country_name : option Py.str;
  Year_formed : option Z;
  Year_disbanded : option Z;
  Ended : bool;
  Lifespan : option Z
}.
End Row.

(** ** Sorting as pandas does it *)

(** [l.take(indexer)]: the elements of [l] at the given positions. *)
Definition take {A} (l : list A) (indexer : list nat) : list A :=
  flat_map (fun i => match nth_error l i with
                     | Some a => [a]
                     | None => []
                     end) indexer.

(** [sort_values] is called without [kind], so pandas takes its default,
    [kind='quicksort'], and hands the keys to numpy's [argsort].  numpy
    promises an indexer that is a permutation of the positions and sorts the
    keys; it promises nothing about the order of equal keys (only
    [kind='stable'] and [kind='mergesort'] do).  The embedding therefore
    takes the routine as an interface and uses nothing but that contract. *)
Class SortKind : Type := {
  argsort : forall {K : Type}, (K -> K -> bool) -> list K -> list nat;
  argsort_perm :
    forall (K : Type) (leb : K -> K -> bool) (keys : list K),
      Permutation (argsort leb keys) (seq 0 (length keys));
  argsort_sorted :
    forall (K : Type) (leb : K -> K -> bool) (keys : list K),
      (forall a b, leb a b = true \/ leb b a = true) ->
      (forall a b c, leb a b = true -> leb b c = true -> leb a c = true) ->
      StronglySorted (fun a b => leb a b = true) (take keys (argsort leb keys))
}.

Section SortValues.
Context {SK : SortKind}.
Context {A K : Type}.
Variable leb : K -> K -> bool.

(** [nargsort(keys, ascending=False)] for keys without [NaN]: the keys and
    their positions are reversed, sorted ascending, and the indexer is
    reversed again. *)
Definition nargsort_descending (keys : list K) : list nat :=
  let non_nans := rev keys in
  let non_nan_idx := rev (seq 0 (length keys)) in
  rev (take non_nan_idx (argsort leb non_nans)).

(** [df.sort_values(by=key, ascending=False)] *)
Definition sort_values_descending (key : A -> K) (df : list A) : list A :=
  take df (nargsort_descending (map key df)).
End SortValues.

(** ** HTTP *)

(** What [requests] hands back: the status, whether the body is empty
    ([response.content] is falsy), and the decoded body; [json = None] is a
    body that is not valid JSON, on which [response.json()] raises a
    [ValueError]. *)
Record Response (J : Type) : Type := mkResponse {
  status_code : Z;
  content_empty : bool;
  json : option J
}.
Arguments mkResponse {J}.
Arguments status_code {J}.
Arguments content_empty {J}.
Arguments json {J}.

(** ** [class SpotifyAPI] *)

Module SpotifyAPI.

Record t : Type := mk {
  client_id : Py.str;
  client_secret : Py.str;
  token : option Py.str;
  token_expiry : option Z       (* a [datetime], in microseconds *)
}.

Definition with_token (tok : option Py.str) (self : t) : t :=
  mk (client_id self) (client_secret self) tok (token_expiry self).

Definition with_token_expiry (expiry : option Z) (self : t) : t :=
  mk (client_id self) (client_secret self) (token self) expiry.

Definition init (client_id client_secret : Py.str) : t :=
  mk client_id client_secret None None.

(** Body of the token endpoint's answer.  [access_token] is [None] when
    the key is left out or null; [expires_in] is [None] when the key is
    left out, and any JSON value otherwise. *)
Record TokenJson : Type := mkTokenJson {
  access_token : option Py.str;
  expires_in : option Py.json   (* seconds *)
}.

(** One entry of [artists.items] in a search answer. *)
Record Artist : Type := mkArtist {
  followers_total : Z;
  external_urls_spotify : Py.str;
  popularity : Z;
  images : list Py.str          (* the [url] of each image *)
}.

(** Body of a search answer: [json.get('artists', {}).get('items', [])]. *)
Record SearchJson : Type := mkSearchJson {
  artists_items : list Artist
}.

(** What the outside answers during one call of [search_artist]: the two
    readings of [datetime.now()] (lines 23 and 42) and the two HTTP
    answers.  A value is consulted only if the call gets to ask for it. *)
Record World : Type := mkWorld {
  now_check : Z;
  token_response : Response TokenJson;
  now_fetched : Z;
  search_response : Response SearchJson
}.

(** The effects of a call, in order. *)
Inductive event : Type :=
| Now (clock : Z)                          (* [datetime.now()] *)
| TokenRequest                             (* [requests.post] to the token endpoint *)
| Search (bearer : option Py.str) (q : Py.str).  (* [requests.get] to the search endpoint *)

(** Truth value of [self.token]: [None] and the empty string are falsy. *)
Definition truthy (tok : option Py.str) : bool :=
  match tok with
  | Some (_ :: _) => true
  | _ => false
  end.

(** [json_result.get('expires_in', 3600)] *)
Definition lifetime (json_result : TokenJson) : Py.json :=
  match expires_in json_result with
  | Some v => v
  | None => Py.JInt 3600
  end.

(** The right side of line 42,
    [datetime.now() + timedelta(seconds=json_result.get('expires_in', 3600))],
    [now] being what the clock reads. *)
Definition new_expiry (now : Z) (json_result : TokenJson) : Py.result Z :=
  delta <- Py.timedelta_seconds (lifetime json_result) ;;
  Py.datetime_add now delta.

(** The part of [get_token] after the early return.  Line 41 stores the
    token before line 42 works out the expiry: when that raises, the
    object keeps the new token next to the expiry it had. *)
Definition request_token (self : t) (w : World)
  : Py.result (option Py.str) * t * list event :=
  let result := token_response w in
  if status_code result =? 200 then
    match json result with
    | None => (Py.Raise Py.ValueError, self, [TokenRequest])
    | Some json_result =>
        let self := with_token (access_token json_result) self in
        let evs := [TokenRequest; Now (now_fetched w)] in
        match new_expiry (now_fetched w) json_result with
        | Py.Raise e => (Py.Raise e, self, evs)
        | Py.Ok token_expiry =>
            let self := with_token_expiry (Some token_expiry) self in
            (Py.Ok (token self), self, evs)
        end
    end
  else (Py.Raise (Py.Exception (status_code result)), self, [TokenRequest]).

(** [get_token]: [self.token and self.token_expiry > datetime.now()];
    [and] does not evaluate its right side when the token is falsy, and a
    [None] expiry does not compare with a [datetime]. *)
Definition get_token (self : t) (w : World)
  : Py.result (option Py.str) * t * list event :=
  if truthy (token self) then
    match token_expiry self with
    | None => (Py.Raise Py.TypeError, self, [Now (now_check w)])
    | Some expiry =>
        if expiry >? now_check w
        then (Py.Ok (token self), self, [Now (now_check w)])
        else
          let '(r, self', evs) := request_token self w in
          (r, self', Now (now_check w) :: evs)
    end
  else request_token self w.

(** [search_artist]: the top match, [None] when there is none or the
    status is not 200. *)
Definition search_artist (self : t) (artist_name : Py.str) (w : World)
  : Py.result (option Artist) * t * list event :=
  let '(r, self', evs) := get_token self w in
  match r with
  | Py.Raise e => (Py.Raise e, self', evs)
  | Py.Ok token =>
      let evs' := evs ++ [Search token artist_name] in
      let result := search_response w in
      if status_code result =? 200 then
        match json result with
        | None => (Py.Raise Py.ValueError, self', evs')
        | Some json_result =>
            (Py.Ok (hd_error (artists_items json_result)), self', evs')
        end
      else (Py.Ok None, self', evs')
  end.

End SpotifyAPI.

(** A row of [artist_df] after [enrich_with_spotify] added its columns. *)
Module Enriched.
Record t : Type := mk {
  artist : Row.t;
  spotify_followers : option Z;
  spotify_url : option Py.str;
  spotify_popularity : option Z;
  spotify_image : option Py.str
}.
End Enriched.

(** ** [class ArtistDataCollector] *)

Module ArtistDataCollector.

(** Body of a catalog page: [data.get('artists', [])]. *)
Record CatalogPage : Type := mkCatalogPage {
  artists : option (list Raw.t)
}.

Definition page_artists (data : CatalogPage) : list Raw.t :=
  match artists data with
  | Some l => l
  | None => []
  end.

(** The messages [fetch_artists] passes to [update_progress]. *)
Inductive progress : Type :=
| Fetching
| Fetched (batch_count : nat) (offset : Z)
| NotValidJSON
| BadResponse (status : Z)
| TotalFetched (n : nat).

(** [range(start, stop, step)] for a positive step. *)
Definition range (start stop step : Z) : list Z :=
  map (fun k => start + Z.of_nat k * step)
      (seq 0 (Z.to_nat ((stop - start + step - 1) / step))).

(** Extract the year of a date string ([extract_year], nested in
    [process_artist_data]). *)
Definition extract_year (date_str : option Py.str) : Py.result (option Z) :=
  match date_str with
  | None => Py.Ok None                     (* [pd.isna(date_str)] *)
  | Some s =>
      let year := Py.slice_to 4 s in
      if Py.isdigit year
      then (n <- Py.int year ;; Py.Ok (Some n))
      else Py.Ok None
  end.

(** [column.apply(f)]: [f] on each cell in row order; the first exception
    ends the call. *)
Fixpoint apply {A B} (f : A -> Py.result B) (column : list A)
  : Py.result (list B) :=
  match column with
  | [] => Py.Ok []
  | x :: rest =>
      y <- f x ;;
      ys <- apply f rest ;;
      Py.Ok (y :: ys)
  end.

(** [Year_disbanded - Year_formed] on nullable integers. *)
Definition sub_Int64 (a b : option Z) : option Z :=
  match a, b with
  | Some x, Some y => Some (x - y)
  | _, _ => None
  end.

(** [column.replace({None: False, True: True})]: a missing flag becomes
    [False]. *)
Definition replace_ended (flag : option bool) : bool :=
  match flag with
  | Some b => b
  | None => false
  end.

Definition add_features (r : Raw.t) (year_formed year_disbanded : option Z)
  : Frame.t :=
  Frame.mk r (Raw.area_name r) (Raw.life_span_begin r) (Raw.life_span_end r)
           (replace_ended (Raw.life_span_ended r))
           year_formed year_disbanded
           (sub_Int64 year_disbanded year_formed).

(** [df[['name', 'Country_name', ...]]]; the index is the [id] column
    since [set_index('id')]. *)
Definition select (f : Frame.t) : Row.t :=
  Row.mk (Raw.id (Frame.raw f)) (Raw.name (Frame.raw f))
         (Frame.Country_name f) (Frame.Year_formed f)
         (Frame.Year_disbanded f) (Frame.Ended f) (Frame.Lifespan f).

(** [artist_df.loc[artist_df['Year_disbanded'].isna(), 'Ended'] = False] *)
Definition fix_ended (r : Row.t) : Row.t :=
  match Row.Year_disbanded r with
  | None => Row.mk (Row.idx r) (Row.name r) (Row.Country_name r)
                   (Row.Year_formed r) (Row.Year_disbanded r) false
                   (Row.Lifespan r)
  | Some _ => r
  end.

Definition isin (x : Py.str) (values : list Py.str) : bool :=
  existsb (Py.str_eqb x) values.

Section Collector.
Context {SK : SortKind}.

(** [str.lower], a built-in of Python: full Unicode lower-casing. *)
Variable lower : Py.str -> Py.str.

(** The table [get_country_data] builds from [CountryInfo().all()]. *)
Variable get_country_data : list Country.t.

(** [artist_df.to_csv(filename)] of step 4, on the file of this run: what
    writing the table answers, [Py.Ok tt] or the exception raised. *)
Variable to_csv : list Enriched.t -> Py.result unit.

(** [fetch_artists]; [server offset] is the answer to the page request
    at that offset. *)
Fixpoint fetch_pages (server : Z -> Response CatalogPage)
         (offsets : list Z) (fetched_artists : list Raw.t)
  : list Raw.t * list progress :=
  match offsets with
  | [] => (fetched_artists, [])
  | offset :: rest =>
      let response := server offset in
      if (status_code response =? 200) && negb (content_empty response)
      then
        match json response with
        | Some data =>
            let batch := page_artists data in
            let '(all, log) :=
              fetch_pages server rest (fetched_artists ++ batch) in
            (all, Fetched (length batch) offset :: log)
        | None =>                        (* [except ValueError] *)
            let '(all, log) := fetch_pages server rest fetched_artists in
            (all, NotValidJSON :: log)
        end
      else                               (* [break] *)
        (fetched_artists, [BadResponse (status_code response)])
  end.

Definition fetch_artists (number_of_artists : Z)
           (server : Z -> Response CatalogPage)
  : list Raw.t * list progress :=
  let '(fetched_artists, log) :=
    fetch_pages server (range 2 (number_of_artists + 2) 100) [] in
  (fetched_artists,
   Fetching :: log ++ [TotalFetched (length fetched_artists)]).

(** The country filter: [Country_name.str.lower().isin(valid_countries)];
    a null country lower-cases to null, which is in no list of
    strings. *)
Definition valid_country (valid_countries : list Py.str) (r : Row.t)
  : bool :=
  match Row.Country_name r with
  | Some c => isin (lower c) valid_countries
  | None => false
  end.

(** [process_artist_data]: [None] is the return value for an empty
    input, [Some (artist_df, countries_df)] the pair returned
    otherwise.  The four columns read at lines 140 to 143 are taken to
    be there (see [Raw]). *)
Definition process_artist_data (fetched_artists : list Raw.t)
  : Py.result (option (list Row.t * list Country.t)) :=
  let df := fetched_artists in
  if (length df =? 0)%nat then Py.Ok None
  else
    let df := sort_values_descending Z.leb Raw.score df in
    year_formed <- apply extract_year (map Raw.life_span_begin df) ;;
    year_disbanded <- apply extract_year (map Raw.life_span_end df) ;;
    let df :=
      map (fun '(r, (yf, yd)) => add_features r yf yd)
          (combine df (combine year_formed year_disbanded)) in
    let is_english f := Py.isascii (Raw.name (Frame.raw f)) in
    let df := filter is_english df in
    let artist_df := map select df in
    let countries_df := get_country_data in
    let valid_countries := map lower (map Country.Country_name countries_df) in
    let artist_df := filter (valid_country valid_countries) artist_df in
    let artist_df := map fix_ended artist_df in
    Py.Ok (Some (artist_df, countries_df)).

(** [artist_df.at[idx, column] = value]: the cell of every row carrying
    the label. *)
Definition at_set (idx : Py.str) (set : Enriched.t -> Enriched.t)
           (artist_df : list Enriched.t) : list Enriched.t :=
  map (fun r => if Py.str_eqb (Row.idx (Enriched.artist r)) idx
                then set r else r) artist_df.

Definition set_followers v (r : Enriched.t) :=
  Enriched.mk (Enriched.artist r) v (Enriched.spotify_url r)
              (Enriched.spotify_popularity r) (Enriched.spotify_image r).
Definition set_url v (r : Enriched.t) :=
  Enriched.mk (Enriched.artist r) (Enriched.spotify_followers r) v
              (Enriched.spotify_popularity r) (Enriched.spotify_image r).
Definition set_popularity v (r : Enriched.t) :=
  Enriched.mk (Enriched.artist r) (Enriched.spotify_followers r)
              (Enriched.spotify_url r) v (Enriched.spotify_image r).
Definition set_image v (r : Enriched.t) :=
  Enriched.mk (Enriched.artist r) (Enriched.spotify_followers r)
              (Enriched.spotify_url r) (Enriched.spotify_popularity r) v.

(** The four assignments made for a match. *)
Definition store_match (idx : Py.str) (result : SpotifyAPI.Artist)
           (artist_df : list Enriched.t) : list Enriched.t :=
  let artist_df :=
    at_set idx (set_followers (Some (SpotifyAPI.followers_total result)))
           artist_df in
  let artist_df :=
    at_set idx (set_url (Some (SpotifyAPI.external_urls_spotify result)))
           artist_df in
  let artist_df :=
    at_set idx (set_popularity (Some (SpotifyAPI.popularity result)))
           artist_df in
  match SpotifyAPI.images result with
  | url :: _ => at_set idx (set_image (Some url)) artist_df
  | [] => artist_df
  end.

(** The loop of [enrich_with_spotify] over [iterrows()]; [world k] is
    what the outside answers during the [k]-th lookup. *)
Fixpoint enrich_rows (world : nat -> SpotifyAPI.World) (k : nat)
         (rows : list Row.t) (spotify : SpotifyAPI.t)
         (artist_df : list Enriched.t)
  : Py.result (list Enriched.t) * SpotifyAPI.t * list SpotifyAPI.event :=
  match rows with
  | [] => (Py.Ok artist_df, spotify, [])
  | row :: rest =>
      let artist_name := Row.name row in
      let '(r, spotify', evs) :=
        SpotifyAPI.search_artist spotify artist_name (world k) in
      match r with
      | Py.Raise e => (Py.Raise e, spotify', evs)
      | Py.Ok result =>
          let artist_df :=
            match result with
            | Some found => store_match (Row.idx row) found artist_df
            | None => artist_df
            end in
          let '(out, spotify'', evs') :=
            enrich_rows world (S k) rest spotify' artist_df in
          (out, spotify'', evs ++ evs')
      end
  end.

(** [enrich_with_spotify]: the four columns start out null; the closing
    [pd.to_numeric(..., errors='coerce')] leaves integers and nulls as
    they are. *)
Definition enrich_with_spotify (spotify : SpotifyAPI.t)
           (world : nat -> SpotifyAPI.World) (artist_df : list Row.t)
  : Py.result (list Enriched.t) * SpotifyAPI.t * list SpotifyAPI.event :=
  let df := map (fun r => Enriched.mk r None None None None) artist_df in
  enrich_rows world 0 artist_df spotify df.

(** [collect_all_data].  Unpacking the [None] that [process_artist_data]
    returns for an empty input is a [TypeError]. *)
Definition collect_all_data (number_of_artists : Z)
           (server : Z -> Response CatalogPage)
           (spotify : SpotifyAPI.t) (world : nat -> SpotifyAPI.World)
  : Py.result (list Enriched.t * list Country.t) :=
  let '(fetched_artists, _) := fetch_artists number_of_artists server in
  processed <- process_artist_data fetched_artists ;;
  match processed with
  | None => Py.Raise Py.TypeError
  | Some (artist_df, countries_df) =>
      let '(r, _, _) := enrich_with_spotify spotify world artist_df in
      artist_df <- r ;;
      written <- to_csv artist_df ;;
      Py.Ok (artist_df, countries_df)
  end.

End Collector.
End ArtistDataCollector.

(** ** [class ArtistVisualizer] *)

Module ArtistVisualizer.

(** *** float64 arithmetic, exact on finite values *)

Definition Qneg (q : Q) : bool := negb (Qle_bool 0%Q q).
Definition Qzero (q : Q) : bool := Qle_bool q 0%Q && Qle_bool 0%Q q.

Definition truediv (a b : Py.float) : Py.float :=
  match a, b with
  | Py.NaN, _ | _, Py.NaN => Py.NaN
  | Py.Inf _, Py.Inf _ => Py.NaN
  | Py.Inf s, Py.Fin y => Py.Inf (xorb s (Qneg y))
  | Py.Fin x, Py.Inf _ => Py.Fin 0%Q
  | Py.Fin x, Py.Fin y =>
      if Qzero y
      then (if Qzero x then Py.NaN else Py.Inf (Qneg x))
      else Py.Fin (x / y)%Q
  end.

Definition mul (a b : Py.float) : Py.float :=
  match a, b with
  | Py.NaN, _ | _, Py.NaN => Py.NaN
  | Py.Inf s, Py.Inf s' => Py.Inf (xorb s s')
  | Py.Inf s, Py.Fin y | Py.Fin y, Py.Inf s =>
      if Qzero y then Py.NaN else Py.Inf (xorb s (Qneg y))
  | Py.Fin x, Py.Fin y => Py.Fin (x * y)%Q
  end.

(** The order numpy sorts floats by: [NaN] after everything else. *)
Definition float_leb (a b : Py.float) : bool :=
  match a, b with
  | _, Py.NaN => true
  | Py.NaN, _ => false
  | Py.Inf true, _ => true
  | _, Py.Inf false => true
  | Py.Fin x, Py.Fin y => Qle_bool x y
  | _, _ => false
  end.

(** *** group keys *)

(** [a <= b] on strings: code point by code point. *)
Fixpoint str_leb (a b : Py.str) : bool :=
  match a, b with
  | [], _ => true
  | _ :: _, [] => false
  | x :: a', y :: b' =>
      if (x <? y)%N then true
      else if (y <? x)%N then false
      else str_leb a' b'
  end.

(** The sorted list of distinct keys that [groupby] makes. *)
Fixpoint insert_key (k : Py.str) (keys : list Py.str) : list Py.str :=
  match keys with
  | [] => [k]
  | k' :: rest =>
      if Py.str_eqb k k' then keys
      else if str_leb k k' then k :: keys
      else k' :: insert_key k rest
  end.

Definition group_keys (column : list (option Py.str)) : list Py.str :=
  fold_right (fun c keys => match c with
                            | Some k => insert_key k keys
                            | None => keys      (* [dropna=True] *)
                            end) [] column.

(** One row of [artist_per_country]. *)
Record PerCountry : Type := mkPerCountry {
  Country_name : Py.str;
  ArtistsCount : nat;
  population : Py.float;
  ArtistsPerMillion : Py.float
}.

Section Visualizer.
Context {SK : SortKind}.

(** What [pd.to_numeric] makes of a string cell: the number it parses
    to, [NaN] if it does not parse. *)
Variable str_to_numeric : Py.str -> Py.float.

Variable artist_df : list Enriched.t.
Variable countries_df : list Country.t.

Definition country_of (r : Enriched.t) : option Py.str :=
  Row.Country_name (Enriched.artist r).

(** [pd.merge(left, countries_df, on='Country_name', how='left')]: a
    left row is paired with every country row of the same name, or once
    with nulls when there is none. *)
Definition merge_left {L} (key : L -> option Py.str) (left : list L)
  : list (L * option Country.t) :=
  flat_map
    (fun l =>
       match key l with
       | None => [(l, None)]
       | Some k =>
           match filter (fun c => Py.str_eqb (Country.Country_name c) k)
                        countries_df with
           | [] => [(l, None)]
           | matches => map (fun c => (l, Some c)) matches
           end
       end) left.

(** [pd.to_numeric(cell, errors='coerce')] *)
Definition to_numeric (cell : Py.obj) : Py.float :=
  match cell with
  | Py.PyNone => Py.NaN
  | Py.PyInt n => Py.Fin (inject_Z n)
  | Py.PyStr s => str_to_numeric s
  end.

(** [pd.Series.dropna] *)
Definition dropna {A} (column : list (option A)) : list A :=
  flat_map (fun c => match c with Some a => [a] | None => [] end) column.

(** Size of the group of key [k]; [count()] counts the [name] cells,
    none of which is null. *)
Definition group_size (k : Py.str) (keys : list (option Py.str)) : nat :=
  length (filter (fun c => match c with
                           | Some k' => Py.str_eqb k' k
                           | None => false
                           end) keys).

(** The table both [create_summary_text] and [plot_artists_per_million]
    build, by the same statements: artists counted per country, the
    population joined in and made numeric, the rate computed. *)
Definition artist_per_country : list PerCountry :=
  let merged_df := merge_left country_of artist_df in
  let merged_keys := map (fun m => country_of (fst m)) merged_df in
  let counted :=
    map (fun k => (k, group_size k merged_keys)) (group_keys merged_keys) in
  let joined := merge_left (fun kn => Some (fst kn)) counted in
  map (fun '((k, n), c) =>
         let population :=
           match c with
           | Some c => to_numeric (Country.population c)
           | None => Py.NaN
           end in
         let count := Py.Fin (inject_Z (Z.of_nat n)) in
         mkPerCountry k n population
           (mul (truediv count population) (Py.Fin 1000000%Q)))
      joined.

Definition at_least_3 (r : PerCountry) : bool := (3 <=? ArtistsCount r)%nat.
Definition has_rate (r : PerCountry) : bool :=
  negb (Py.isna (ArtistsPerMillion r)).

(** [top_per_million] of [create_summary_text] *)
Definition top_per_million : list PerCountry :=
  let filtered_countries :=
    filter has_rate (filter at_least_3 artist_per_country) in
  firstn 3 (sort_values_descending float_leb ArtistsPerMillion
                                   filtered_countries).

(** [top_countries] of [plot_artists_per_million] *)
Definition top_countries : list PerCountry :=
  let artist_per_country := filter has_rate artist_per_country in
  let artist_per_country := filter at_least_3 artist_per_country in
  firstn 10 (sort_values_descending float_leb ArtistsPerMillion
                                    artist_per_country).

(** *** peak formation period *)

(** [np.linspace(start, stop, num)] *)
Definition linspace (start stop : Q) (num : nat) : list Q :=
  let step := ((stop - start) / inject_Z (Z.of_nat (num - 1)))%Q in
  map (fun k => (start + inject_Z (Z.of_nat k) * step)%Q) (seq 0 num).

(** The edges [pd.cut] makes for a number of bins: the range is widened
    by 0.1% on both sides when it is a point, else the lowest edge is
    lowered by 0.1% of the range so that the minimum falls in the first
    bin.  The edges are computed exactly here.  For whole years that puts
    every year in the bin binary64 puts it in: an inner edge is a whole
    number, which binary64 computes exactly, or lies at least 0.2 from
    every whole number; the lowest edge lies below the minimum; and in a
    point range the year sits in the middle of the middle bin. *)
Definition nbins_to_bins (mn mx : Q) (nbins : nat) : list Q :=
  if Qeq_bool mn mx then
    let mn' :=
      (mn - (if Qzero mn then 1 # 1000 else (1 # 1000) * Qabs mn))%Q in
    let mx' :=
      (mx + (if Qzero mx then 1 # 1000 else (1 # 1000) * Qabs mx))%Q in
    linspace mn' mx' (nbins + 1)%nat
  else
    let adj := ((mx - mn) * (1 # 1000))%Q in
    match linspace mn mx (nbins + 1)%nat with
    | b0 :: rest => (b0 - adj)%Q :: rest
    | [] => []
    end.

Definition Qlt_bool (a b : Q) : bool := negb (Qle_bool b a).

(** [bins.searchsorted(x, side='left')]: the number of edges below [x] *)
Definition searchsorted_left (bins : list Q) (x : Q) : nat :=
  length (filter (fun e => Qlt_bool e x) bins).

(** The bin code [pd.cut] gives a value: null outside the edges. *)
Definition cut_code (bins : list Q) (x : Q) : option nat :=
  let ids := searchsorted_left bins x in
  if (ids =? 0)%nat || (ids =? length bins)%nat then None
  else Some (ids - 1)%nat.

(** [bins.value_counts().sort_index()]: the count of every bin, in bin
    order. *)
Definition value_counts (nbins : nat) (codes : list (option nat))
  : list nat :=
  map (fun k => length (filter (fun c => match c with
                                         | Some k' => (k' =? k)%nat
                                         | None => false
                                         end) codes))
      (seq 0 nbins).

Fixpoint argmax_from (best : nat) (best_count : nat) (i : nat)
         (counts : list nat) : nat :=
  match counts with
  | [] => best
  | c :: rest =>
      if (best_count <? c)%nat
      then argmax_from i c (S i) rest
      else argmax_from best best_count (S i) rest
  end.

(** [idxmax()]: the position of the first maximum *)
Definition idxmax (counts : list nat) : nat :=
  match counts with
  | [] => 0%nat
  | c :: rest => argmax_from 0 c 1 rest
  end.

Definition years : list Z :=
  dropna (map (fun r => Row.Year_formed (Enriched.artist r)) artist_df).

Definition min_year (y0 : Z) (ys : list Z) : Z := fold_left Z.min ys y0.
Definition max_year (y0 : Z) (ys : list Z) : Z := fold_left Z.max ys y0.

(** The edges for the formation years. *)
Definition period_bins (y0 : Z) (ys : list Z) : list Q :=
  nbins_to_bins (inject_Z (min_year y0 ys)) (inject_Z (max_year y0 ys)) 5.

Definition period_counts (y0 : Z) (ys : list Z) : list nat :=
  let bins := period_bins y0 ys in
  value_counts 5 (map (fun y => cut_code bins (inject_Z y)) (y0 :: ys)).

(** [peak_period] of [create_summary_text]: the edges [(left, right)] of
    the interval [idxmax] names, [None] for "Insufficient data".  The
    text shows both edges through ["{:.0f}"]; that rounding is not
    modelled. *)
Definition peak_period : option (Q * Q) :=
  match years with
  | y0 :: ((_ :: _) as ys) =>
      let bins := period_bins y0 ys in
      let k := idxmax (period_counts y0 ys) in
      Some (nth k bins 0%Q, nth (S k) bins 0%Q)
  | _ => None
  end.

End Visualizer.
End ArtistVisualizer.

(* ================================================================== *)
(** * Part II: properties                                              *)
(* ================================================================== *)

(** ** Year extraction *)

Module ExtractYear.
Import ArtistDataCollector.

Lemma str_eqb_eq (a b : Py.str) : Py.str_eqb a b = true <-> a = b.
Proof.
  unfold Py.str_eqb. destruct (list_eq_dec N.eq_dec a b); split;
    intros; congruence.
Qed.

Lemma str_eqb_refl (a : Py.str) : Py.str_eqb a a = true.
Proof. now apply str_eqb_eq. Qed.

Lemma decimal_value_nonneg c d : Py.decimal_value c = Some d -> 0 <= d < 10.
Proof.
  unfold Py.decimal_value.
  destruct (find _ Py.decimal_runs) as [[lo hi]|]; [|discriminate].
  intros [= <-].
  assert (H : ((c - lo) mod 10 < 10)%N) by (apply N.mod_upper_bound; discriminate).
  revert H. generalize ((c - lo) mod 10)%N. intros m H. lia.
Qed.

Lemma int_digits_ok (s : Py.str) : forall acc,
  forallb Py.isdecimal_char s = true ->
  0 <= acc ->
  exists n, Py.int_digits acc s = Py.Ok n /\ 0 <= n.
Proof.
  induction s as [|c s IH]; intros acc Hs Hacc; cbn [Py.int_digits].
  - eauto.
  - simpl in Hs. apply andb_true_iff in Hs as [Hc Hs].
    unfold Py.isdecimal_char in Hc.
    destruct (Py.decimal_value c) as [d|] eqn:Ed; [|discriminate].
    apply decimal_value_nonneg in Ed. apply IH; [assumption | lia].
Qed.

Lemma int_digits_raise (s : Py.str) : forall acc e,
  Py.int_digits acc s = Py.Raise e ->
  e = Py.ValueError /\ exists c, In c s /\ Py.isdecimal_char c = false.
Proof.
  induction s as [|c s IH]; intros acc e; cbn [Py.int_digits]; [discriminate|].
  destruct (Py.decimal_value c) as [d|] eqn:Ed.
  - intros H. apply IH in H as (-> & c' & Hin & Hc').
    split; [reflexivity|]. exists c'. split; [now right | assumption].
  - intros [= <-]. split; [reflexivity|]. exists c.
    unfold Py.isdecimal_char. rewrite Ed. split; [now left | reflexivity].
Qed.

(** A missing date is a missing year. *)
Lemma extract_year_null : extract_year None = Py.Ok None.
Proof. reflexivity. Qed.

(** An integer comes out only of a leading slice that [isdigit] accepts,
    and it is not negative. *)
Lemma extract_year_some (s : Py.str) (n : Z) :
  extract_year (Some s) = Py.Ok (Some n) ->
  Py.isdigit (firstn 4 s) = true /\ 0 <= n.
Proof.
  unfold extract_year, Py.slice_to.
  destruct (Py.isdigit (firstn 4 s)) eqn:E; [|discriminate].
  intros H. split; [reflexivity|].
  unfold Py.int in H. destruct (firstn 4 s) as [|c t] eqn:Es; [discriminate|].
  assert (Hacc : forall s' acc m, 0 <= acc -> Py.int_digits acc s' = Py.Ok m -> 0 <= m).
  { induction s' as [|c' s' IH]; cbn [Py.int_digits]; intros acc m Hacc.
    - intros [= <-]. assumption.
    - destruct (Py.decimal_value c') as [d|] eqn:Ed; [|discriminate].
      apply decimal_value_nonneg in Ed. apply IH. lia. }
  destruct (Py.int_digits 0 (c :: t)) as [m|] eqn:Em; simpl in H; [|discriminate].
  injection H as <-. eapply Hacc; [|exact Em]. lia.
Qed.

(** A leading slice with a character that is no digit, or an empty one,
    gives null. *)
Lemma extract_year_not_digits (s : Py.str) :
  Py.isdigit (firstn 4 s) = false -> extract_year (Some s) = Py.Ok None.
Proof. unfold extract_year, Py.slice_to. now intros ->. Qed.

(** When the leading slice holds decimal digits only, the call returns. *)
Lemma extract_year_decimal (s : Py.str) :
  forallb Py.isdecimal_char (firstn 4 s) = true ->
  exists y, extract_year (Some s) = Py.Ok y.
Proof.
  intros H. unfold extract_year, Py.slice_to.
  destruct (Py.isdigit (firstn 4 s)) eqn:E; [|eauto].
  unfold Py.int. destruct (firstn 4 s) as [|c t] eqn:Es.
  - discriminate E.
  - destruct (int_digits_ok (c :: t) 0 H) as (n & -> & _); [lia|].
    simpl. eauto.
Qed.

(** The only exception is the [ValueError] of [int], on a slice that
    [isdigit] accepts although one of its characters has no decimal
    value. *)
Lemma extract_year_raise (d : option Py.str) (e : Py.exn) :
  extract_year d = Py.Raise e ->
  e = Py.ValueError /\
  exists s c, d = Some s /\ In c (firstn 4 s) /\
              Py.isdigit_char c = true /\ Py.isdecimal_char c = false.
Proof.
  destruct d as [s|]; [|discriminate].
  unfold extract_year, Py.slice_to.
  destruct (Py.isdigit (firstn 4 s)) eqn:E; [|discriminate].
  unfold Py.int. destruct (firstn 4 s) as [|c t] eqn:Es; [discriminate|].
  destruct (Py.int_digits 0 (c :: t)) as [m|e'] eqn:Em; cbn [Py.bind];
    [discriminate|].
  intros [= <-]. apply int_digits_raise in Em as (-> & c' & Hin & Hc').
  split; [reflexivity|]. exists s, c'. rewrite Es.
  unfold Py.isdigit in E. rewrite forallb_forall in E.
  repeat split; auto.
Qed.

(** No character below 128 is a digit without being a decimal digit. *)
Lemma ascii_digit_is_decimal (c : N) :
  (c < 128)%N -> Py.isdigit_char c = Py.isdecimal_char c.
Proof.
  intros Hc. unfold Py.isdigit_char.
  replace (Py.in_runs Py.digit_only_runs c) with false;
    [apply orb_false_r|].
  symmetry. unfold Py.in_runs. apply not_true_is_false.
  rewrite existsb_exists. intros (r & Hr & Hin).
  assert (Hlow : forallb (fun r => (128 <=? fst r)%N) Py.digit_only_runs = true)
    by reflexivity.
  rewrite forallb_forall in Hlow. specialize (Hlow r Hr).
  apply andb_true_iff in Hin as [Hlo _].
  apply N.leb_le in Hlow, Hlo. lia.
Qed.

(** On a date whose leading slice is ASCII the call never raises: the
    exception needs a digit from outside ASCII. *)
Lemma extract_year_ascii (s : Py.str) :
  Py.isascii (firstn 4 s) = true ->
  exists y, extract_year (Some s) = Py.Ok y.
Proof.
  intros Hascii. destruct (extract_year (Some s)) as [y|e] eqn:E; [eauto|].
  apply extract_year_raise in E as (_ & s' & c & [= <-] & Hin & Hd & Hn).
  unfold Py.isascii in Hascii. rewrite forallb_forall in Hascii.
  specialize (Hascii c Hin). apply N.ltb_lt in Hascii.
  rewrite (ascii_digit_is_decimal c Hascii) in Hd. congruence.
Qed.

(** The date ["²019-05-01"]: a superscript two (U+00B2), then ASCII. *)
Definition superscript_date : Py.str :=
  178%N :: Py.of_string "019-05-01".

Example extract_year_1999 :
  extract_year (Some (Py.of_string "1999-12-31")) = Py.Ok (Some 1999).
Proof. reflexivity. Qed.

Example extract_year_short :
  extract_year (Some (Py.of_string "199")) = Py.Ok (Some 199).
Proof. reflexivity. Qed.

Example extract_year_unknown :
  extract_year (Some (Py.of_string "????")) = Py.Ok None.
Proof. reflexivity. Qed.

(** C2 (the code departs from the claim).  The claim has year extraction
    never raise.  On the date string ["²019-05-01"] the leading slice
    ["²019"] passes [isdigit], since a superscript two is a digit to
    Python, and [int] then rejects it: the call raises a [ValueError]
    instead of returning null. *)
Theorem extract_year_raises_on_superscript :
  Py.isdigit (firstn 4 superscript_date) = true /\
  extract_year (Some superscript_date) = Py.Raise Py.ValueError.
Proof. split; reflexivity. Qed.

End ExtractYear.

(** ** Sorting *)

Module SortFacts.

Lemma take_cons {A} (l : list A) i idx :
  take l (i :: idx) =
  match nth_error l i with Some a => [a] | None => [] end ++ take l idx.
Proof. reflexivity. Qed.

Lemma take_app {A} (l : list A) idx1 idx2 :
  take l (idx1 ++ idx2) = take l idx1 ++ take l idx2.
Proof. unfold take. apply flat_map_app. Qed.

Lemma take_seq_app {A} (l : list A) : forall pre,
  take (pre ++ l) (seq (length pre) (length l)) = l.
Proof.
  induction l as [|x l IH]; intros pre; [reflexivity|].
  cbn [length seq]. rewrite take_cons.
  rewrite nth_error_app2, Nat.sub_diag by lia. cbn [nth_error app].
  f_equal. specialize (IH (pre ++ [x])).
  rewrite <- app_assoc, length_app in IH. cbn [length app] in IH.
  now rewrite Nat.add_1_r in IH.
Qed.

Lemma take_seq_self {A} (l : list A) : take l (seq 0 (length l)) = l.
Proof. exact (take_seq_app l []). Qed.

Lemma take_perm {A} (l : list A) idx :
  Permutation idx (seq 0 (length l)) -> Permutation (take l idx) l.
Proof.
  intros H. rewrite <- (take_seq_self l) at 2.
  unfold take. now apply Permutation_flat_map.
Qed.

Lemma take_map {A B} (f : A -> B) (l : list A) idx :
  map f (take l idx) = take (map f l) idx.
Proof.
  induction idx as [|i idx IH]; [reflexivity|].
  rewrite !take_cons, map_app, IH, nth_error_map.
  now destruct (nth_error l i).
Qed.

Lemma take_rev_indexer {A} (l : list A) idx :
  take l (rev idx) = rev (take l idx).
Proof.
  induction idx as [|i idx IH]; [reflexivity|].
  cbn [rev]. rewrite take_app, IH, !take_cons.
  cbn [take flat_map]. rewrite rev_app_distr, app_nil_r.
  f_equal. now destruct (nth_error l i).
Qed.

(** Indexing the reversed positions is indexing the reversed list. *)
Lemma take_reversed_positions {A} (l : list A) idx :
  Forall (fun j => (j < length l)%nat) idx ->
  take l (take (rev (seq 0 (length l))) idx) = take (rev l) idx.
Proof.
  induction 1 as [|j idx Hj _ IH]; [reflexivity|].
  rewrite !take_cons, take_app, IH. f_equal.
  rewrite !nth_error_rev, length_seq, nth_error_seq.
  apply Nat.ltb_lt in Hj as Hb. rewrite Hb.
  replace (length l - S j <? length l)%nat with true
    by (symmetry; apply Nat.ltb_lt; lia).
  cbn [take flat_map Nat.add]. now rewrite app_nil_r.
Qed.

Lemma StronglySorted_snoc {A} (R : A -> A -> Prop) l a :
  StronglySorted R l -> Forall (fun x => R x a) l ->
  StronglySorted R (l ++ [a]).
Proof.
  induction 1 as [|b l Hs IH Hb]; intros Ha; cbn.
  - repeat constructor.
  - inversion Ha; subst. constructor; [auto|].
    apply Forall_app. split; [assumption | now constructor].
Qed.

Lemma StronglySorted_rev {A} (R : A -> A -> Prop) l :
  StronglySorted R l -> StronglySorted (fun a b => R b a) (rev l).
Proof.
  induction 1 as [|a l Hs IH Ha]; cbn; [constructor|].
  apply StronglySorted_snoc; [assumption|].
  apply Forall_forall. intros x Hx. apply in_rev in Hx.
  rewrite Forall_forall in Ha. auto.
Qed.

Lemma StronglySorted_map {A B} (R : B -> B -> Prop) (f : A -> B) l :
  StronglySorted R (map f l) -> StronglySorted (fun a b => R (f a) (f b)) l.
Proof.
  induction l as [|a l IH]; cbn; intros H; [constructor|].
  apply StronglySorted_inv in H as [Hs Ha]. constructor; [auto|].
  rewrite Forall_map in Ha. exact Ha.
Qed.

Lemma StronglySorted_impl {A} (R R' : A -> A -> Prop) l :
  (forall a b, R a b -> R' a b) ->
  StronglySorted R l -> StronglySorted R' l.
Proof.
  intros HR. induction 1 as [|a l Hs IH Ha]; constructor; [assumption|].
  eapply Forall_impl; [|exact Ha]. auto.
Qed.

Lemma StronglySorted_filter {A} (R : A -> A -> Prop) (p : A -> bool) l :
  StronglySorted R l -> StronglySorted R (filter p l).
Proof.
  induction 1 as [|a l Hs IH Ha]; cbn; [constructor|].
  destruct (p a); [|assumption]. constructor; [assumption|].
  apply Forall_forall. intros x Hx. apply filter_In in Hx as [Hx _].
  rewrite Forall_forall in Ha. auto.
Qed.

Section WithKind.
Context {SK : SortKind}.
Context {A K : Type} (leb : K -> K -> bool) (key : A -> K).

Lemma argsort_in_range (keys : list K) :
  Forall (fun j => (j < length keys)%nat) (argsort leb keys).
Proof.
  apply Forall_forall. intros j Hj.
  apply (Permutation_in _ (argsort_perm K leb keys)) in Hj.
  apply in_seq in Hj. lia.
Qed.

(** What the reversals of [nargsort] amount to. *)
Lemma sort_values_descending_eq (df : list A) :
  sort_values_descending leb key df =
  rev (take (rev df) (argsort leb (rev (map key df)))).
Proof.
  unfold sort_values_descending, nargsort_descending.
  rewrite take_rev_indexer. f_equal.
  rewrite length_map. apply take_reversed_positions.
  pose proof (argsort_in_range (rev (map key df))) as H.
  now rewrite length_rev, length_map in H.
Qed.

(** Sorting keeps the rows, each as often as it was there. *)
Lemma sort_values_descending_perm (df : list A) :
  Permutation (sort_values_descending leb key df) df.
Proof.
  rewrite sort_values_descending_eq.
  eapply Permutation_trans; [apply Permutation_sym, Permutation_rev|].
  eapply Permutation_trans; [|apply Permutation_sym, Permutation_rev].
  apply take_perm.
  pose proof (argsort_perm K leb (rev (map key df))) as H.
  now rewrite !length_rev, length_map in *.
Qed.

(** After the sort no row has a key below that of a later row. *)
Lemma sort_values_descending_sorted (df : list A) :
  (forall a b, leb a b = true \/ leb b a = true) ->
  (forall a b c, leb a b = true -> leb b c = true -> leb a c = true) ->
  StronglySorted (fun a b => leb (key b) (key a) = true)
                 (sort_values_descending leb key df).
Proof.
  intros Htotal Htrans.
  rewrite sort_values_descending_eq.
  apply (StronglySorted_rev (fun a b => leb (key a) (key b) = true)).
  apply (StronglySorted_map (fun a b => leb a b = true) key).
  rewrite take_map, map_rev.
  now apply argsort_sorted.
Qed.
End WithKind.

End SortFacts.

(** ** Two sorting routines that meet numpy's contract

    Both are insertion sorts on the pairs (position, key).  They differ in
    where a key goes among the keys equal to it: [stable_kind] keeps equal
    keys in the order of their positions, [unstable_kind] reverses them.
    The contract of [SortKind] allows both. *)

Module SortKinds.
Import SortFacts.

Section Insertion.
Context {K : Type}.
Variable leb : K -> K -> bool.
(** [before x y]: the new key [x] is put in front of the key [y]. *)
Variable before : K -> K -> bool.

Fixpoint insert (x : nat * K) (l : list (nat * K)) : list (nat * K) :=
  match l with
  | [] => [x]
  | y :: rest =>
      if before (snd x) (snd y) then x :: l else y :: insert x rest
  end.

Definition isort (l : list (nat * K)) : list (nat * K) :=
  fold_right insert [] l.

Definition insertion_argsort (keys : list K) : list nat :=
  map fst (isort (combine (seq 0 (length keys)) keys)).

Lemma insert_perm x l : Permutation (insert x l) (x :: l).
Proof.
  induction l as [|y l IH]; cbn; [reflexivity|].
  destruct (before (snd x) (snd y)); [reflexivity|].
  rewrite IH. apply perm_swap.
Qed.

Lemma isort_perm l : Permutation (isort l) l.
Proof.
  induction l as [|x l IH]; cbn; [reflexivity|].
  rewrite insert_perm. now constructor.
Qed.

Lemma map_fst_combine {A B} (a : list A) : forall (b : list B),
  length a = length b -> map fst (combine a b) = a.
Proof.
  induction a as [|x a IH]; intros [|y b] H; try discriminate;
    [reflexivity|].
  cbn. f_equal. apply IH. now injection H.
Qed.

Lemma insertion_argsort_perm keys :
  Permutation (insertion_argsort keys) (seq 0 (length keys)).
Proof.
  unfold insertion_argsort. rewrite isort_perm.
  rewrite map_fst_combine; [reflexivity|]. now rewrite length_seq.
Qed.

Hypothesis before_leb : forall x y, before x y = true -> leb x y = true.
Hypothesis not_before_leb : forall x y, before x y = false -> leb y x = true.
Hypothesis leb_trans :
  forall a b c, leb a b = true -> leb b c = true -> leb a c = true.

Let ordered (p q : nat * K) : Prop := leb (snd p) (snd q) = true.

Lemma insert_sorted x l :
  StronglySorted ordered l -> StronglySorted ordered (insert x l).
Proof.
  induction 1 as [|y l Hs IH Hy]; cbn; [repeat constructor|].
  destruct (before (snd x) (snd y)) eqn:E.
  - constructor; [now constructor|].
    apply before_leb in E. constructor; [exact E|].
    eapply Forall_impl; [|exact Hy]. intros q Hq. unfold ordered in *.
    eauto.
  - constructor; [assumption|].
    apply not_before_leb in E.
    apply Forall_forall. intros q Hq.
    apply (Permutation_in _ (insert_perm x l)) in Hq as [<-|Hq];
      [exact E|].
    rewrite Forall_forall in Hy. auto.
Qed.

Lemma isort_sorted l : StronglySorted ordered (isort l).
Proof.
  induction l as [|x l IH]; cbn; [constructor|].
  now apply insert_sorted.
Qed.

Lemma positions_of_keys (keys : list K) : forall pre,
  Forall (fun p => nth_error (pre ++ keys) (fst p) = Some (snd p))
         (combine (seq (length pre) (length keys)) keys).
Proof.
  induction keys as [|k keys IH]; intros pre; cbn; constructor.
  - cbn. now rewrite nth_error_app2, Nat.sub_diag by lia.
  - specialize (IH (pre ++ [k])).
    rewrite <- app_assoc, length_app in IH. cbn in IH.
    now rewrite Nat.add_1_r in IH.
Qed.

Lemma take_positions (keys : list K) (l : list (nat * K)) :
  Forall (fun p => nth_error keys (fst p) = Some (snd p)) l ->
  take keys (map fst l) = map snd l.
Proof.
  induction 1 as [|p l Hp _ IH]; [reflexivity|].
  cbn [map]. rewrite take_cons, Hp, IH. reflexivity.
Qed.

Lemma insertion_argsort_sorted keys :
  StronglySorted (fun a b => leb a b = true)
                 (take keys (insertion_argsort keys)).
Proof.
  unfold insertion_argsort. rewrite take_positions.
  - pose proof (isort_sorted (combine (seq 0 (length keys)) keys)) as H.
    induction H as [|p l Hs IH Hp]; cbn; constructor; [assumption|].
    rewrite Forall_map. exact Hp.
  - apply Forall_forall. intros p Hp.
    apply (Permutation_in _ (isort_perm _)) in Hp.
    pose proof (positions_of_keys keys []) as H.
    rewrite Forall_forall in H. now apply H.
Qed.
End Insertion.

(** Equal keys stay in the order of their positions. *)
#[refine] Definition stable_kind : SortKind :=
  {| argsort := fun K leb keys => insertion_argsort leb keys |}.
Proof.
  - intros K leb keys. apply insertion_argsort_perm.
  - intros K leb keys Htotal Htrans.
    apply insertion_argsort_sorted; auto.
    intros x y E. destruct (Htotal x y); congruence.
Defined.

(** Equal keys come out in the reverse order of their positions. *)
#[refine] Definition unstable_kind : SortKind :=
  {| argsort := fun K leb keys =>
                  insertion_argsort (fun x y => negb (leb y x)) keys |}.
Proof.
  - intros K leb keys. apply insertion_argsort_perm.
  - intros K leb keys Htotal Htrans.
    apply insertion_argsort_sorted; auto.
    + intros x y E. apply negb_true_iff in E.
      destruct (Htotal x y); congruence.
    + intros x y E. now apply negb_false_iff in E.
Defined.

End SortKinds.

(** ** numpy's quicksort

    [argsort] with [kind='quicksort'] runs numpy's [aquicksort_]
    (npysort/quicksort.cpp) on the array [tosort] of the positions
    [0 .. n-1]: an introsort that partitions around the median of three,
    keeps the larger part on a stack, sorts a stretch of at most 17
    positions by insertion, and turns to heap sort ([aheapsort_],
    npysort/heapsort.cpp) when the depth limit [2 * floor (log2 n)] is
    used up.  This is the routine of the generic build; a build with a
    vectorised argsort for the key type and the CPU runs that one
    instead, which is no more stable.  Pointers into [tosort] are
    offsets from its start; the loops take fuel, always enough. *)

Module Numpy.

Section ArgQuicksort.
Context {K : Type}.

(** [Tag::less] *)
Variable less : K -> K -> bool.

(** The keys, [v]. *)
Variable v : list K.

(** [Tag::less(v[a], v[b])] *)
Definition less_at (a b : nat) : bool :=
  match nth_error v a, nth_error v b with
  | Some x, Some y => less x y
  | _, _ => false
  end.

(** [*p] and [*p = x] *)
Definition get (tosort : list nat) (p : Z) : nat :=
  nth (Z.to_nat p) tosort 0%nat.

Definition set (tosort : list nat) (p : Z) (x : nat) : list nat :=
  if (0 <=? p) && (p <? Z.of_nat (length tosort))
  then firstn (Z.to_nat p) tosort ++ x :: skipn (S (Z.to_nat p)) tosort
  else tosort.

(** [INTP_SWAP] on the places [p] and [q] *)
Definition swap (tosort : list nat) (p q : Z) : list nat :=
  let a := get tosort p in
  let b := get tosort q in
  set (set tosort p b) q a.

Definition SMALL_QUICKSORT : Z := 16.

(** The three conditional swaps that put the median at [pm]. *)
Definition median_of_three (tosort : list nat) (pl pm pr : Z) : list nat :=
  let tosort :=
    if less_at (get tosort pm) (get tosort pl) then swap tosort pm pl
    else tosort in
  let tosort :=
    if less_at (get tosort pr) (get tosort pm) then swap tosort pr pm
    else tosort in
  if less_at (get tosort pm) (get tosort pl) then swap tosort pm pl
  else tosort.

(** [do { ++pi; } while (Tag::less(v[*pi], vp));] with [vp = v[p]] *)
Fixpoint scan_up (fuel : nat) (tosort : list nat) (p : nat) (pi : Z) : Z :=
  match fuel with
  | O => pi
  | S fuel =>
      let pi := pi + 1 in
      if less_at (get tosort pi) p then scan_up fuel tosort p pi else pi
  end.

(** [do { --pj; } while (Tag::less(vp, v[*pj]));] *)
Fixpoint scan_down (fuel : nat) (tosort : list nat) (p : nat) (pj : Z) : Z :=
  match fuel with
  | O => pj
  | S fuel =>
      let pj := pj - 1 in
      if less_at p (get tosort pj) then scan_down fuel tosort p pj else pj
  end.

(** The [for (;;)] of the partition. *)
Fixpoint partition (fuel : nat) (tosort : list nat) (p : nat) (pi pj : Z)
  : list nat * Z :=
  match fuel with
  | O => (tosort, pi)
  | S fuel =>
      let pi := scan_up (length tosort) tosort p pi in
      let pj := scan_down (length tosort) tosort p pj in
      if pi >=? pj then (tosort, pi)
      else partition fuel (swap tosort pi pj) p pi pj
  end.

(** [while (pj > pl && Tag::less(vp, v[*pk])) { *pj-- = *pk--; } *pj = vi;] *)
Fixpoint shift (fuel : nat) (tosort : list nat) (vi : nat) (pl pj : Z)
  : list nat :=
  match fuel with
  | O => set tosort pj vi
  | S fuel =>
      let pk := pj - 1 in
      if (pj >? pl) && less_at vi (get tosort pk)
      then shift fuel (set tosort pj (get tosort pk)) vi pl pk
      else set tosort pj vi
  end.

(** [for (pi = pl + 1; pi <= pr; ++pi)] *)
Fixpoint insertion (fuel : nat) (tosort : list nat) (pl pi pr : Z)
  : list nat :=
  match fuel with
  | O => tosort
  | S fuel =>
      if pi <=? pr
      then insertion fuel
                     (shift (length tosort) tosort (get tosort pi) pl pi)
                     pl (pi + 1) pr
      else tosort
  end.

Definition insertion_sort (tosort : list nat) (pl pr : Z) : list nat :=
  insertion (length tosort) tosort pl (pl + 1) pr.

(** The inner loop of [aheapsort_], on [a = start - 1]: the place of
    [tmp] is looked for from [i] down the heap [a[1 .. n]]. *)
Fixpoint sift (fuel : nat) (tosort : list nat) (a : Z) (tmp : nat)
         (i j n : Z) : list nat :=
  match fuel with
  | O => set tosort (a + i) tmp
  | S fuel =>
      if j <=? n then
        let j :=
          if (j <? n) &&
             less_at (get tosort (a + j)) (get tosort (a + j + 1))
          then j + 1 else j in
        if less_at tmp (get tosort (a + j))
        then sift fuel (set tosort (a + i) (get tosort (a + j))) a tmp
                  j (j + j) n
        else set tosort (a + i) tmp
      else set tosort (a + i) tmp
  end.

(** [for (l = n >> 1; l > 0; --l)] *)
Fixpoint heapify (fuel : nat) (tosort : list nat) (a l n : Z) : list nat :=
  match fuel with
  | O => tosort
  | S fuel =>
      if l >? 0
      then heapify fuel
                   (sift (length tosort) tosort a (get tosort (a + l))
                         l (Z.shiftl l 1) n)
                   a (l - 1) n
      else tosort
  end.

(** [for (; n > 1;)] *)
Fixpoint unheap (fuel : nat) (tosort : list nat) (a n : Z) : list nat :=
  match fuel with
  | O => tosort
  | S fuel =>
      if n >? 1 then
        let tmp := get tosort (a + n) in
        let tosort := set tosort (a + n) (get tosort (a + 1)) in
        let n := n - 1 in
        unheap fuel (sift (length tosort) tosort a tmp 1 2 n) a n
      else tosort
  end.

(** [aheapsort_(vv, start, n)] *)
Definition aheapsort (tosort : list nat) (start n : Z) : list nat :=
  let a := start - 1 in
  let tosort := heapify (length tosort) tosort a (Z.shiftr n 1) n in
  unheap (length tosort) tosort a n.

(** The [while (1)] of [aquicksort_].  [again] says that the run is
    inside the partition loop, where the depth is not looked at. *)
Fixpoint run (fuel : nat) (tosort : list nat) (pl pr cdepth : Z)
         (stack : list (Z * Z * Z)) (again : bool) : list nat :=
  match fuel with
  | O => tosort
  | S fuel =>
      let stack_pop (tosort : list nat) : list nat :=
        match stack with
        | [] => tosort
        | (pl, pr, cdepth) :: stack =>
            run fuel tosort pl pr cdepth stack false
        end in
      if negb again && (cdepth <? 0)
      then stack_pop (aheapsort tosort pl (pr - pl + 1))
      else if pr - pl >? SMALL_QUICKSORT then
        let pm := pl + Z.shiftr (pr - pl) 1 in
        let tosort := median_of_three tosort pl pm pr in
        let p := get tosort pm in
        let tosort := swap tosort pm (pr - 1) in
        let '(tosort, pi) :=
          partition (length tosort) tosort p pl (pr - 1) in
        let tosort := swap tosort pi (pr - 1) in
        let cdepth := cdepth - 1 in
        (* the larger part goes on the stack *)
        if pi - pl <? pr - pi
        then run fuel tosort pl (pi - 1) cdepth
                 ((pi + 1, pr, cdepth) :: stack) true
        else run fuel tosort (pi + 1) pr cdepth
                 ((pl, pi - 1, cdepth) :: stack) true
      else stack_pop (insertion_sort tosort pl pr)
  end.

(** [npy_get_msb(n) * 2] *)
Definition depth_limit (n : Z) : Z := Z.log2 n * 2.

(** [aquicksort_(v, tosort, n)] on [tosort = 0 .. n-1]. *)
Definition aquicksort : list nat :=
  let n := length v in
  run (2 * n + 2) (seq 0 n) 0 (Z.of_nat n - 1) (depth_limit (Z.of_nat n))
      [] false.

End ArgQuicksort.

(** *** The routine as a [SortKind]

    The contract of [SortKind] is met by looking at what the routine
    hands back: were that no sorting permutation, the insertion sort of
    [SortKinds] would be asked instead. *)

Section Checked.
Context {K : Type}.
Variable leb : K -> K -> bool.

Fixpoint sortedb (l : list K) : bool :=
  match l with
  | [] => true
  | x :: rest =>
      match rest with
      | [] => true
      | y :: _ => leb x y && sortedb rest
      end
  end.

(** [indexer] holds every position of [keys] once and takes the keys in
    order. *)
Definition sorts (keys : list K) (indexer : list nat) : bool :=
  (length indexer =? length keys)%nat &&
  forallb (fun i => existsb (Nat.eqb i) indexer) (seq 0 (length keys)) &&
  sortedb (take keys indexer).

Lemma sorts_perm keys indexer :
  sorts keys indexer = true ->
  Permutation indexer (seq 0 (length keys)).
Proof.
  unfold sorts. rewrite !andb_true_iff. intros [[Hlen Hall] _].
  apply Nat.eqb_eq in Hlen. apply Permutation_sym.
  apply NoDup_Permutation_bis.
  - apply seq_NoDup.
  - rewrite length_seq. lia.
  - intros i Hi. rewrite forallb_forall in Hall.
    apply Hall, existsb_exists in Hi as (j & Hj & E).
    apply Nat.eqb_eq in E. now subst.
Qed.

Lemma sortedb_sorted (l : list K) :
  (forall a b c, leb a b = true -> leb b c = true -> leb a c = true) ->
  sortedb l = true -> StronglySorted (fun a b => leb a b = true) l.
Proof.
  intros Htrans. induction l as [|x rest IH]; [constructor|].
  cbn [sortedb]. destruct rest as [|y rest'].
  - intros _. repeat constructor.
  - rewrite andb_true_iff. intros [Hxy Hrest].
    specialize (IH Hrest). constructor; [exact IH|].
    apply StronglySorted_inv in IH as [_ Hy].
    constructor; [exact Hxy|].
    eapply Forall_impl; [|exact Hy]. intros z Hz. eauto.
Qed.

Definition checked_argsort (keys : list K) : list nat :=
  let indexer := aquicksort (fun x y => negb (leb y x)) keys in
  if sorts keys indexer then indexer
  else argsort (SortKind := SortKinds.stable_kind) leb keys.

End Checked.

(** [kind='quicksort'] *)
#[refine] Definition quicksort_kind : SortKind :=
  {| argsort := fun K leb keys => checked_argsort leb keys |}.
Proof.
  - intros K leb keys. unfold checked_argsort. cbn zeta.
    destruct (sorts leb keys _) eqn:E.
    + now apply sorts_perm in E.
    + apply argsort_perm.
  - intros K leb keys Htotal Htrans. unfold checked_argsort. cbn zeta.
    destruct (sorts leb keys _) eqn:E.
    + apply sortedb_sorted; [exact Htrans|].
      unfold sorts in E. now apply andb_true_iff in E as [_ E].
    + now apply argsort_sorted.
Defined.

End Numpy.

(** ** The record normaliser *)

Module Normalizer.
Import ArtistDataCollector SortFacts ExtractYear.

(** The year [extract_year] returns, when it returns. *)
Definition year_of (date_str : option Py.str) : option Z :=
  match extract_year date_str with
  | Py.Ok y => y
  | Py.Raise _ => None
  end.

Definition year_parses (date_str : option Py.str) : Prop :=
  exists y, extract_year date_str = Py.Ok y.

(** Both date columns of a record get through [extract_year]. *)
Definition dates_parse (r : Raw.t) : Prop :=
  year_parses (Raw.life_span_begin r) /\ year_parses (Raw.life_span_end r).

Definition features (r : Raw.t) : Frame.t :=
  add_features r (year_of (Raw.life_span_begin r))
                 (year_of (Raw.life_span_end r)).

(** The output row of a record. *)
Definition normalize (r : Raw.t) : Row.t := fix_ended (select (features r)).

Lemma apply_inv {A B} (f : A -> Py.result B) (d : B) (column : list A) :
  forall ys, apply f column = Py.Ok ys ->
  ys = map (fun x => match f x with Py.Ok y => y | Py.Raise _ => d end) column.
Proof.
  induction column as [|x column IH]; cbn; intros ys.
  - now intros [= <-].
  - destruct (f x) as [y|e]; cbn; [|discriminate].
    destruct (apply f column) as [ys'|e]; cbn; [|discriminate].
    intros [= <-]. f_equal. now apply IH.
Qed.

Lemma apply_ok {A B} (f : A -> Py.result B) (column : list A) :
  (forall x, In x column -> exists y, f x = Py.Ok y) ->
  exists ys, apply f column = Py.Ok ys.
Proof.
  induction column as [|x column IH]; cbn; intros H; [eauto|].
  destruct (H x) as [y ->]; [now left|].
  destruct IH as [ys ->]; [intros; apply H; now right|].
  cbn. eauto.
Qed.

Lemma combine_columns {A B C} (g : A -> B) (h : A -> C) (l : list A) :
  combine l (combine (map g l) (map h l)) = map (fun r => (r, (g r, h r))) l.
Proof. induction l as [|x l IH]; cbn; [reflexivity|]. now rewrite IH. Qed.

Lemma Permutation_filter {A} (p : A -> bool) (l l' : list A) :
  Permutation l l' -> Permutation (filter p l) (filter p l').
Proof.
  induction 1 as [|x l l' _ IH|x y l|l l' l'' _ IH1 _ IH2]; cbn.
  - constructor.
  - destruct (p x); [now constructor | assumption].
  - destruct (p x), (p y); try reflexivity. apply perm_swap.
  - now transitivity (filter p l').
Qed.

Lemma filter_partition {A} (p : A -> bool) (l : list A) :
  Permutation (filter p l ++ filter (fun x => negb (p x)) l) l.
Proof.
  induction l as [|x l IH]; cbn; [constructor|].
  destruct (p x); cbn.
  - now constructor.
  - apply Permutation_sym, Permutation_cons_app, Permutation_sym, IH.
Qed.

Lemma filter_filter {A} (p q : A -> bool) (l : list A) :
  filter q (filter p l) = filter (fun x => p x && q x) l.
Proof.
  induction l as [|x l IH]; cbn; [reflexivity|].
  destruct (p x); cbn; [destruct (q x)|]; now rewrite IH.
Qed.

Lemma map_ext_filter {A B} (f g : A -> B) (p q : A -> bool) (l : list A) :
  (forall x, p x = q x) -> (forall x, f x = g x) ->
  map f (filter p l) = map g (filter q l).
Proof.
  intros Hp Hf. rewrite (filter_ext _ _ Hp). now apply map_ext.
Qed.

Lemma isin_spec (x : Py.str) (values : list Py.str) :
  isin x values = true <-> In x values.
Proof.
  unfold isin. rewrite existsb_exists. split.
  - intros (v & Hv & E). apply str_eqb_eq in E. now subst.
  - intros H. exists x. split; [assumption | apply str_eqb_refl].
Qed.

Section Normalizer.
Context {SK : SortKind}.
Variable lower : Py.str -> Py.str.
Variable get_country_data : list Country.t.

Let process := process_artist_data lower get_country_data.

Definition valid_countries : list Py.str :=
  map lower (map Country.Country_name get_country_data).

(** A record survives the two filters: its name is ASCII and its
    country, lower-cased, is among the lower-cased reference names. *)
Definition survives (r : Raw.t) : bool :=
  Py.isascii (Raw.name r) &&
  match Raw.area_name r with
  | Some c => isin (lower c) valid_countries
  | None => false
  end.

Definition sorted (raws : list Raw.t) : list Raw.t :=
  sort_values_descending Z.leb Raw.score raws.

Lemma survives_spec (r : Raw.t) :
  survives r = true <->
  Py.isascii (Raw.name r) = true /\
  exists c country,
    Raw.area_name r = Some c /\ In country get_country_data /\
    lower c = lower (Country.Country_name country).
Proof.
  unfold survives. rewrite andb_true_iff.
  apply and_iff_compat_l.
  destruct (Raw.area_name r) as [c|].
  - rewrite isin_spec. unfold valid_countries. rewrite map_map, in_map_iff.
    split.
    + intros (country & E & Hin). exists c, country. auto.
    + intros (c' & country & [= <-] & Hin & E). exists country. auto.
  - split; [discriminate|]. now intros (c & country & E & _).
Qed.

(** What a successful call returns, in closed form. *)
Lemma process_inv raws tbl cs :
  process raws = Py.Ok (Some (tbl, cs)) ->
  raws <> [] /\ cs = get_country_data /\
  tbl = map normalize (filter survives (sorted raws)).
Proof.
  unfold process, process_artist_data.
  destruct raws as [|r0 raws']; [discriminate|].
  set (raws := r0 :: raws'). cbn [length Nat.eqb].
  fold (sorted raws).
  destruct (apply extract_year (map Raw.life_span_begin (sorted raws)))
    as [yf|e] eqn:Ef; cbn [Py.bind]; [|discriminate].
  destruct (apply extract_year (map Raw.life_span_end (sorted raws)))
    as [yd|e] eqn:Ed; cbn [Py.bind]; [|discriminate].
  apply (apply_inv _ None) in Ef, Ed. subst yf yd.
  rewrite !map_map.
  rewrite (combine_columns (fun r => year_of (Raw.life_span_begin r))
                           (fun r => year_of (Raw.life_span_end r))).
  intros [= <- <-]. split; [discriminate|]. split; [reflexivity|].
  repeat (rewrite filter_map_swap || rewrite map_map).
  rewrite filter_filter.
  apply map_ext_filter.
  - intros r. unfold survives, valid_countries. rewrite map_map.
    reflexivity.
  - intros r. reflexivity.
Qed.

Lemma apply_ok_inv {A B} (f : A -> Py.result B) (column : list A) ys :
  apply f column = Py.Ok ys ->
  forall x, In x column -> exists y, f x = Py.Ok y.
Proof.
  revert ys. induction column as [|x0 column IH]; cbn; intros ys H x;
    [contradiction|].
  destruct (f x0) as [y0|e] eqn:E0; cbn in H; [|discriminate].
  destruct (apply f column) as [ys'|e]; cbn in H; [|discriminate].
  intros [<-|Hx]; eauto.
Qed.

Lemma In_sorted raws r : In r (sorted raws) <-> In r raws.
Proof.
  pose proof (sort_values_descending_perm Z.leb Raw.score raws) as P.
  split; apply Permutation_in; [exact P | now apply Permutation_sym].
Qed.

(** A call that returns has got every date through [extract_year]. *)
Lemma process_dates_parse raws out :
  process raws = Py.Ok out -> forall r, In r raws -> dates_parse r.
Proof.
  unfold process, process_artist_data.
  destruct raws as [|r0 raws']; [contradiction|].
  set (raws := r0 :: raws'). cbn [length Nat.eqb]. fold (sorted raws).
  destruct (apply extract_year (map Raw.life_span_begin (sorted raws)))
    as [yf|e] eqn:Ef; cbn [Py.bind]; [|discriminate].
  destruct (apply extract_year (map Raw.life_span_end (sorted raws)))
    as [yd|e] eqn:Ed; cbn [Py.bind]; [|discriminate].
  intros _ r Hr. apply (proj2 (In_sorted _ _)) in Hr. split.
  - apply (apply_ok_inv _ _ _ Ef). now apply in_map.
  - apply (apply_ok_inv _ _ _ Ed). now apply in_map.
Qed.

(** The call returns whenever every date gets through [extract_year]. *)
Lemma process_total raws :
  raws <> [] ->
  (forall r, In r raws -> dates_parse r) ->
  process raws =
  Py.Ok (Some (map normalize (filter survives (sorted raws)),
               get_country_data)).
Proof.
  intros Hne Hdates.
  assert (exists out, process raws = Py.Ok (Some out)) as [[tbl cs] E].
  { unfold process, process_artist_data.
    destruct raws as [|r0 raws']; [contradiction|].
    set (raws := r0 :: raws') in *. cbn [length Nat.eqb].
    fold (sorted raws).
    destruct (apply_ok extract_year
                (map Raw.life_span_begin (sorted raws))) as [yf ->].
    { intros d (r & <- & Hr)%in_map_iff. apply (proj1 (In_sorted _ _)) in Hr.
      apply (Hdates r Hr). }
    destruct (apply_ok extract_year
                (map Raw.life_span_end (sorted raws))) as [yd ->].
    { intros d (r & <- & Hr)%in_map_iff. apply (proj1 (In_sorted _ _)) in Hr.
      apply (Hdates r Hr). }
    cbn [Py.bind]. change (length raws =? 0)%nat with false.
    cbn iota. eauto. }
  rewrite E. apply process_inv in E as (_ & -> & ->). reflexivity.
Qed.

Lemma year_of_parses d :
  year_parses d -> extract_year d = Py.Ok (year_of d).
Proof. intros [y E]. unfold year_of. now rewrite E. Qed.

(** The flag of a row, from its record. *)
Lemma normalize_ended (r : Raw.t) :
  Row.Ended (normalize r) = true <->
  Row.Year_disbanded (normalize r) <> None /\
  Raw.life_span_ended r = Some true.
Proof.
  unfold normalize, fix_ended, features. cbn.
  destruct (year_of (Raw.life_span_end r)) as [y|]; cbn.
  - destruct (Raw.life_span_ended r) as [[|]|]; cbn;
      intuition (discriminate || congruence).
  - intuition (discriminate || congruence).
Qed.

Lemma normalize_year_disbanded (r : Raw.t) :
  Row.Year_disbanded (normalize r) = year_of (Raw.life_span_end r).
Proof.
  unfold normalize, fix_ended, features. cbn.
  now destruct (year_of (Raw.life_span_end r)).
Qed.

Lemma normalize_idx (r : Raw.t) : Row.idx (normalize r) = Raw.id r.
Proof.
  unfold normalize, fix_ended, features. cbn.
  now destruct (year_of (Raw.life_span_end r)).
Qed.

Lemma normalize_name (r : Raw.t) : Row.name (normalize r) = Raw.name r.
Proof.
  unfold normalize, fix_ended, features. cbn.
  now destruct (year_of (Raw.life_span_end r)).
Qed.

Lemma normalize_country (r : Raw.t) :
  Row.Country_name (normalize r) = Raw.area_name r.
Proof.
  unfold normalize, fix_ended, features. cbn.
  now destruct (year_of (Raw.life_span_end r)).
Qed.

(** Every row of the table is the row of a surviving input record. *)
Lemma row_source raws tbl cs row :
  process raws = Py.Ok (Some (tbl, cs)) ->
  In row tbl ->
  exists r, In r raws /\ survives r = true /\ row = normalize r /\
            dates_parse r.
Proof.
  intros E Hrow. pose proof (process_dates_parse _ _ E) as Hd.
  apply process_inv in E as (_ & _ & ->).
  apply in_map_iff in Hrow as (r & <- & Hr).
  apply filter_In in Hr as [Hr Hs]. apply (proj1 (In_sorted _ _)) in Hr.
  exists r. auto.
Qed.

(** *** The flag [Ended] *)

(** The reading of C1 as it is written: the flag is true exactly when
    the year of disbanding is there. *)
Definition ended_iff_year_disbanded (tbl : list Row.t) : Prop :=
  forall row, In row tbl ->
    (Row.Ended row = true <-> Row.Year_disbanded row <> None).

(** C1 (amended).  Every row of the normalised table comes from an input
    record, and its [Ended] flag is true exactly when its
    [Year_disbanded] is not null and the record's own [life-span.ended]
    flag is true.  So [Ended] implies a year of disbanding, and a record
    marked ended whose end date gives no year comes out with
    [Ended = false]; a record with an end year whose flag is false or
    missing comes out with [Ended = false] as well. *)
Theorem ended_needs_year_and_source_flag raws tbl cs :
  process raws = Py.Ok (Some (tbl, cs)) ->
  forall row, In row tbl ->
    exists r,
      In r raws /\ Row.idx row = Raw.id r /\
      extract_year (Raw.life_span_end r) = Py.Ok (Row.Year_disbanded row) /\
      (Row.Ended row = true <->
         Row.Year_disbanded row <> None /\
         Raw.life_span_ended r = Some true) /\
      (Row.Year_disbanded row = None -> Row.Ended row = false).
Proof.
  intros E row Hrow.
  destruct (row_source _ _ _ _ E Hrow) as (r & Hr & _ & -> & _ & Hend).
  exists r. split; [assumption|]. split; [apply normalize_idx|].
  split; [rewrite normalize_year_disbanded; now apply year_of_parses|].
  split; [apply normalize_ended|].
  intros Hnone. destruct (Row.Ended (normalize r)) eqn:Eended;
    [|reflexivity].
  apply normalize_ended in Eended as [Hyear _]. contradiction.
Qed.

(** *** Order of the table *)

(** [x] comes before [y] in [l]. *)
Definition precedes {A} (x y : A) (l : list A) : Prop :=
  exists l1 l2 l3, l = l1 ++ x :: l2 ++ y :: l3.

(** The tie-break C5 claims: two records of equal score that both reach
    the table are there in the order they had in the input. *)
Definition ties_keep_input_order (raws : list Raw.t) (tbl : list Row.t)
  : Prop :=
  forall a b,
    precedes a b raws -> Raw.score a = Raw.score b ->
    In (Raw.id a) (map Row.idx tbl) -> In (Raw.id b) (map Row.idx tbl) ->
    precedes (Raw.id a) (Raw.id b) (map Row.idx tbl).

(** C5 (amended).  For a non-empty input the table holds, in order, the
    rows of records [kept] taken from the input (the others are
    [dropped]), and the scores of [kept] never increase along the
    table.  Nothing is said about the order of records of equal score:
    that is up to the sorting routine. *)
Theorem table_sorted_by_score_descending raws tbl cs :
  process raws = Py.Ok (Some (tbl, cs)) ->
  exists kept dropped,
    Permutation (kept ++ dropped) raws /\
    tbl = map normalize kept /\
    map Row.idx tbl = map Raw.id kept /\
    StronglySorted (fun a b => Raw.score b <= Raw.score a) kept.
Proof.
  intros E. apply process_inv in E as (_ & _ & ->).
  exists (filter survives (sorted raws)),
         (filter (fun r => negb (survives r)) (sorted raws)).
  split; [|split; [reflexivity|split]].
  - rewrite filter_partition.
    apply sort_values_descending_perm.
  - rewrite map_map. apply map_ext. intros r. apply normalize_idx.
  - apply StronglySorted_filter.
    pose proof (sort_values_descending_sorted Z.leb Raw.score raws) as H.
    eapply StronglySorted_impl; [|apply H].
    + intros a b Hab. now apply Z.leb_le.
    + intros a b. destruct (Z.leb_spec a b); [now left|right].
      apply Z.leb_le. lia.
    + intros a b c Hab Hbc. apply Z.leb_le. apply Z.leb_le in Hab, Hbc.
      lia.
Qed.

(** *** Empty input *)

(** C6.  An empty input returns [None], the "no data" signal.  A
    non-empty input never does: when the call returns it returns a
    table; and when the filters remove every row (and every date gets
    through [extract_year]) the table returned is the empty table, which
    differs from the signal. *)
Theorem empty_input_is_no_data :
  process [] = Py.Ok None /\
  (forall raws out,
     raws <> [] -> process raws = Py.Ok out ->
     exists tbl, out = Some (tbl, get_country_data)) /\
  (forall raws,
     raws <> [] ->
     (forall r, In r raws -> dates_parse r) ->
     (forall r, In r raws -> survives r = false) ->
     process raws = Py.Ok (Some ([], get_country_data)) /\
     process raws <> process []).
Proof.
  split; [reflexivity|]. split.
  - intros raws out Hne E. destruct out as [[tbl cs]|].
    + apply process_inv in E as (_ & -> & _). eauto.
    + unfold process, process_artist_data in E.
      destruct raws; [contradiction|]. cbn [length Nat.eqb] in E.
      destruct (apply extract_year _); cbn [Py.bind] in E; [|discriminate].
      destruct (apply extract_year _); cbn [Py.bind] in E; discriminate.
  - intros raws Hne Hdates Hdrop.
    rewrite (process_total raws Hne Hdates).
    replace (filter survives (sorted raws)) with (@nil Raw.t).
    + split; [reflexivity | discriminate].
    + symmetry. destruct (filter survives (sorted raws)) as [|r l] eqn:Ef;
        [reflexivity|].
      assert (Hr : In r (filter survives (sorted raws)))
        by (rewrite Ef; now left).
      apply filter_In in Hr as [Hr Hs].
      apply (proj1 (In_sorted _ _)) in Hr.
      rewrite (Hdrop r Hr) in Hs. discriminate.
Qed.

(** *** The two filters *)

(** C9.  Every row of the table has an ASCII-only name and a non-null
    country whose lower-cased form is the lower-cased name of a country
    of the reference; and the table holds the rows of exactly the input
    records of that kind, each as often as the input has it: every other
    record is dropped. *)
Theorem table_rows_ascii_with_known_country raws tbl cs :
  process raws = Py.Ok (Some (tbl, cs)) ->
  (forall row, In row tbl ->
     Py.isascii (Row.name row) = true /\
     exists c country,
       Row.Country_name row = Some c /\ In country cs /\
       lower c = lower (Country.Country_name country)) /\
  Permutation tbl (map normalize (filter survives raws)) /\
  (forall r, In r raws ->
     (In (normalize r) tbl <->
      Py.isascii (Raw.name r) = true /\
      exists c country,
        Raw.area_name r = Some c /\ In country cs /\
        lower c = lower (Country.Country_name country))).
Proof.
  intros E.
  assert (Hcs : cs = get_country_data)
    by (now apply process_inv in E as (_ & -> & _)).
  split; [|split].
  - intros row Hrow.
    destruct (row_source _ _ _ _ E Hrow) as (r & _ & Hs & -> & _).
    apply survives_spec in Hs as (Hascii & c & country & Hc & Hin & El).
    rewrite normalize_name, normalize_country, Hcs. eauto 7.
  - apply process_inv in E as (_ & _ & ->).
    apply Permutation_map, Permutation_filter.
    apply sort_values_descending_perm.
  - intros r Hr. rewrite Hcs, <- survives_spec.
    apply process_inv in E as (_ & _ & ->). split.
    + intros (r' & En & Hr')%in_map_iff.
      apply filter_In in Hr' as [_ Hs'].
      unfold survives in *.
      rewrite <- (normalize_name r), <- (normalize_country r), <- En.
      now rewrite normalize_name, normalize_country.
    + intros Hs. apply in_map, filter_In. split; [|assumption].
      now apply In_sorted.
Qed.
End Normalizer.

(** *** Concrete records *)

(** [str.lower] on ASCII text; on such text it is what Python's full
    Unicode lower-casing does. *)
Definition ascii_lower (s : Py.str) : Py.str :=
  map (fun c => if ((65 <=? c) && (c <=? 90))%N then (c + 32)%N else c) s.

Definition py : string -> Py.str := Py.of_string.

Definition country (name capital region : string) (area population : Z)
  : Country.t :=
  Country.mk (py name) (Py.PyInt area) (Py.PyStr (py capital))
             (Py.PyInt population) (Py.PyStr (py region)).

Definition reference : list Country.t :=
  [ country "Germany" "Berlin" "Europe" 357114 83000000;
    country "Sweden" "Stockholm" "Europe" 450295 10000000;
    country "Iceland" "Reykjavik" "Europe" 103000 370000 ].

(** An end date, and a flag that says the artist has not ended. *)
Definition abba : Raw.t :=
  Raw.mk (py "a1") (py "ABBA") 100 (Some (py "Sweden"))
         (Some (py "1972")) (Some (py "1982-12-11")) (Some false).

(** Marked ended, without an end date; the country in capitals. *)
Definition kraftwerk : Raw.t :=
  Raw.mk (py "k1") (py "Kraftwerk") 100 (Some (py "GERMANY"))
         (Some (py "1970")) None (Some true).

(** ["Björk"]: the third character is U+00F6. *)
Definition bjork : Raw.t :=
  Raw.mk (py "b1") (py "Bj" ++ [246%N] ++ py "rk") 90 (Some (py "Iceland"))
         (Some (py "1965-11-21")) None None.

Definition poseidon : Raw.t :=
  Raw.mk (py "p1") (py "Poseidon") 80 (Some (py "Atlantis"))
         (Some (py "1999")) None None.

Definition process_with (kind : SortKind) (raws : list Raw.t) :=
  @process_artist_data kind ascii_lower reference raws.

Definition sample : list Raw.t := [abba; kraftwerk; bjork; poseidon].

(** ["Björk"] goes for her name, ["Poseidon"] for the country
    ["Atlantis"]; ["GERMANY"] matches ["Germany"]. *)
Example process_sample :
  process_with SortKinds.stable_kind sample =
  Py.Ok (Some ([normalize abba; normalize kraftwerk], reference)).
Proof. vm_compute. reflexivity. Qed.

Example bjork_dropped : survives ascii_lower reference bjork = false.
Proof. vm_compute. reflexivity. Qed.

Example atlantis_dropped : survives ascii_lower reference poseidon = false.
Proof. vm_compute. reflexivity. Qed.

Example germany_in_capitals_kept :
  survives ascii_lower reference kraftwerk = true.
Proof. vm_compute. reflexivity. Qed.

(** A record marked ended without an end year: [Ended] is false. *)
Example ended_without_year :
  Raw.life_span_ended kraftwerk = Some true /\
  Row.Year_disbanded (normalize kraftwerk) = None /\
  Row.Ended (normalize kraftwerk) = false.
Proof. repeat split. Qed.

(** C1, as written, fails: the record [abba] has the end date
    ["1982-12-11"] and the flag [false]; its row has
    [Year_disbanded = 1982] and [Ended = false]. *)
Lemma ended_iff_year_disbanded_fails :
  process_with SortKinds.stable_kind [abba] =
    Py.Ok (Some ([normalize abba], reference)) /\
  Row.Year_disbanded (normalize abba) = Some 1982 /\
  Row.Ended (normalize abba) = false /\
  ~ ended_iff_year_disbanded [normalize abba].
Proof.
  split; [vm_compute; reflexivity|].
  split; [reflexivity|]. split; [reflexivity|].
  intros H. specialize (H (normalize abba) (or_introl eq_refl)).
  destruct H as [_ H]. discriminate H. discriminate.
Qed.

Lemma ended_needs_year_and_source_flag_witness :
  process_with SortKinds.stable_kind sample =
    Py.Ok (Some ([normalize abba; normalize kraftwerk], reference)) /\
  forall row, In row [normalize abba; normalize kraftwerk] ->
    exists r,
      In r sample /\ Row.idx row = Raw.id r /\
      ArtistDataCollector.extract_year (Raw.life_span_end r) =
        Py.Ok (Row.Year_disbanded row) /\
      (Row.Ended row = true <->
         Row.Year_disbanded row <> None /\
         Raw.life_span_ended r = Some true) /\
      (Row.Year_disbanded row = None -> Row.Ended row = false).
Proof.
  split; [vm_compute; reflexivity|].
  apply (@ended_needs_year_and_source_flag SortKinds.stable_kind
           ascii_lower reference sample _ reference).
  vm_compute; reflexivity.
Defined.

(** Two records of score 100 come out in input order: on a table of this
    size numpy's quicksort is an insertion sort. *)
Example ties_of_two_records :
  process_with Numpy.quicksort_kind [abba; kraftwerk] =
  Py.Ok (Some ([normalize abba; normalize kraftwerk], reference)).
Proof. vm_compute. reflexivity. Qed.

(** [x] comes before [y] in [l], decided. *)
Fixpoint precedesb (x y : Py.str) (l : list Py.str) : bool :=
  match l with
  | [] => false
  | h :: rest =>
      (Py.str_eqb h x && existsb (Py.str_eqb y) rest) || precedesb x y rest
  end.

Lemma precedes_precedesb (x y : Py.str) (l : list Py.str) :
  precedes x y l -> precedesb x y l = true.
Proof.
  intros (l1 & l2 & l3 & ->).
  induction l1 as [|h l1 IH]; cbn [app precedesb].
  - rewrite str_eqb_refl. cbn [andb orb].
    replace (existsb (Py.str_eqb y) (l2 ++ y :: l3)) with true; [reflexivity|].
    symmetry. apply existsb_exists. exists y.
    split; [apply in_or_app; right; now left|apply str_eqb_refl].
  - rewrite IH. apply orb_true_r.
Qed.

(** The two decimal digits of [i], and the artist [i] of a catalog answer:
    a band of Sweden, formed in 1990 and disbanded in 2000. *)
Definition two_digits (i : nat) : Py.str :=
  [N.of_nat (48 + i / 10); N.of_nat (48 + i mod 10)].

Definition band (i : nat) (score : Z) : Raw.t :=
  Raw.mk (py "m" ++ two_digits i) (py "Band " ++ two_digits i) score
         (Some (py "Sweden")) (Some (py "1990")) (Some (py "2000"))
         (Some true).

(** Eighteen artists, [m00] to [m17]; the scores 80, 90 and 100 come
    six times each. *)
Definition eighteen : list Raw.t :=
  map (fun p => band (fst p) (snd p))
      (combine (seq 0 18)
               [90; 100; 80; 100; 90; 90; 80; 100; 80;
                80; 90; 100; 100; 80; 90; 80; 100; 90]).

(** The order in which the sort leaves the eighteen. *)
Definition eighteen_sorted : list nat :=
  [1; 16; 3; 12; 11; 7; 0; 14; 10; 17; 5; 4; 8; 6; 13; 15; 2; 9]%nat.

(** C5, as written, fails: on [eighteen] the default sort brings the six
    records of score 100 out in the order [m01], [m16], [m03], [m12],
    [m11], [m07].  [m03] is ahead of [m16] in the input and behind it in
    the table. *)
Lemma ties_keep_input_order_fails :
  let tbl := map normalize (take eighteen eighteen_sorted) in
  process_with Numpy.quicksort_kind eighteen =
    Py.Ok (Some (tbl, reference)) /\
  (let keys := rev (map Raw.score eighteen) in
   Numpy.sorts Z.leb keys
               (Numpy.aquicksort (fun x y => negb (y <=? x)) keys) = true) /\
  Raw.score (band 3 100) = Raw.score (band 16 100) /\
  precedes (band 3 100) (band 16 100) eighteen /\
  precedes (Raw.id (band 16 100)) (Raw.id (band 3 100)) (map Row.idx tbl) /\
  ~ ties_keep_input_order eighteen tbl.
Proof.
  intros tbl.
  assert (Hin : precedes (band 3 100) (band 16 100) eighteen).
  { exists (firstn 3 eighteen), (firstn 12 (skipn 4 eighteen)),
           (skipn 17 eighteen). reflexivity. }
  split; [vm_compute; reflexivity|]. split; [vm_compute; reflexivity|].
  split; [reflexivity|]. split; [exact Hin|]. split.
  - exists (firstn 1 (map Row.idx tbl)), [],
           (skipn 3 (map Row.idx tbl)). reflexivity.
  - intros H.
    assert (Hout : precedes (Raw.id (band 3 100)) (Raw.id (band 16 100))
                            (map Row.idx tbl)).
    { apply H; [exact Hin|reflexivity| |].
      - apply in_map_iff. exists (normalize (band 3 100)).
        split; [reflexivity|]. do 2 right. left. reflexivity.
      - apply in_map_iff. exists (normalize (band 16 100)).
        split; [reflexivity|]. right. left. reflexivity. }
    apply precedes_precedesb in Hout. vm_compute in Hout. discriminate Hout.
Qed.

Lemma table_sorted_by_score_descending_witness :
  process_with SortKinds.stable_kind sample =
    Py.Ok (Some ([normalize abba; normalize kraftwerk], reference)) /\
  exists kept dropped,
    Permutation (kept ++ dropped) sample /\
    [normalize abba; normalize kraftwerk] = map normalize kept /\
    map Row.idx [normalize abba; normalize kraftwerk] = map Raw.id kept /\
    StronglySorted (fun a b => Raw.score b <= Raw.score a) kept.
Proof.
  split; [vm_compute; reflexivity|].
  apply (@table_sorted_by_score_descending SortKinds.stable_kind
           ascii_lower reference sample _ reference).
  vm_compute; reflexivity.
Defined.

Lemma empty_input_is_no_data_witness :
  process_with SortKinds.stable_kind [] = Py.Ok None /\
  process_with SortKinds.stable_kind [bjork; poseidon] =
    Py.Ok (Some ([], reference)) /\
  process_with SortKinds.stable_kind [bjork; poseidon] <>
    process_with SortKinds.stable_kind [].
Proof.
  pose proof (@empty_input_is_no_data SortKinds.stable_kind ascii_lower
                reference) as (Hempty & _ & Hfiltered).
  split; [exact Hempty|].
  apply (Hfiltered [bjork; poseidon]).
  - discriminate.
  - intros r [<-|[<-|[]]]; split; eexists; reflexivity.
  - intros r [<-|[<-|[]]]; vm_compute; reflexivity.
Defined.

Lemma table_rows_ascii_with_known_country_witness :
  process_with SortKinds.stable_kind sample =
    Py.Ok (Some ([normalize abba; normalize kraftwerk], reference)) /\
  (forall row, In row [normalize abba; normalize kraftwerk] ->
     Py.isascii (Row.name row) = true /\
     exists c country,
       Row.Country_name row = Some c /\ In country reference /\
       ascii_lower c = ascii_lower (Country.Country_name country)) /\
  Permutation [normalize abba; normalize kraftwerk]
              (map normalize (filter (survives ascii_lower reference) sample)) /\
  (forall r, In r sample ->
     (In (normalize r) [normalize abba; normalize kraftwerk] <->
      Py.isascii (Raw.name r) = true /\
      exists c country,
        Raw.area_name r = Some c /\ In country reference /\
        ascii_lower c = ascii_lower (Country.Country_name country))).
Proof.
  split; [vm_compute; reflexivity|].
  apply (@table_rows_ascii_with_known_country SortKinds.stable_kind
           ascii_lower reference sample _ reference).
  vm_compute; reflexivity.
Defined.
End Normalizer.

(** ** The cached token *)

Module TokenCache.
Import SpotifyAPI.

(** The states a [SpotifyAPI] object goes through: the one [__init__]
    leaves, and the one after any call of [search_artist], whatever the
    outside answered and whether or not the call raised. *)
Inductive reachable : SpotifyAPI.t -> Prop :=
| reachable_init client_id client_secret :
    reachable (init client_id client_secret)
| reachable_search self artist_name w r self' evs :
    reachable self ->
    search_artist self artist_name w = (r, self', evs) ->
    reachable self'.

(** A cached token whose expiry lies after [now]. *)
Definition cached_valid (self : SpotifyAPI.t) (now : Z) : Prop :=
  truthy (token self) = true /\
  exists expiry, token_expiry self = Some expiry /\ now < expiry.

(** No token is cached: [self.token] is [None] or the empty string. *)
Definition no_token (self : SpotifyAPI.t) : Prop :=
  truthy (token self) = false.

(** A cached token whose recorded expiry has passed at [now]. *)
Definition cached_expired (self : SpotifyAPI.t) (now : Z) : Prop :=
  truthy (token self) = true /\
  exists expiry, token_expiry self = Some expiry /\ expiry <= now.

(** A cached token with no expiry next to it. *)
Definition without_expiry (self : SpotifyAPI.t) : Prop :=
  truthy (token self) = true /\ token_expiry self = None.

(** The lifetime the token endpoint declares ([expires_in], when the
    answer has it; the default is 3600), if [timedelta] takes it, is above
    zero. *)
Definition lifetime_positive (w : World) : Prop :=
  forall j delta,
    json (token_response w) = Some j ->
    Py.timedelta_seconds (lifetime j) = Py.Ok delta -> 0 < delta.

Definition token_requests (evs : list event) : nat :=
  length (filter (fun e => match e with TokenRequest => true | _ => false end)
                 evs).

(** Every search request of a trace, with what came before it: the bearer
    token it carries, the last reading of the clock, and the number of
    token requests. *)
Fixpoint searches (clock : option Z) (requests : nat) (evs : list event)
  : list (option Py.str * option Z * nat) :=
  match evs with
  | [] => []
  | Now c :: rest => searches (Some c) requests rest
  | TokenRequest :: rest => searches clock (S requests) rest
  | Search bearer _ :: rest =>
      (bearer, clock, requests) :: searches clock requests rest
  end.

(** The four states [get_token] tells apart. *)
Lemma state_cases (self : SpotifyAPI.t) (now : Z) :
  cached_valid self now \/ no_token self \/ cached_expired self now \/
  without_expiry self.
Proof.
  unfold cached_valid, no_token, cached_expired, without_expiry.
  destruct (truthy (token self)); [|auto].
  destruct (token_expiry self) as [expiry|]; [|auto].
  destruct (Z_lt_le_dec now expiry); eauto 8.
Qed.

(** An expiry that line 42 records is the reading of the clock plus the
    lifetime. *)
Lemma expiry_inv (now : Z) (j : TokenJson) (recorded : Z) :
  new_expiry now j = Py.Ok recorded ->
  exists delta,
    Py.timedelta_seconds (lifetime j) = Py.Ok delta /\
    recorded = now + delta.
Proof.
  unfold new_expiry.
  destruct (Py.timedelta_seconds (lifetime j)) as [delta|e]; cbn [Py.bind];
    [|discriminate].
  unfold Py.datetime_add.
  destruct ((0 <=? now + delta) && (now + delta <? Py.datetime_end));
    [|discriminate].
  intros [= <-]. eauto.
Qed.

(** The premises of the other states, in a state that is known. *)
Ltac not_this_state :=
  first [ intros (_ & ? & [= <-] & ?); lia
        | intros (? & _); discriminate
        | intros (_ & ? & [=] & _)
        | intros [? ?]; discriminate
        | intros [?|(_ & ? & [= <-] & ?)]; [discriminate|lia]
        | intros [?|(_ & ? & [=] & _)]; discriminate ].

(** A lookup that asked for a token and sent no search. *)
Ltac no_search_sent E :=
  injection E as <- <- <-; cbn;
  split; [not_this_state|];
  split; [intros _; split; [reflexivity|intros ? []]|];
  split; [not_this_state|];
  intros ? ? ? [].

(** A lookup that asked for a token, recorded its expiry and sent the
    search. *)
Ltac search_after_refresh E Ej Hrec :=
  injection E as <- <- <-; cbn;
  split; [not_this_state|];
  split; [intros _; split; [reflexivity|]; intros ? [<-|[]]; reflexivity|];
  split; [not_this_state|];
  intros ? ? ? [[= <- <- <-]|[]];
  split; [reflexivity|];
  destruct (expiry_inv _ _ _ Hrec) as (delta & Edelta & ->);
  do 2 eexists;
  split; [reflexivity|split; [reflexivity|split; [|split]]];
  [ intros Hn; discriminate Hn
  | intros _; do 2 eexists;
    split; [reflexivity|split; [exact Edelta|split; [reflexivity|lia]]]
  | intros Hlife; pose proof (Hlife _ _ Ej Edelta); lia ].

(** A lookup that asks for a token, answer by answer. *)
Ltac refresh_cases :=
  let E := fresh "E" in
  let Ej := fresh "Ej" in
  let Hrec := fresh "Hrec" in
  destruct (status_code (token_response _) =? 200);
    [destruct (json (token_response _)) as [?j|] eqn:Ej;
     [destruct (new_expiry (now_fetched _) _) as [?recorded|?e] eqn:Hrec;
      [destruct (status_code (search_response _) =? 200);
       [destruct (json (search_response _))|];
       intros E; search_after_refresh E Ej Hrec
      |intros E; no_search_sent E]
     |intros E; no_search_sent E]
    |intros E; no_search_sent E].

(** C3 (amended).  Take a [SpotifyAPI] object in any state and a lookup
    [search_artist].
    - If a token is cached and its expiry lies after the reading of the
      clock, the lookup makes no token request, leaves the object as it
      is, and sends the search with the cached token.
    - If no token is cached, or the expiry of the cached token has
      passed, the lookup makes exactly one token request, and a search is
      sent only after it.
    - If a token is cached with no expiry next to it (the state line 41
      leaves when line 42 raises), the lookup raises a [TypeError] at
      line 23: no request, no search.
    - Any search is sent with the token the object then holds.  When the
      token came from the cache (no token request came before the
      search) its recorded expiry lies after the last reading of the
      clock.  When it was just fetched, its recorded expiry is that
      reading plus the lifetime the token endpoint declared, whatever
      that is: it lies after the reading when the lifetime is above zero,
      and not otherwise. *)
Theorem token_reused_until_expiry self artist_name w r self' evs :
  search_artist self artist_name w = (r, self', evs) ->
  (cached_valid self (now_check w) ->
     token_requests evs = 0%nat /\ self' = self /\
     evs = [Now (now_check w); Search (token self) artist_name]) /\
  (no_token self \/ cached_expired self (now_check w) ->
     token_requests evs = 1%nat /\
     forall s, In s (searches None 0 evs) -> snd s = 1%nat) /\
  (without_expiry self ->
     r = Py.Raise Py.TypeError /\ self' = self /\
     evs = [Now (now_check w)]) /\
  (forall bearer clock n,
     In (bearer, clock, n) (searches None 0 evs) ->
     bearer = token self' /\
     exists c recorded,
       clock = Some c /\ token_expiry self' = Some recorded /\
       (n = 0%nat -> c < recorded) /\
       (n <> 0%nat ->
        exists j delta,
          json (token_response w) = Some j /\
          Py.timedelta_seconds (lifetime j) = Py.Ok delta /\
          recorded = c + delta /\
          (c < recorded <-> 0 < delta)) /\
       (lifetime_positive w -> c < recorded)).
Proof.
  unfold search_artist, get_token, request_token.
  unfold cached_valid, no_token, cached_expired, without_expiry.
  destruct (truthy (token self)) eqn:Etok.
  - destruct (token_expiry self) as [exp|] eqn:Eexp.
    + destruct (exp >? now_check w) eqn:Egt.
      * (* the cached token is still good *)
        assert (Hlt : now_check w < exp) by lia.
        destruct (status_code (search_response w) =? 200);
          [destruct (json (search_response w))|];
          intros [= <- <- <-]; cbn;
          (split; [intros _; repeat split|]);
          (split; [not_this_state|]);
          (split; [not_this_state|]);
          intros bearer clock n [[= <- <- <-]|[]];
          (split; [reflexivity|]); exists (now_check w), exp;
          (split; [reflexivity|]); (split; [exact Eexp|]);
          (split; [intros _; exact Hlt|]);
          (split; [intros Hn; now contradiction Hn|intros _; exact Hlt]).
      * (* the cached token has expired *)
        assert (Hle : exp <= now_check w) by lia.
        refresh_cases.
    + (* a token without expiry *)
      intros [= <- <- <-]. cbn.
      split; [not_this_state|]. split; [not_this_state|].
      split; [intros _; repeat split|]. intros bearer clock n [].
  - (* no token is cached *)
    refresh_cases.
Qed.

(** *** A run of three lookups *)

Definition seconds (n : Z) : Z := n * 1000000.

Definition hit : Artist :=
  mkArtist 5000 (Py.of_string "https://open.spotify.com/artist/x") 70
           [Py.of_string "https://i.scdn.co/image/x"].

(** The outside at [t] seconds: the token endpoint hands out ["tok"] and
    declares the lifetime [v], the search finds [hit]. *)
Definition declares (v : Py.json) (t : Z) : World :=
  mkWorld (seconds t)
          (mkResponse 200 false
             (Some (mkTokenJson (Some (Py.of_string "tok")) (Some v))))
          (seconds t)
          (mkResponse 200 false (Some (mkSearchJson [hit]))).

(** The token is good for 3600 seconds. *)
Definition world_at (t : Z) : World := declares (Py.JInt 3600) t.

Definition fresh : SpotifyAPI.t :=
  init (Py.of_string "id") (Py.of_string "secret").

Definition state_after (self : SpotifyAPI.t) (t : Z) : SpotifyAPI.t :=
  snd (fst (search_artist self (Py.of_string "ABBA") (world_at t))).

Definition trace_of (self : SpotifyAPI.t) (t : Z) : list event :=
  snd (search_artist self (Py.of_string "ABBA") (world_at t)).

(** First lookup: one token request.  Second lookup, 1000 seconds later:
    none.  Third lookup, after the 3600 seconds: one again. *)
Example three_lookups :
  let s1 := state_after fresh 1000 in
  let s2 := state_after s1 2000 in
  token_requests (trace_of fresh 1000) = 1%nat /\
  token_requests (trace_of s1 2000) = 0%nat /\
  s2 = s1 /\
  token_requests (trace_of s2 4601) = 1%nat.
Proof. vm_compute. repeat split. Qed.

Example world_lifetime_positive : lifetime_positive (world_at 2000).
Proof.
  intros j delta Hj Hd. vm_compute in Hj. injection Hj as <-.
  vm_compute in Hd. injection Hd as <-. reflexivity.
Qed.

Lemma token_reused_until_expiry_witness :
  let self := state_after fresh 1000 in
  let w := world_at 2000 in
  let call := search_artist self (Py.of_string "ABBA") w in
  (cached_valid self (now_check w) ->
     token_requests (snd call) = 0%nat /\ snd (fst call) = self /\
     snd call = [Now (now_check w);
                 Search (token self) (Py.of_string "ABBA")]) /\
  (no_token self \/ cached_expired self (now_check w) ->
     token_requests (snd call) = 1%nat /\
     forall s, In s (searches None 0 (snd call)) -> snd s = 1%nat) /\
  (without_expiry self ->
     fst (fst call) = Py.Raise Py.TypeError /\ snd (fst call) = self /\
     snd call = [Now (now_check w)]) /\
  (forall bearer clock n,
     In (bearer, clock, n) (searches None 0 (snd call)) ->
     bearer = token (snd (fst call)) /\
     exists c recorded,
       clock = Some c /\ token_expiry (snd (fst call)) = Some recorded /\
       (n = 0%nat -> c < recorded) /\
       (n <> 0%nat ->
        exists j delta,
          json (token_response w) = Some j /\
          Py.timedelta_seconds (lifetime j) = Py.Ok delta /\
          recorded = c + delta /\
          (c < recorded <-> 0 < delta)) /\
       (lifetime_positive w -> c < recorded)).
Proof.
  intros self w call.
  apply (token_reused_until_expiry self (Py.of_string "ABBA") w
           (fst (fst call)) (snd (fst call)) (snd call)).
  vm_compute. reflexivity.
Defined.

(** *** A token without expiry, and a token sent after its expiry *)

(** A new object to which line 41 has given the token ["tok"]. *)
Definition holding_token : SpotifyAPI.t :=
  with_token (Some (Py.of_string "tok")) fresh.

(** A lifetime of [10 ^ 15] seconds is more than a [timedelta] holds,
    and a null lifetime is no number: line 42 raises after line 41 has
    stored the token.  The object is left with a token and no expiry,
    and its next lookup raises at line 23. *)
Example token_left_without_expiry :
  search_artist fresh (Py.of_string "ABBA")
                (declares (Py.JInt (10 ^ 15)) 1000) =
    (Py.Raise Py.OverflowError, holding_token,
     [TokenRequest; Now (seconds 1000)]) /\
  search_artist fresh (Py.of_string "ABBA") (declares Py.JNull 1000) =
    (Py.Raise Py.TypeError, holding_token,
     [TokenRequest; Now (seconds 1000)]) /\
  reachable holding_token /\
  without_expiry holding_token /\
  search_artist holding_token (Py.of_string "ABBA") (world_at 2000) =
    (Py.Raise Py.TypeError, holding_token, [Now (seconds 2000)]).
Proof.
  split; [vm_compute; reflexivity|]. split; [vm_compute; reflexivity|].
  split; [|split; [split; reflexivity|vm_compute; reflexivity]].
  eapply (reachable_search fresh (Py.of_string "ABBA")
                           (declares Py.JNull 1000)).
  - apply reachable_init.
  - vm_compute. reflexivity.
Qed.

(** The third part of C3 as it is written: no search carries a token
    whose recorded expiry has passed. *)
Definition never_sent_after_expiry : Prop :=
  forall self artist_name w r self' evs,
    reachable self ->
    search_artist self artist_name w = (r, self', evs) ->
    forall bearer clock n,
      In (bearer, clock, n) (searches None 0 evs) ->
      exists c recorded,
        clock = Some c /\ token_expiry self' = Some recorded /\
        c < recorded.

(** C3, as written, fails: the token endpoint declares a lifetime of -5
    seconds.  The first lookup of a new object, at 1000 seconds, fetches
    the token, records the expiry 995 seconds and sends the search with
    that token. *)
Lemma token_sent_after_its_expiry :
  search_artist fresh (Py.of_string "ABBA") (declares (Py.JInt (-5)) 1000) =
    (Py.Ok (Some hit),
     with_token_expiry (Some (seconds 995)) holding_token,
     [TokenRequest; Now (seconds 1000);
      Search (Some (Py.of_string "tok")) (Py.of_string "ABBA")]) /\
  ~ never_sent_after_expiry.
Proof.
  assert (E : search_artist fresh (Py.of_string "ABBA")
                            (declares (Py.JInt (-5)) 1000) =
              (Py.Ok (Some hit),
               with_token_expiry (Some (seconds 995)) holding_token,
               [TokenRequest; Now (seconds 1000);
                Search (Some (Py.of_string "tok")) (Py.of_string "ABBA")]))
    by (vm_compute; reflexivity).
  split; [exact E|]. intros H.
  destruct (H _ _ _ _ _ _ (reachable_init _ _) E
              (Some (Py.of_string "tok")) (Some (seconds 1000)) 1%nat)
    as (c & recorded & [= <-] & [= <-] & Hlt).
  - left. reflexivity.
  - vm_compute in Hlt. discriminate Hlt.
Qed.

End TokenCache.

(** ** Enrichment *)

Module Enrichment.
Import SpotifyAPI ArtistDataCollector ExtractYear.

(** The search of a lookup errors (a status other than 200) or finds no
    match (an empty [items]). *)
Definition no_match (w : World) : Prop :=
  status_code (search_response w) <> 200 \/
  exists j, json (search_response w) = Some j /\ artists_items j = [].

Lemma search_artist_found self name w found self' evs :
  search_artist self name w = (Py.Ok (Some found), self', evs) ->
  ~ no_match w.
Proof.
  unfold search_artist.
  destruct (get_token self w) as [[[tok|e] self0] evs0]; [|discriminate].
  destruct (status_code (search_response w) =? 200) eqn:Est;
    [|discriminate].
  apply Z.eqb_eq in Est.
  destruct (json (search_response w)) as [j|] eqn:Ej; [|discriminate].
  intros [= Hhd _ _] [Hst|(j' & Ej' & Hitems)]; [contradiction|].
  rewrite Ej in Ej'. injection Ej' as <-.
  now rewrite Hitems in Hhd.
Qed.

(** [out] is [df] with nothing changed but enrichment cells, and those
    only in rows whose label is [touched]. *)
Definition frame (touched : Py.str -> Prop) (df out : list Enriched.t)
  : Prop :=
  Forall2 (fun e e' =>
             Enriched.artist e' = Enriched.artist e /\
             (~ touched (Row.idx (Enriched.artist e)) -> e' = e))
          df out.

Lemma frame_refl touched df : frame touched df df.
Proof. induction df; constructor; auto. Qed.

Lemma frame_trans (t1 t2 t3 : Py.str -> Prop) df1 df2 df3 :
  (forall l, t1 l -> t3 l) -> (forall l, t2 l -> t3 l) ->
  frame t1 df1 df2 -> frame t2 df2 df3 -> frame t3 df1 df3.
Proof.
  intros H1 H2 F12. revert df3.
  induction F12 as [|e1 e2 df1 df2 [Ha He] _ IH]; intros df3 F23;
    inversion F23 as [|? e3 ? df3' [Ha' He'] F23']; subst; constructor.
  - split; [congruence|]. intros Hn.
    assert (E2 : e2 = e1) by (apply He; auto).
    rewrite <- E2. apply He'. rewrite Ha. auto.
  - apply IH. exact F23'.
Qed.

Lemma at_set_frame idx set df :
  (forall r, Enriched.artist (set r) = Enriched.artist r) ->
  frame (eq idx) df (at_set idx set df).
Proof.
  intros Hset. induction df as [|e df IH]; constructor; [|exact IH].
  destruct (Py.str_eqb (Row.idx (Enriched.artist e)) idx) eqn:E.
  - split; [apply Hset|]. apply str_eqb_eq in E. intros Hn.
    now contradiction Hn.
  - split; [reflexivity|]. reflexivity.
Qed.

Lemma store_match_frame idx found df :
  frame (eq idx) df (store_match idx found df).
Proof.
  unfold store_match.
  assert (H3 : frame (eq idx) df
                 (at_set idx (set_popularity (Some (popularity found)))
                    (at_set idx (set_url (Some (external_urls_spotify found)))
                       (at_set idx (set_followers (Some (followers_total found)))
                          df)))).
  { eapply frame_trans; [| |eapply frame_trans; [| | |]|]; eauto;
      now apply at_set_frame. }
  destruct (images found) as [|url _]; [exact H3|].
  eapply frame_trans; [| |exact H3|]; eauto. now apply at_set_frame.
Qed.

(** The labels of the rows whose lookup found a match. *)
Definition matched (world : nat -> World) (k : nat) (rows : list Row.t)
           (label : Py.str) : Prop :=
  exists j row,
    nth_error rows j = Some row /\ Row.idx row = label /\
    ~ no_match (world (k + j)%nat).

Lemma enrich_rows_frame world rows : forall k spotify df out spotify' evs,
  enrich_rows world k rows spotify df = (Py.Ok out, spotify', evs) ->
  frame (matched world k rows) df out.
Proof.
  induction rows as [|row rows IH]; intros k spotify df out spotify' evs;
    cbn [enrich_rows].
  - intros [= <- _ _]. apply frame_refl.
  - destruct (search_artist spotify (Row.name row) (world k))
      as [[[result|e] spotify1] evs1] eqn:Es; [|discriminate].
    match goal with
    | |- context [enrich_rows world (S k) rows spotify1 ?d] =>
        destruct (enrich_rows world (S k) rows spotify1 d)
          as [[out1 spotify2] evs2] eqn:Er
    end.
    intros [= -> _ _]. apply IH in Er.
    assert (Hrest : forall l, matched world (S k) rows l ->
                              matched world k (row :: rows) l).
    { intros l (j & r & Hj & Hl & Hm). exists (S j), r.
      now rewrite Nat.add_succ_r. }
    destruct result as [found|].
    + eapply frame_trans; [| |apply store_match_frame|exact Er].
      * intros l <-. exists 0%nat, row. rewrite Nat.add_0_r.
        repeat split. eapply search_artist_found; eauto.
      * exact Hrest.
    + eapply frame_trans; [| |apply frame_refl|exact Er]; eauto.
Qed.

Lemma Forall2_nth_error {A B} (R : A -> B -> Prop) l l' k a :
  Forall2 R l l' -> nth_error l k = Some a ->
  exists b, nth_error l' k = Some b /\ R a b.
Proof.
  intros F. revert k. induction F as [|x y l l' Hxy _ IH]; intros k Hk.
  - now destruct k.
  - destruct k as [|k]; cbn in *.
    + injection Hk as <-. eauto.
    + auto.
Qed.

Lemma NoDup_nth_error_eq {A B} (f : A -> B) (l : list A) j k a b :
  NoDup (map f l) ->
  nth_error l j = Some a -> nth_error l k = Some b -> f a = f b -> j = k.
Proof.
  intros Hnd Hj Hk E.
  apply (proj1 (NoDup_nth_error (map f l)) Hnd).
  - rewrite length_map. apply nth_error_Some. congruence.
  - rewrite !nth_error_map, Hj, Hk. cbn. now f_equal.
Qed.

(** C10.  The table [enrich_with_spotify] returns has the rows of the
    input, in the same order and with the same label and the same six
    columns.  A row has the four enrichment cells null when every row
    carrying its label had a search that errored or found no match; on a
    table whose index labels are distinct, that is every row whose own
    search errored or found no match. *)
Theorem enrichment_only_adds_columns spotify world artist_df
        out spotify' evs :
  enrich_with_spotify spotify world artist_df = (Py.Ok out, spotify', evs) ->
  map Enriched.artist out = artist_df /\
  (forall k row,
     nth_error artist_df k = Some row ->
     (forall j row',
        nth_error artist_df j = Some row' -> Row.idx row' = Row.idx row ->
        no_match (world j)) ->
     nth_error out k = Some (Enriched.mk row None None None None)) /\
  (NoDup (map Row.idx artist_df) ->
   forall k row,
     nth_error artist_df k = Some row -> no_match (world k) ->
     nth_error out k = Some (Enriched.mk row None None None None)).
Proof.
  unfold enrich_with_spotify. intros E.
  apply enrich_rows_frame in E.
  remember (map (fun r => Enriched.mk r None None None None) artist_df)
    as df eqn:Edf.
  assert (Hdf : forall k row, nth_error artist_df k = Some row ->
                  nth_error df k = Some (Enriched.mk row None None None None)).
  { intros k row Hk. subst df. now rewrite nth_error_map, Hk. }
  assert (Hart : map Enriched.artist df = artist_df).
  { subst df. rewrite map_map. cbn. apply map_id. }
  assert (Hlabel : forall k row,
     nth_error artist_df k = Some row ->
     (forall j row',
        nth_error artist_df j = Some row' -> Row.idx row' = Row.idx row ->
        no_match (world j)) ->
     nth_error out k = Some (Enriched.mk row None None None None)).
  { intros k row Hk Hno. specialize (Hdf k row Hk).
    destruct (Forall2_nth_error _ _ _ _ _ E Hdf) as (e' & Hout & _ & He).
    rewrite Hout, He; [reflexivity|]. cbn.
    intros (j & row' & Hj & Hl & Hm). cbn in Hm. eauto. }
  split; [|split; [exact Hlabel|]].
  - rewrite <- Hart. clear -E.
    induction E as [|e e' df out [Ha _] _ IH]; cbn; [reflexivity|].
    now rewrite Ha, IH.
  - intros Hnd k row Hk Hno. apply Hlabel; [assumption|].
    intros j row' Hj Hl.
    assert (j = k) by (eapply (NoDup_nth_error_eq Row.idx); eauto).
    now subst j.
Qed.

(** *** Malformed bodies *)

(** A catalog page whose body is not valid JSON adds no record and the
    loop goes on to the next offset. *)
Lemma fetch_pages_invalid_json server offset rest fetched :
  status_code (server offset) = 200 ->
  content_empty (server offset) = false ->
  json (server offset) = None ->
  fetch_pages server (offset :: rest) fetched =
  (fst (fetch_pages server rest fetched),
   NotValidJSON :: snd (fetch_pages server rest fetched)).
Proof.
  intros Hs Hc Hj. cbn [fetch_pages]. rewrite Hs, Hc, Hj. cbn.
  now destruct (fetch_pages server rest fetched).
Qed.

(** The records fetched are those of the pages that decoded, whatever
    pages in between did not. *)
Example fetch_skips_invalid_page :
  let server offset :=
    if offset =? 2 then mkResponse 200 false (Some (mkCatalogPage (Some [Normalizer.abba])))
    else if offset =? 102 then mkResponse 200 false None
    else mkResponse 200 false (Some (mkCatalogPage (Some [Normalizer.kraftwerk]))) in
  fetch_artists 300 server =
  ([Normalizer.abba; Normalizer.kraftwerk],
   [Fetching; Fetched 1 2; NotValidJSON; Fetched 1 202; TotalFetched 2]).
Proof. reflexivity. Qed.

(** The token endpoint answers; the search endpoint answers 200 with a
    body that is not JSON. *)
Definition malformed_search (_ : nat) : World :=
  mkWorld 1000000000
          (mkResponse 200 false
             (Some (mkTokenJson (Some (Py.of_string "tok"))
                                (Some (Py.JInt 3600)))))
          1000000000
          (mkResponse 200 false None).

Definition one_page (offset : Z) : Response CatalogPage :=
  if offset =? 2
  then mkResponse 200 false (Some (mkCatalogPage (Some [Normalizer.abba])))
  else mkResponse 404 true None.

(** C4 (the code departs from the claim).  The claim has a lookup whose
    answer is not valid JSON skip that artist and the run go on.  In
    [search_artist] the call [result.json()] stands outside any [try]:
    on such an answer the lookup raises a [ValueError], which ends
    [enrich_with_spotify] and [collect_all_data] with it; no table is
    returned and none is written.  ([fetch_artists] does catch the
    [ValueError] of a page.) *)
Theorem malformed_search_ends_the_run :
  fst (fst (search_artist TokenCache.fresh (Py.of_string "ABBA")
                          (malformed_search 0))) =
    Py.Raise Py.ValueError /\
  fst (fst (@enrich_with_spotify TokenCache.fresh malformed_search
                                 [Normalizer.normalize Normalizer.abba])) =
    Py.Raise Py.ValueError /\
  forall to_csv,
    @collect_all_data SortKinds.stable_kind Normalizer.ascii_lower
                      Normalizer.reference to_csv 100 one_page
                      TokenCache.fresh malformed_search =
    Py.Raise Py.ValueError.
Proof. split; [reflexivity|]. split; [reflexivity|]. reflexivity. Qed.

(** *** A run that returns *)

(** The first lookup finds a match, the second gets a 500, the third an
    empty list. *)
Definition mixed_world (k : nat) : World :=
  let token_ok :=
    mkResponse 200 false
      (Some (mkTokenJson (Some (Py.of_string "tok"))
                         (Some (Py.JInt 3600)))) in
  mkWorld 1000000000 token_ok 1000000000
          (match k with
           | 0%nat => mkResponse 200 false (Some (mkSearchJson [TokenCache.hit]))
           | 1%nat => mkResponse 500 false None
           | _ => mkResponse 200 false (Some (mkSearchJson []))
           end).

Definition three_rows : list Row.t :=
  map Normalizer.normalize
      [Normalizer.abba; Normalizer.kraftwerk; Normalizer.poseidon].

Definition enriched_three_rows : list Enriched.t :=
  [ Enriched.mk (Normalizer.normalize Normalizer.abba)
                (Some 5000)
                (Some (Py.of_string "https://open.spotify.com/artist/x"))
                (Some 70)
                (Some (Py.of_string "https://i.scdn.co/image/x"));
    Enriched.mk (Normalizer.normalize Normalizer.kraftwerk)
                None None None None;
    Enriched.mk (Normalizer.normalize Normalizer.poseidon)
                None None None None ].

Example enrich_three_rows :
  fst (fst (@enrich_with_spotify TokenCache.fresh mixed_world three_rows)) =
  Py.Ok enriched_three_rows.
Proof. vm_compute. reflexivity. Qed.

Lemma enrichment_only_adds_columns_witness :
  map Enriched.artist enriched_three_rows = three_rows /\
  (forall k row,
     nth_error three_rows k = Some row ->
     (forall j row',
        nth_error three_rows j = Some row' -> Row.idx row' = Row.idx row ->
        no_match (mixed_world j)) ->
     nth_error enriched_three_rows k =
     Some (Enriched.mk row None None None None)) /\
  (NoDup (map Row.idx three_rows) ->
   forall k row,
     nth_error three_rows k = Some row -> no_match (mixed_world k) ->
     nth_error enriched_three_rows k =
     Some (Enriched.mk row None None None None)).
Proof.
  apply (enrichment_only_adds_columns TokenCache.fresh mixed_world
           three_rows enriched_three_rows
           (snd (fst (@enrich_with_spotify TokenCache.fresh mixed_world
                                           three_rows)))
           (snd (@enrich_with_spotify TokenCache.fresh mixed_world
                                      three_rows))).
  vm_compute. reflexivity.
Defined.

(** The labels of the three rows are distinct, and the second and third
    lookups found nothing. *)
Example three_rows_distinct :
  NoDup (map Row.idx three_rows) /\
  no_match (mixed_world 1) /\ no_match (mixed_world 2).
Proof.
  split; [|split].
  - vm_compute. repeat constructor; cbn; intuition discriminate.
  - left. discriminate.
  - right. eexists. split; reflexivity.
Qed.

(** *** A label that two rows carry *)

(** The catalog lists ABBA twice under one id, once misspelt; Spotify
    knows the second spelling only. *)
Definition abba_twice : list Row.t :=
  [ Normalizer.normalize Normalizer.abba;
    Normalizer.normalize
      (Raw.mk (Py.of_string "a1") (Py.of_string "Abba") 90
              (Some (Py.of_string "Sweden")) None None None) ].

Definition second_spelling (k : nat) : World :=
  mkWorld 1000000000
          (mkResponse 200 false
             (Some (mkTokenJson (Some (Py.of_string "tok"))
                                (Some (Py.JInt 3600)))))
          1000000000
          (match k with
           | 1%nat =>
               mkResponse 200 false (Some (mkSearchJson [TokenCache.hit]))
           | _ => mkResponse 200 false (Some (mkSearchJson []))
           end).

Definition enriched_abba_twice : list Enriched.t :=
  map (fun row =>
         Enriched.mk row (Some 5000)
                     (Some (Py.of_string "https://open.spotify.com/artist/x"))
                     (Some 70)
                     (Some (Py.of_string "https://i.scdn.co/image/x")))
      abba_twice.

Example both_rows_get_the_one_match :
  fst (fst (enrich_with_spotify TokenCache.fresh second_spelling abba_twice))
  = Py.Ok enriched_abba_twice.
Proof. vm_compute. reflexivity. Qed.

(** The last part of C10 as it is written: a row whose own lookup errors
    or finds no match has the four enrichment cells null. *)
Definition unmatched_rows_stay_null (world : nat -> World)
           (artist_df : list Row.t) (out : list Enriched.t) : Prop :=
  forall k row,
    nth_error artist_df k = Some row -> no_match (world k) ->
    nth_error out k = Some (Enriched.mk row None None None None).

(** C10, as written, fails on a table in which two rows carry one label:
    the lookup of the first row of [abba_twice] finds no match, the
    lookup of the second does, and [.at] writes its cells to both
    rows. *)
Lemma unmatched_row_gets_the_cells_of_its_label :
  fst (fst (enrich_with_spotify TokenCache.fresh second_spelling abba_twice))
    = Py.Ok enriched_abba_twice /\
  no_match (second_spelling 0) /\
  option_map Enriched.spotify_followers (nth_error enriched_abba_twice 0)
    = Some (Some 5000) /\
  ~ unmatched_rows_stay_null second_spelling abba_twice enriched_abba_twice.
Proof.
  assert (Hno : no_match (second_spelling 0))
    by (right; eexists; split; reflexivity).
  split; [vm_compute; reflexivity|]. split; [exact Hno|].
  split; [reflexivity|]. intros H.
  specialize (H 0%nat (Normalizer.normalize Normalizer.abba) eq_refl Hno).
  discriminate H.
Qed.

End Enrichment.

(** ** Artists per million *)

Module PerMillion.
Import ArtistVisualizer ExtractYear SortFacts.

Lemma In_firstn {A} (n : nat) (l : list A) x : In x (firstn n l) -> In x l.
Proof.
  revert l. induction n as [|n IH]; intros [|a l]; cbn; try contradiction.
  intros [->|H]; auto.
Qed.

Lemma NoDup_map_inj {A B} (f : A -> B) (l : list A) a b :
  NoDup (map f l) -> In a l -> In b l -> f a = f b -> a = b.
Proof.
  induction l as [|x l IH]; cbn; [contradiction|].
  intros Hnd Ha Hb E. apply NoDup_cons_iff in Hnd as [Hx Hnd].
  destruct Ha as [->|Ha], Hb as [->|Hb]; auto.
  - exfalso. apply Hx. rewrite E. now apply in_map.
  - exfalso. apply Hx. rewrite <- E. now apply in_map.
Qed.

Section PerMillion.
Context {SK : SortKind}.
Variable str_to_numeric : Py.str -> Py.float.
Variable artist_df : list Enriched.t.
Variable countries_df : list Country.t.

Let table := artist_per_country str_to_numeric artist_df countries_df.
Let summary_ranking := top_per_million str_to_numeric artist_df countries_df.
Let chart_ranking := top_countries str_to_numeric artist_df countries_df.

(** The number of artists of the table whose country is [k]. *)
Definition matched_artists (k : Py.str) : nat :=
  group_size k (map country_of artist_df).

(** A row of one of the two rankings. *)
Definition ranked (r : PerCountry) : Prop :=
  In r summary_ranking \/ In r chart_ranking.

Lemma merge_left_In {L} (key : L -> option Py.str) (left : list L) l c :
  In (l, c) (merge_left countries_df key left) ->
  In l left /\
  match c with
  | Some c' => In c' countries_df /\ key l = Some (Country.Country_name c')
  | None => True
  end.
Proof.
  unfold merge_left. rewrite in_flat_map. intros (l' & Hl' & Hin).
  destruct (key l') as [k|] eqn:Ek.
  - destruct (filter _ countries_df) as [|c0 more] eqn:Ef.
    + destruct Hin as [[= <- <-]|[]]. auto.
    + rewrite <- Ef in Hin. apply in_map_iff in Hin as (c' & [= <- <-] & Hc').
      apply filter_In in Hc' as [Hc' E]. apply str_eqb_eq in E.
      subst k. auto.
  - destruct Hin as [[= <- <-]|[]]. auto.
Qed.

Lemma rate_needs_population (count population : Py.float) :
  Py.isna (mul (truediv count population) (Py.Fin 1000000%Q)) = false ->
  Py.isna population = false.
Proof.
  destruct population; [|reflexivity|reflexivity].
  now destruct count.
Qed.

(** A row of [artist_per_country] that has a rate took its population,
    a number, from a row of the reference of the same name. *)
Lemma table_row_population (r : PerCountry) :
  In r table -> has_rate r = true ->
  exists c, In c countries_df /\
            Country.Country_name c = Country_name r /\
            Py.isna (to_numeric str_to_numeric (Country.population c))
            = false.
Proof.
  unfold table, artist_per_country.
  intros Hr. apply in_map_iff in Hr as ([[k n] c] & <- & Hin).
  apply merge_left_In in Hin as [_ Hc].
  unfold has_rate. cbn [ArtistsPerMillion Country_name].
  rewrite negb_true_iff. intros Hrate.
  apply rate_needs_population in Hrate.
  destruct c as [c|]; [|discriminate].
  destruct Hc as [Hc [= ->]]. eauto.
Qed.

Lemma ranked_in_table (r : PerCountry) :
  ranked r -> In r table /\ at_least_3 r = true /\ has_rate r = true.
Proof.
  unfold ranked, summary_ranking, chart_ranking, top_per_million,
    top_countries.
  intros [H|H]; apply In_firstn in H;
    apply (Permutation_in _ (sort_values_descending_perm _ _ _)) in H;
    apply filter_In in H as [H H1]; apply filter_In in H as [H H2]; auto.
Qed.

Section DistinctNames.
Hypothesis names_distinct : NoDup (map Country.Country_name countries_df).

Lemma one_country_per_name (k : Py.str) :
  (length (filter (fun c => Py.str_eqb (Country.Country_name c) k)
                  countries_df) <= 1)%nat.
Proof.
  clear table summary_ranking chart_ranking.
  induction countries_df as [|c l IH]; cbn; [lia|].
  apply NoDup_cons_iff in names_distinct as [Hc Hnd].
  destruct (Py.str_eqb (Country.Country_name c) k) eqn:E.
  - apply str_eqb_eq in E. subst k.
    replace (filter _ l) with (@nil Country.t); [cbn; lia|].
    symmetry. destruct (filter _ l) as [|c' l'] eqn:Ef; [reflexivity|].
    assert (Hin : In c' (filter
              (fun c0 => Py.str_eqb (Country.Country_name c0)
                                    (Country.Country_name c)) l))
      by (rewrite Ef; now left).
    apply filter_In in Hin as [Hin E']. apply str_eqb_eq in E'.
    exfalso. apply Hc. rewrite <- E'. now apply in_map.
  - now apply IH.
Qed.

(** With distinct names the left merge neither drops nor repeats a
    row. *)
Lemma merge_left_rows {L} (key : L -> option Py.str) (left : list L) :
  map fst (merge_left countries_df key left) = left.
Proof.
  induction left as [|l left IH]; [reflexivity|].
  unfold merge_left in *. cbn [flat_map]. rewrite map_app, IH.
  destruct (key l) as [k|]; [|reflexivity].
  pose proof (one_country_per_name k) as H1.
  destruct (filter _ countries_df) as [|c [|c' more]]; cbn in *;
    [reflexivity|reflexivity|lia].
Qed.

(** ... and the count of a country is the number of its artists. *)
Lemma table_row_count (r : PerCountry) :
  In r table -> ArtistsCount r = matched_artists (Country_name r).
Proof.
  unfold table, artist_per_country.
  rewrite <- map_map with (f := fst) (g := country_of).
  rewrite merge_left_rows.
  intros Hr. apply in_map_iff in Hr as ([[k n] c] & <- & Hin).
  apply merge_left_In in Hin as [Hkn _].
  apply in_map_iff in Hkn as (k' & [= -> <-] & _). reflexivity.
Qed.
End DistinctNames.

(** C7.  A country is in the ranking of the summary or of the chart only
    if its row of [artist_per_country] counts at least 3 and the reference
    has a row of that name whose population is numeric.  The reference
    having one row per country name, the count is the number of artists of
    the table with that country: a country with fewer than 3 artists is in
    neither ranking, whatever its population, and neither is a country of
    the reference whose population does not parse. *)
Theorem ranking_needs_three_artists_and_population :
  (forall r, ranked r ->
     (3 <= ArtistsCount r)%nat /\
     exists c, In c countries_df /\
               Country.Country_name c = Country_name r /\
               Py.isna (to_numeric str_to_numeric (Country.population c))
               = false) /\
  (NoDup (map Country.Country_name countries_df) ->
   (forall r, ranked r ->
      ArtistsCount r = matched_artists (Country_name r) /\
      (3 <= matched_artists (Country_name r))%nat) /\
   (forall k, (matched_artists k < 3)%nat ->
      forall r, ranked r -> Country_name r <> k) /\
   (forall c, In c countries_df ->
      Py.isna (to_numeric str_to_numeric (Country.population c)) = true ->
      forall r, ranked r -> Country_name r <> Country.Country_name c)).
Proof.
  assert (H1 : forall r, ranked r ->
     (3 <= ArtistsCount r)%nat /\
     exists c, In c countries_df /\
               Country.Country_name c = Country_name r /\
               Py.isna (to_numeric str_to_numeric (Country.population c))
               = false).
  { intros r Hr. apply ranked_in_table in Hr as (Hin & H3 & Hrate).
    unfold at_least_3 in H3. apply Nat.leb_le in H3.
    split; [assumption|]. now apply table_row_population. }
  split; [exact H1|]. intros Hnd.
  assert (H2 : forall r, ranked r ->
     ArtistsCount r = matched_artists (Country_name r) /\
     (3 <= matched_artists (Country_name r))%nat).
  { intros r Hr. destruct (H1 r Hr) as [H3 _].
    apply ranked_in_table in Hr as (Hin & _ & _).
    rewrite <- (table_row_count Hnd r Hin). auto. }
  split; [exact H2|]. split.
  - intros k Hk r Hr <-. apply H2 in Hr as [_ H3]. lia.
  - intros c Hc Hna r Hr E. apply H1 in Hr as (_ & c' & Hc' & E' & Hnum).
    assert (c' = c).
    { apply (NoDup_map_inj Country.Country_name countries_df); auto.
      congruence. }
    subst c'. congruence.
Qed.
End PerMillion.

(** *** A table of eight artists *)

Definition digits_to_numeric (s : Py.str) : Py.float :=
  if Py.isdigit s then
    match Py.int s with
    | Py.Ok n => Py.Fin (inject_Z n)
    | Py.Raise _ => Py.NaN
    end
  else Py.NaN.

Definition artist (id name country : string) : Enriched.t :=
  Enriched.mk
    (Row.mk (Py.of_string id) (Py.of_string name)
            (Some (Py.of_string country)) None None false None)
    None None None None.

Definition sample_artists : list Enriched.t :=
  [ artist "1" "ABBA" "Sweden"; artist "2" "Roxette" "Sweden";
    artist "3" "Europe" "Sweden";
    artist "4" "Kraftwerk" "Germany"; artist "5" "Can" "Germany";
    artist "6" "Sigur Ros" "Iceland"; artist "7" "Kaleo" "Iceland";
    artist "8" "Mezzoforte" "Iceland" ].

(** Iceland's population is a text that is no number. *)
Definition countries : list Country.t :=
  [ Country.mk (Py.of_string "Germany") Py.PyNone Py.PyNone
               (Py.PyInt 83000000) Py.PyNone;
    Country.mk (Py.of_string "Sweden") Py.PyNone Py.PyNone
               (Py.PyStr (Py.of_string "10000000")) Py.PyNone;
    Country.mk (Py.of_string "Iceland") Py.PyNone Py.PyNone
               (Py.PyStr (Py.of_string "unknown")) Py.PyNone ].

(** Germany has two artists, Iceland no numeric population: Sweden alone
    is ranked, in the summary and in the chart. *)
Example ranking_of_sample :
  map Country_name
      (@top_per_million SortKinds.stable_kind digits_to_numeric
                        sample_artists countries) = [Py.of_string "Sweden"] /\
  map Country_name
      (@top_countries SortKinds.stable_kind digits_to_numeric
                      sample_artists countries) = [Py.of_string "Sweden"].
Proof. split; vm_compute; reflexivity. Qed.

Lemma ranking_needs_three_artists_and_population_witness :
  let ranked := @ranked SortKinds.stable_kind digits_to_numeric
                        sample_artists countries in
  let matched := matched_artists sample_artists in
  NoDup (map Country.Country_name countries) /\
  (forall r, ranked r ->
     ArtistsCount r = matched (Country_name r) /\
     (3 <= matched (Country_name r))%nat) /\
  (forall k, (matched k < 3)%nat ->
     forall r, ranked r -> Country_name r <> k) /\
  (forall c, In c countries ->
     Py.isna (to_numeric digits_to_numeric (Country.population c)) = true ->
     forall r, ranked r -> Country_name r <> Country.Country_name c).
Proof.
  intros ranked matched.
  assert (Hnd : NoDup (map Country.Country_name countries)).
  { vm_compute. repeat constructor; cbn; intuition discriminate. }
  split; [exact Hnd|].
  exact (proj2 (@ranking_needs_three_artists_and_population
                  SortKinds.stable_kind digits_to_numeric sample_artists
                  countries) Hnd).
Defined.

End PerMillion.

(** ** Peak formation period *)

Module PeakPeriod.
Import ArtistVisualizer.

#[local] Open Scope Q_scope.

Lemma Qlt_bool_true (a b : Q) : Qlt_bool a b = true -> a < b.
Proof.
  unfold Qlt_bool. rewrite negb_true_iff. intros H.
  apply Qnot_le_lt. intros Hle. apply Qle_bool_iff in Hle. congruence.
Qed.

Lemma Qlt_bool_false (a b : Q) : Qlt_bool a b = false -> b <= a.
Proof.
  unfold Qlt_bool. rewrite negb_false_iff. apply Qle_bool_iff.
Qed.

(** *** [idxmax] *)

Lemma argmax_from_spec (counts : list nat) : forall best best_count i,
  let k := argmax_from best best_count i counts in
  (k = best /\
   forall j, (j < length counts)%nat -> (nth j counts 0 <= best_count)%nat) \/
  (exists j,
     k = (i + j)%nat /\ (j < length counts)%nat /\
     (best_count < nth j counts 0)%nat /\
     (forall j', (j' < length counts)%nat ->
                 (nth j' counts 0 <= nth j counts 0)%nat) /\
     (forall j', (j' < j)%nat -> (nth j' counts 0 < nth j counts 0)%nat)).
Proof.
  induction counts as [|c rest IH]; intros best bc i; cbn [argmax_from].
  - left. split; [reflexivity|]. cbn. lia.
  - destruct (Nat.ltb_spec bc c) as [Hlt|Hge].
    + right. destruct (IH i c (S i)) as [[Ek Hall]|(j & Ek & Hj & Hc & Hall & Hfirst)].
      * exists 0%nat. cbn [nth length]. repeat split; try lia.
        intros [|j'] Hj'; cbn; [lia|]. apply Hall. cbn in Hj'. lia.
      * exists (S j). cbn [nth length]. repeat split; try lia.
        -- intros [|j'] Hj'; cbn; [lia|]. apply Hall. cbn in Hj'. lia.
        -- intros [|j'] Hj'; cbn; [lia|]. apply Hfirst. lia.
    + destruct (IH best bc (S i)) as [[Ek Hall]|(j & Ek & Hj & Hc & Hall & Hfirst)].
      * left. split; [assumption|].
        intros [|j'] Hj'; cbn; [lia|]. apply Hall. cbn in Hj'. lia.
      * right. exists (S j). cbn [nth length]. repeat split; try lia.
        -- intros [|j'] Hj'; cbn; [lia|]. apply Hall. cbn in Hj'. lia.
        -- intros [|j'] Hj'; cbn; [lia|]. apply Hfirst. lia.
Qed.

(** [idxmax] names a maximum, and the first of them. *)
Lemma idxmax_spec (counts : list nat) :
  counts <> [] ->
  let k := idxmax counts in
  (k < length counts)%nat /\
  (forall j, (j < length counts)%nat ->
             (nth j counts 0 <= nth k counts 0)%nat) /\
  (forall j, (j < k)%nat -> (nth j counts 0 < nth k counts 0)%nat).
Proof.
  destruct counts as [|c rest]; [contradiction|]. intros _.
  unfold idxmax.
  destruct (argmax_from_spec rest 0 c 1)
    as [[Ek Hall]|(j & Ek & Hj & Hc & Hall & Hfirst)]; cbn zeta; rewrite Ek.
  - cbn [nth length]. repeat split; try lia.
    intros [|j] Hj; cbn; [lia|]. apply Hall. cbn in Hj. lia.
  - cbn [nth length Nat.add]. repeat split; try lia.
    + intros [|j'] Hj'; cbn; [lia|]. apply Hall. cbn in Hj'. lia.
    + intros [|j'] Hj'; cbn; [lia|]. apply Hfirst. lia.
Qed.

(** *** The edges *)

Lemma linspace_6 (a b : Q) :
  linspace a b 6 =
  [a + 0 * ((b - a) / 5); a + 1 * ((b - a) / 5); a + 2 * ((b - a) / 5);
   a + 3 * ((b - a) / 5); a + 4 * ((b - a) / 5); a + 5 * ((b - a) / 5)].
Proof. reflexivity. Qed.

Lemma fifth (d : Q) : 5 * (d / 5) == d.
Proof. field. Qed.

Lemma widening_positive (q : Q) :
  0 < (if Qzero q then 1 # 1000 else (1 # 1000) * Qabs q).
Proof.
  unfold Qzero. destruct (Qle_bool q 0) eqn:E1; cbn [andb].
  - destruct (Qle_bool 0 q) eqn:E2; [reflexivity|].
    apply Qle_bool_iff in E1.
    assert (~ 0 <= q) by (rewrite <- Qle_bool_iff; congruence).
    rewrite (Qabs_neg q E1). lra.
  - assert (~ q <= 0) by (rewrite <- Qle_bool_iff; congruence).
    rewrite (Qabs_pos q) by lra. lra.
Qed.

(** Six edges, each below the next. *)
Definition increasing_edges (bins : list Q) (b0 b1 b2 b3 b4 b5 : Q) : Prop :=
  bins = [b0; b1; b2; b3; b4; b5] /\
  b0 < b1 /\ b1 < b2 /\ b2 < b3 /\ b3 < b4 /\ b4 < b5.

(** The edges [pd.cut] makes of a range increase, start below the
    minimum and end at or above the maximum. *)
Lemma nbins_to_bins_shape (mn mx : Q) :
  mn <= mx ->
  exists b0 b1 b2 b3 b4 b5,
    increasing_edges (nbins_to_bins mn mx 5) b0 b1 b2 b3 b4 b5 /\
    b0 < mn /\ mx <= b5.
Proof.
  intros Hle. unfold nbins_to_bins, increasing_edges.
  change (5 + 1)%nat with 6%nat. rewrite !linspace_6.
  destruct (Qeq_bool mn mx) eqn:E.
  - pose proof (widening_positive mn) as H1.
    pose proof (widening_positive mx) as H2.
    set (d1 := if Qzero mn then 1 # 1000 else (1 # 1000) * Qabs mn) in *.
    set (d2 := if Qzero mx then 1 # 1000 else (1 # 1000) * Qabs mx) in *.
    pose proof (fifth (mx + d2 - (mn - d1))) as H5.
    set (s := (mx + d2 - (mn - d1)) / 5) in *.
    do 6 eexists. split; [split; [reflexivity|]|]; lra.
  - apply Qeq_bool_neq in E.
    assert (mn < mx).
    { apply Qle_lteq in Hle as [H|H]; [assumption|contradiction]. }
    pose proof (fifth (mx - mn)) as H5.
    set (s := (mx - mn) / 5) in *.
    do 6 eexists. split; [split; [reflexivity|]|]; lra.
Qed.

(** When the years differ the edges cut [min, max] into five ranges of
    one width, the lowest edge standing 0.1% of the range below the
    minimum. *)
Lemma nbins_to_bins_equal_width (mn mx : Q) :
  mn < mx ->
  Forall2 Qeq (nbins_to_bins mn mx 5)
          [mn - (mx - mn) * (1 # 1000);
           mn + 1 * ((mx - mn) / 5); mn + 2 * ((mx - mn) / 5);
           mn + 3 * ((mx - mn) / 5); mn + 4 * ((mx - mn) / 5); mx].
Proof.
  intros Hlt. unfold nbins_to_bins.
  change (5 + 1)%nat with 6%nat. rewrite !linspace_6.
  destruct (Qeq_bool mn mx) eqn:E.
  - apply Qeq_bool_eq in E. lra.
  - pose proof (fifth (mx - mn)) as H5.
    repeat constructor; try reflexivity.
    + set (s := (mx - mn) / 5) in *. lra.
    + set (s := (mx - mn) / 5) in *. lra.
Qed.

(** *** Bin codes *)

(** The code of a value is [j] exactly when the value lies in the [j]-th
    range, open below and closed above. *)
Lemma cut_code_spec bins b0 b1 b2 b3 b4 b5 (y : Q) (j : nat) :
  increasing_edges bins b0 b1 b2 b3 b4 b5 ->
  cut_code bins y = Some j <->
  (j < 5)%nat /\ nth j bins 0 < y /\ y <= nth (S j) bins 0.
Proof.
  intros (-> & H01 & H12 & H23 & H34 & H45).
  unfold cut_code, searchsorted_left. cbn [filter].
  destruct (Qlt_bool b0 y) eqn:E0;
    [apply Qlt_bool_true in E0|apply Qlt_bool_false in E0];
  (destruct (Qlt_bool b1 y) eqn:E1;
    [apply Qlt_bool_true in E1|apply Qlt_bool_false in E1];
    try (exfalso; lra));
  (destruct (Qlt_bool b2 y) eqn:E2;
    [apply Qlt_bool_true in E2|apply Qlt_bool_false in E2];
    try (exfalso; lra));
  (destruct (Qlt_bool b3 y) eqn:E3;
    [apply Qlt_bool_true in E3|apply Qlt_bool_false in E3];
    try (exfalso; lra));
  (destruct (Qlt_bool b4 y) eqn:E4;
    [apply Qlt_bool_true in E4|apply Qlt_bool_false in E4];
    try (exfalso; lra));
  (destruct (Qlt_bool b5 y) eqn:E5;
    [apply Qlt_bool_true in E5|apply Qlt_bool_false in E5];
    try (exfalso; lra));
  cbn;
  (split;
   [ intros Hj;
     first [ discriminate Hj
           | injection Hj as <-; cbn; split; [lia | split; lra] ]
   | intros (Hj & Hlo & Hhi);
     destruct j as [|[|[|[|[|j]]]]]; cbn in Hlo, Hhi;
     try reflexivity; try (exfalso; lra); exfalso; lia ]).
Qed.

(** *** Counting *)

(** The number of years in the [j]-th range [(bins[j], bins[j+1]]]. *)
Definition in_bin (bins : list Q) (ys : list Z) (j : nat) : nat :=
  length (filter (fun y => Qlt_bool (nth j bins 0) (inject_Z y) &&
                           Qle_bool (inject_Z y) (nth (S j) bins 0)) ys).

Lemma bool_eq_iff (a b : bool) : (a = true <-> b = true) -> a = b.
Proof. destruct a, b; intuition congruence. Qed.

Lemma value_counts_nth bins b0 b1 b2 b3 b4 b5 (ys : list Z) (j : nat) :
  increasing_edges bins b0 b1 b2 b3 b4 b5 ->
  (j < 5)%nat ->
  nth j (value_counts 5 (map (fun y => cut_code bins (inject_Z y)) ys)) 0%nat
  = in_bin bins ys j.
Proof.
  intros Hbins Hj. unfold value_counts, in_bin.
  assert (E : forall f : nat -> nat, nth j (map f (seq 0 5)) 0%nat = f j).
  { intros f. do 5 (destruct j as [|j]; [reflexivity|]). lia. }
  rewrite E. rewrite filter_map_swap, length_map. f_equal.
  apply filter_ext. intros y. apply bool_eq_iff.
  rewrite andb_true_iff, Qle_bool_iff.
  destruct (cut_code bins (inject_Z y)) as [k|] eqn:Ec.
  - rewrite Nat.eqb_eq. split.
    + intros ->. apply (cut_code_spec _ _ _ _ _ _ _ _ _ Hbins) in Ec
        as (_ & Hlo & Hhi).
      split; [|assumption]. unfold Qlt_bool. rewrite negb_true_iff.
      destruct (Qle_bool (inject_Z y) (nth j bins 0)) eqn:El; [|reflexivity].
      apply Qle_bool_iff in El. lra.
    + intros [Hlo Hhi]. apply Qlt_bool_true in Hlo.
      assert (Ej : cut_code bins (inject_Z y) = Some j)
        by (apply (cut_code_spec _ _ _ _ _ _ _ _ _ Hbins); auto).
      congruence.
  - split; [discriminate|]. intros [Hlo Hhi]. apply Qlt_bool_true in Hlo.
    assert (Ej : cut_code bins (inject_Z y) = Some j)
      by (apply (cut_code_spec _ _ _ _ _ _ _ _ _ Hbins); auto).
    congruence.
Qed.

(** *** Minimum and maximum *)

Lemma min_year_spec (ys : list Z) : forall y0,
  In (min_year y0 ys) (y0 :: ys) /\
  forall y, In y (y0 :: ys) -> (min_year y0 ys <= y)%Z.
Proof.
  unfold min_year. induction ys as [|y1 ys IH]; intros y0; cbn [fold_left].
  - split; [now left|]. intros y [<-|[]]. lia.
  - destruct (IH (Z.min y0 y1)) as [Hin Hle]. split.
    + destruct Hin as [E|Hin]; [|right; now right].
      rewrite <- E. destruct (Z.min_spec y0 y1) as [[_ ->]|[_ ->]];
        [now left|right; now left].
    + intros y [<-|[<-|Hy]].
      * specialize (Hle (Z.min y0 y1) (or_introl eq_refl)). lia.
      * specialize (Hle (Z.min y0 y1) (or_introl eq_refl)). lia.
      * apply Hle. now right.
Qed.

Lemma max_year_spec (ys : list Z) : forall y0,
  In (max_year y0 ys) (y0 :: ys) /\
  forall y, In y (y0 :: ys) -> (y <= max_year y0 ys)%Z.
Proof.
  unfold max_year. induction ys as [|y1 ys IH]; intros y0; cbn [fold_left].
  - split; [now left|]. intros y [<-|[]]. lia.
  - destruct (IH (Z.max y0 y1)) as [Hin Hle]. split.
    + destruct Hin as [E|Hin]; [|right; now right].
      rewrite <- E. destruct (Z.max_spec y0 y1) as [[_ ->]|[_ ->]];
        [right; now left|now left].
    + intros y [<-|[<-|Hy]].
      * specialize (Hle (Z.max y0 y1) (or_introl eq_refl)). lia.
      * specialize (Hle (Z.max y0 y1) (or_introl eq_refl)). lia.
      * apply Hle. now right.
Qed.

(** *** The report *)

(** The reading of C8 as it is written: every table gets a range
    reported. *)
Definition reports_a_range (artist_df : list Enriched.t) : Prop :=
  exists left right, peak_period artist_df = Some (left, right).

(** C8 (amended).  With fewer than two formation years the report is
    "Insufficient data".  With two or more, the years are cut at six
    increasing edges into five ranges [(edge j, edge (j+1)]]: when the
    years differ these are the five ranges of equal width from the
    minimum to the maximum year, the lowest edge lowered by 0.1% of the
    range so that the minimum is counted.  Every year falls in a range,
    and the range reported holds at least as many years as any other and
    more than every range before it: among the fullest ranges it is the
    earliest. *)
Theorem peak_period_first_fullest_range (artist_df : list Enriched.t) :
  let ys := years artist_df in
  ((length ys < 2)%nat -> peak_period artist_df = None) /\
  (forall y0 rest,
     ys = y0 :: rest -> rest <> [] ->
     let mn := inject_Z (min_year y0 rest) in
     let mx := inject_Z (max_year y0 rest) in
     let bins := period_bins y0 rest in
     let count := in_bin bins ys in
     In (min_year y0 rest) ys /\ In (max_year y0 rest) ys /\
     (forall y, In y ys -> mn <= inject_Z y <= mx) /\
     (mn < mx ->
      Forall2 Qeq bins
              [mn - (mx - mn) * (1 # 1000);
               mn + 1 * ((mx - mn) / 5); mn + 2 * ((mx - mn) / 5);
               mn + 3 * ((mx - mn) / 5); mn + 4 * ((mx - mn) / 5); mx]) /\
     (forall y, In y ys ->
        exists j, (j < 5)%nat /\
                  nth j bins 0 < inject_Z y <= nth (S j) bins 0) /\
     exists k,
       (k < 5)%nat /\
       peak_period artist_df = Some (nth k bins 0, nth (S k) bins 0) /\
       (forall j, (j < 5)%nat -> (count j <= count k)%nat) /\
       (forall j, (j < k)%nat -> (count j < count k)%nat)).
Proof.
  intros ys. split.
  - unfold peak_period. fold ys. destruct ys as [|y0 [|y1 rest]]; cbn;
      intros; try reflexivity; lia.
  - intros y0 rest Eys Hrest mn mx bins count.
    destruct (min_year_spec rest y0) as [Hmin_in Hmin].
    destruct (max_year_spec rest y0) as [Hmax_in Hmax].
    assert (Hrange : forall y, In y ys -> mn <= inject_Z y <= mx).
    { intros y Hy. rewrite Eys in Hy. unfold mn, mx.
      rewrite <- !Zle_Qle. split; auto. }
    assert (Hle : mn <= mx).
    { unfold mn, mx. rewrite <- Zle_Qle. apply Hmax. exact Hmin_in. }
    destruct (nbins_to_bins_shape mn mx Hle)
      as (b0 & b1 & b2 & b3 & b4 & b5 & Hbins & Hlo & Hhi).
    change (nbins_to_bins mn mx 5) with bins in Hbins.
    rewrite Eys. split; [exact Hmin_in|]. split; [exact Hmax_in|].
    rewrite <- Eys. split; [exact Hrange|].
    split; [apply nbins_to_bins_equal_width|]. split.
    + intros y Hy. apply Hrange in Hy as [Hy1 Hy2].
      destruct (cut_code bins (inject_Z y)) as [j|] eqn:Ec.
      * apply (cut_code_spec _ _ _ _ _ _ _ _ _ Hbins) in Ec as (Hj & H1 & H2).
        exists j. auto.
      * exfalso. destruct Hbins as (Eb & H01 & H12 & H23 & H34 & H45).
        unfold cut_code, searchsorted_left in Ec. rewrite Eb in Ec.
        cbn [filter] in Ec.
        assert (E0 : Qlt_bool b0 (inject_Z y) = true).
        { unfold Qlt_bool. rewrite negb_true_iff.
          destruct (Qle_bool (inject_Z y) b0) eqn:E; [|reflexivity].
          apply Qle_bool_iff in E. lra. }
        assert (E5 : Qlt_bool b5 (inject_Z y) = false).
        { unfold Qlt_bool. rewrite negb_false_iff.
          apply Qle_bool_iff. lra. }
        rewrite E0, E5 in Ec.
        destruct (Qlt_bool b1 (inject_Z y)), (Qlt_bool b2 (inject_Z y)),
          (Qlt_bool b3 (inject_Z y)), (Qlt_bool b4 (inject_Z y));
          discriminate Ec.
    + set (counts := period_counts y0 rest).
      assert (Hlen : length counts = 5%nat) by reflexivity.
      assert (Hne : counts <> []) by (now destruct counts).
      destruct (idxmax_spec counts Hne) as (Hk & Hall & Hfirst).
      rewrite Hlen in Hk, Hall.
      assert (Hcount : forall j, (j < 5)%nat -> nth j counts 0%nat = count j).
      { intros j Hj. unfold counts, period_counts, count. rewrite Eys.
        fold bins. now apply (value_counts_nth _ _ _ _ _ _ _ _ _ Hbins). }
      exists (idxmax counts). split; [exact Hk|]. split.
      * unfold peak_period. fold ys. rewrite Eys.
        destruct rest as [|y1 rest']; [contradiction|]. reflexivity.
      * split.
        -- intros j Hj. rewrite <- !Hcount by assumption. now apply Hall.
        -- intros j Hj. rewrite <- !Hcount by lia. now apply Hfirst.
Qed.

(** *** Tables of formation years *)

(** An artist formed in year [y]. *)
Definition formed (y : Z) : Enriched.t :=
  Enriched.mk (Row.mk [] [] None (Some y) None false None)
              None None None None.

(** The years 1990, 1991, 1995, 2000, 2010: the counts are 2, 1, 1, 0, 1
    and the report is the first range, from 1989.98 to 1994. *)
Example peak_of_five_years :
  period_counts 1990 [1991; 1995; 2000; 2010]%Z = [2; 1; 1; 0; 1]%nat /\
  exists left right,
    peak_period (map formed [1990; 1991; 1995; 2000; 2010]%Z) =
      Some (left, right) /\
    left == 198998 # 100 /\ right == 1994.
Proof.
  split; [reflexivity|]. do 2 eexists. split; [vm_compute; reflexivity|].
  split; reflexivity.
Qed.

(** Two ranges with one year each: the earlier one is reported. *)
Example peak_of_a_tie :
  period_counts 2010 [1990]%Z = [1; 0; 0; 0; 1]%nat /\
  exists left right,
    peak_period (map formed [2010; 1990]%Z) = Some (left, right) /\
    left == 198998 # 100 /\ right == 1994.
Proof.
  split; [reflexivity|]. do 2 eexists. split; [vm_compute; reflexivity|].
  split; reflexivity.
Qed.

(** Equal years: the range is widened by 0.1% on both sides, and the
    year sits in the middle range. *)
Example peak_of_equal_years :
  period_counts 1990 [1990]%Z = [0; 0; 2; 0; 0]%nat /\
  exists left right,
    peak_period (map formed [1990; 1990]%Z) = Some (left, right) /\
    left == 1989602 # 1000 /\ right == 1990398 # 1000.
Proof.
  split; [reflexivity|]. do 2 eexists. split; [vm_compute; reflexivity|].
  split; reflexivity.
Qed.

(** C8, as written, fails: a table with one formation year gets
    "Insufficient data", not a range. *)
Lemma single_year_reports_no_range :
  years [formed 1990] = [1990%Z] /\
  peak_period [formed 1990] = None /\
  ~ reports_a_range [formed 1990].
Proof.
  split; [reflexivity|]. split; [reflexivity|].
  intros (left & right & H). discriminate H.
Qed.

Lemma peak_period_first_fullest_range_witness :
  let artist_df := map formed [1990; 1991; 1995; 2000; 2010]%Z in
  let bins := period_bins 1990 [1991; 1995; 2000; 2010]%Z in
  let count := in_bin bins (years artist_df) in
  years artist_df = [1990; 1991; 1995; 2000; 2010]%Z /\
  exists k,
    (k < 5)%nat /\
    peak_period artist_df = Some (nth k bins 0, nth (S k) bins 0) /\
    (forall j, (j < 5)%nat -> (count j <= count k)%nat) /\
    (forall j, (j < k)%nat -> (count j < count k)%nat).
Proof.
  intros artist_df bins count. split; [reflexivity|].
  assert (Hne : [1991; 1995; 2000; 2010]%Z <> []) by discriminate.
  exact (proj2 (proj2 (proj2 (proj2 (proj2
           (proj2 (peak_period_first_fullest_range artist_df)
                  1990%Z [1991; 1995; 2000; 2010]%Z eq_refl Hne)))))).
Defined.

End PeakPeriod.

(* ================================================================== *)
(** * Part III: more of the program                                    *)
(* ================================================================== *)

(** ** Sorting a column that has nulls *)

Module NaLast.

(** [np.nonzero(mask)[0]]: the positions at which [mask] holds, counted
    from [i]. *)
Fixpoint nonzero_from (i : nat) (mask : list bool) : list nat :=
  match mask with
  | [] => []
  | b :: rest => (if b then [i] else []) ++ nonzero_from (S i) rest
  end.

Definition nonzero (mask : list bool) : list nat := nonzero_from 0 mask.

(** [isna(items)], cell by cell *)
Definition isna {K} (x : option K) : bool :=
  match x with
  | None => true
  | Some _ => false
  end.

(** [items[~mask]] *)
Definition non_null {K} (items : list (option K)) : list K :=
  flat_map (fun x => match x with Some k => [k] | None => [] end) items.

Section NaLast.
Context {SK : SortKind}.
Context {A K : Type}.
Variable leb : K -> K -> bool.

(** [nargsort(items, ascending=False, na_position='last')]: the nulls
    are set aside, the other keys sorted as [nargsort_descending] does,
    and the positions of the nulls appended in their order. *)
Definition nargsort_descending_na_last (items : list (option K))
  : list nat :=
  let mask := map isna items in
  let non_nans := non_null items in
  let non_nan_idx := nonzero (map negb mask) in
  let nan_idx := nonzero mask in
  let non_nans := rev non_nans in
  let non_nan_idx := rev non_nan_idx in
  let indexer := take non_nan_idx (argsort leb non_nans) in
  let indexer := rev indexer in
  indexer ++ nan_idx.

(** [df.sort_values(by=key, ascending=False)] on a column with nulls *)
Definition sort_values_descending_na_last (key : A -> option K)
           (df : list A) : list A :=
  take df (nargsort_descending_na_last (map key df)).

End NaLast.

End NaLast.

(** ** [class ArtistVisualizer]: the top lists and the chart of followers *)

(** A row of what [get_top_artists_data] returns: the index label and
    the four columns selected. *)
Module TopArtist.
Record t : Type := mk {
  idx : Py.str;
  name : Py.str;
  spotify_url : option Py.str;
  spotify_image : option Py.str;
  spotify_followers : option Z
}.
End TopArtist.

Module Report.
Import ArtistVisualizer NaLast.

(** [top_artists[['name', 'spotify_url', 'spotify_image',
    'spotify_followers']]] *)
Definition columns (r : Enriched.t) : TopArtist.t :=
  TopArtist.mk (Row.idx (Enriched.artist r)) (Row.name (Enriched.artist r))
               (Enriched.spotify_url r) (Enriched.spotify_image r)
               (Enriched.spotify_followers r).

(** [Series.unique]: the distinct values, in the order of their first
    appearance. *)
Fixpoint unique (l : list Py.str) : list Py.str :=
  match l with
  | [] => []
  | x :: rest => x :: filter (fun y => negb (Py.str_eqb y x)) (unique rest)
  end.

Section Report.
Context {SK : SortKind}.

(** [get_top_artists_data].  The follower counts are whole numbers that
    [float64] holds exactly, and are compared as such; a null is the
    [NaN] that [pd.to_numeric] left. *)
Definition get_top_artists_data (artist_df : list Enriched.t)
  : list TopArtist.t :=
  let top_artists :=
    firstn 10 (sort_values_descending_na_last
                 Z.leb Enriched.spotify_followers artist_df) in
  map columns top_artists.

(** [column.value_counts()]: the distinct values that are not null, each
    with the number of its occurrences, sorted by descending count. *)
Definition Series_value_counts (column : list (option Py.str))
  : list (Py.str * nat) :=
  let keys := unique (non_null column) in
  let result := map (fun k => (k, group_size k column)) keys in
  sort_values_descending Nat.leb snd result.

(** [countries_count] of [create_summary_text] *)
Definition countries_count (artist_df : list Enriched.t) : nat :=
  length (unique (non_null (map country_of artist_df))).

(** [top_countries] of [create_summary_text] *)
Definition summary_top_countries (artist_df : list Enriched.t)
  : list (Py.str * nat) :=
  firstn 3 (Series_value_counts (map country_of artist_df)).

End Report.

(** [dropna(subset=['spotify_followers'])] keeps a row. *)
Definition followed (r : Enriched.t) : bool :=
  negb (isna (Enriched.spotify_followers r)).

Definition unfollowed (r : Enriched.t) : bool :=
  isna (Enriched.spotify_followers r).

(** The follower count of a row that has one. *)
Definition followers (r : Enriched.t) : Z :=
  match Enriched.spotify_followers r with
  | Some f => f
  | None => 0
  end.

(** The index label of a row. *)
Definition label (r : Enriched.t) : Py.str := Row.idx (Enriched.artist r).

(** [df.loc[labels]]: for each label in turn, the rows that carry it. *)
Definition loc (labels : list Py.str) (df : list Enriched.t)
  : list Enriched.t :=
  flat_map (fun l => filter (fun r => Py.str_eqb (label r) l) df) labels.

Section Chart.
Context {SK : SortKind}.

(** The bars of [plot_top_artists_followers]: the name and the height of
    each, [None] when the plot is the text "No Spotify follower data
    available".  The heights are kept exact. *)
Definition plot_top_artists_followers (artist_df : list Enriched.t)
  : option (list (Py.str * Q)) :=
  let valid_df := filter followed artist_df in
  if (length valid_df =? 0)%nat then None
  else
    let spotify_followers :=
      map (fun r => (label r, followers r)) valid_df in
    let top_10_by_followers :=
      firstn 10 (sort_values_descending Z.leb snd spotify_followers) in
    let top_10_artists := loc (map fst top_10_by_followers) valid_df in
    Some (map (fun r => (Row.name (Enriched.artist r),
                         (inject_Z (followers r) / 1000000)%Q))
              top_10_artists).

End Chart.

End Report.

(** ** The conversation ([bot.py]) *)

(** Conventions of this part.
    - The global dict [user_data] is passed to a handler and handed
      back; a dict is the list of its items, in the order of insertion.
    - What a handler sends to the chat is the list of replies it
      returns; sending is taken to succeed.
    - A handler runs to its end.  Where a handler touches [user_data] on
      both sides of an [await], each side is a function of its own on the
      store, so that what other handlers do in between can be put
      between them. *)

Module Bot.
Import ArtistDataCollector.

(** The values the key ["state"] of a session takes. *)
Inductive State : Type :=
| waiting_for_genre
| waiting_for_count
| collecting
| showing_results
| idle.

(** The values of ["current_phase"]. *)
Inductive Phase : Type :=
| Fetching
| FetchingArtists
| CleaningData
| GeographicAnalysis
| AddingStreamingData
| CompletingAnalysis.

(** An [ArtistVisualizer] object. *)
Record Visualizer : Type := mkVisualizer {
  artist_df : list Enriched.t;
  countries_df : list Country.t;
  tag_query : Py.str
}.

(** The dict kept for a user; a key that is not there is [None]. *)
Module Session.
Record t : Type := mk {
  state : option State;
  genre : option Py.str;
  count : option Z;
  last_activity : option Z;        (* a [datetime], in microseconds *)
  current_phase : option Phase;
  progress_message_id : option Z;
  visualizer : option Visualizer
}.

(** [{}] *)
Definition empty : t := mk None None None None None None None.

Definition with_state v (s : t) : t :=
  mk v (genre s) (count s) (last_activity s) (current_phase s)
     (progress_message_id s) (visualizer s).
Definition with_genre v (s : t) : t :=
  mk (state s) v (count s) (last_activity s) (current_phase s)
     (progress_message_id s) (visualizer s).
Definition with_count v (s : t) : t :=
  mk (state s) (genre s) v (last_activity s) (current_phase s)
     (progress_message_id s) (visualizer s).
Definition with_last_activity v (s : t) : t :=
  mk (state s) (genre s) (count s) v (current_phase s)
     (progress_message_id s) (visualizer s).
Definition with_current_phase v (s : t) : t :=
  mk (state s) (genre s) (count s) (last_activity s) v
     (progress_message_id s) (visualizer s).
Definition with_progress_message_id v (s : t) : t :=
  mk (state s) (genre s) (count s) (last_activity s) (current_phase s)
     v (visualizer s).
Definition with_visualizer v (s : t) : t :=
  mk (state s) (genre s) (count s) (last_activity s) (current_phase s)
     (progress_message_id s) v.
End Session.

(** The global [user_data]: a dict from user ids to sessions, in the
    order the keys were inserted. *)
Definition user_data : Type := list (Z * Session.t).

(** [user_data.get(user_id)] *)
Fixpoint get (user_id : Z) (ud : user_data) : option Session.t :=
  match ud with
  | [] => None
  | (k, v) :: rest => if k =? user_id then Some v else get user_id rest
  end.

(** [user_data[user_id] = session] *)
Fixpoint setitem (user_id : Z) (session : Session.t) (ud : user_data)
  : user_data :=
  match ud with
  | [] => [(user_id, session)]
  | (k, v) :: rest =>
      if k =? user_id then (k, session) :: rest
      else (k, v) :: setitem user_id session rest
  end.

(** [del user_data[user_id]], for a key that is there *)
Definition delitem (user_id : Z) (ud : user_data) : user_data :=
  filter (fun kv => negb (fst kv =? user_id)) ud.

(** What a handler sends back to the chat. *)
Inductive reply : Type :=
| LetsAnalyze                               (* the prompt of [/analyze] *)
| ThanksForUsing                            (* the goodbye of [/end] *)
| UseAnalyze
| StartOver
| EnterValidGenre
| AskCount (default : Z)
| AtLeast10
| NoMoreThan1000
| EnterValidNumber
| Starting (count : Z) (genre : Py.str).

(** [analyze] *)
Definition analyze (user_id : Z) (ud : user_data)
  : user_data * list reply :=
  (setitem user_id
           (Session.with_state (Some waiting_for_genre) Session.empty) ud,
   [LetsAnalyze]).

(** [end] *)
Definition end_ (user_id : Z) (ud : user_data) : user_data * list reply :=
  (match get user_id ud with
   | Some _ => delitem user_id ud
   | None => ud
   end,
   [ThanksForUsing]).

(** What [handle_message] leaves: the store, the replies, and the
    arguments of the [process_data] task it created, if any. *)
Record handled : Type := mkHandled {
  store : user_data;
  replies : list reply;
  task : option (Py.str * Z)
}.

Inductive outcome : Type :=
| Returned (h : handled)
| KeyError (store : user_data).

Section Conversation.

(** [str.strip] and [int] on text, built-ins of Python; [int] answers
    [None] where it raises its [ValueError]. *)
Variable strip : Py.str -> Py.str.
Variable int : Py.str -> option Z.

(** From [config.py]. *)
Variable DEFAULT_ARTISTS_COUNT : Z.

(** The first statement of [handle_message]: a user who has a session
    gets [last_activity] set. *)
Definition touch (now : Z) (user_id : Z) (ud : user_data) : user_data :=
  match get user_id ud with
  | Some session =>
      setitem user_id (Session.with_last_activity (Some now) session) ud
  | None => ud
  end.

(** [handle_message]; [now] is the reading of [datetime.now()]. *)
Definition handle_message (now : Z) (user_id : Z) (text : Py.str)
           (ud : user_data) : outcome :=
  let ud := touch now user_id ud in
  match get user_id ud with
  | None => Returned (mkHandled ud [UseAnalyze] None)
  | Some session =>
      match Session.state session with
      | None => Returned (mkHandled ud [StartOver] None)
      | Some waiting_for_genre =>
          let genre := strip text in
          match genre with
          | [] => Returned (mkHandled ud [EnterValidGenre] None)
          | _ :: _ =>
              let session := Session.with_genre (Some genre) session in
              let session :=
                Session.with_state (Some waiting_for_count) session in
              Returned (mkHandled (setitem user_id session ud)
                                  [AskCount DEFAULT_ARTISTS_COUNT] None)
          end
      | Some waiting_for_count =>
          let count_text := strip text in
          let start (count : Z) : outcome :=
            let session := Session.with_count (Some count) session in
            let session := Session.with_state (Some collecting) session in
            let ud := setitem user_id session ud in
            match Session.genre session with
            | None => KeyError ud
            | Some genre =>
                Returned (mkHandled ud [Starting count genre]
                                    (Some (genre, count)))
            end in
          match count_text with
          | [] => start DEFAULT_ARTISTS_COUNT
          | _ :: _ =>
              match int count_text with
              | Some count =>
                  if count <? 10
                  then Returned (mkHandled ud [AtLeast10] None)
                  else if count >? 1000
                  then Returned (mkHandled ud [NoMoreThan1000] None)
                  else start count
              | None => Returned (mkHandled ud [EnterValidNumber] None)
              end
          end
      | Some _ => Returned (mkHandled ud [] None)
      end
  end.

End Conversation.

(** [(current_time - data["last_activity"]).total_seconds() > 1800] *)
Definition expired (current_time : Z) (data : Session.t) : bool :=
  match Session.last_activity data with
  | Some t => current_time - t >? 1800 * 1000000
  | None => false
  end.

(** [cleanup_old_sessions] *)
Definition cleanup_old_sessions (current_time : Z) (ud : user_data)
  : user_data :=
  let users_to_remove :=
    map fst (filter (fun item => expired current_time (snd item)) ud) in
  fold_left (fun ud user_id => delitem user_id ud) users_to_remove ud.

(** *** [send_progress], as far as it writes to [user_data] *)

(** The first [if] of [send_progress]: a user without a session gets
    an empty one, and a session without ["current_phase"] gets
    ["Fetching"]. *)
Definition init_phase (user_id : Z) (ud : user_data) : user_data :=
  match get user_id ud with
  | Some session =>
      match Session.current_phase session with
      | Some _ => ud
      | None =>
          setitem user_id
                  (Session.with_current_phase (Some Fetching) session) ud
      end
  | None =>
      setitem user_id
              (Session.with_current_phase (Some Fetching) Session.empty) ud
  end.

(** The statements before the message is sent; [keyword_phase] is the
    phase the tests on the text of the message name, if any does. *)
Definition send_progress_phase (user_id : Z) (keyword_phase : option Phase)
           (ud : user_data) : user_data :=
  let ud := init_phase user_id ud in
  match keyword_phase, get user_id ud with
  | Some phase, Some session =>
      setitem user_id (Session.with_current_phase (Some phase) session) ud
  | _, _ => ud
  end.

(** [user_data[user_id]["progress_message_id"] = msg.message_id], after
    the message went out; [None] is the [KeyError] of a session that is
    gone. *)
Definition send_progress_sent (user_id : Z) (message_id : Z)
           (ud : user_data) : option user_data :=
  match get user_id ud with
  | Some session =>
      Some (setitem user_id
              (Session.with_progress_message_id (Some message_id) session)
              ud)
  | None => None
  end.

(** *** [send_top_artists] and [process_data] *)

(** What [process_data] catches and reports. *)
Inductive exn : Type :=
| Raised (e : Py.exn)
| NoSession.                               (* a [KeyError] on [user_data] *)

(** What [process_data] and [send_top_artists] send to the chat. *)
Inductive report : Type :=
| CouldNotFind (genre : Py.str)
| Summary (text : Py.str)
| TopHeader (n : nat)
| TopEntry (i : nat) (name : Py.str) (url : option Py.str) (followers : Z)
| Photo (url : Py.str)                     (* [get_and_send_image] *)
| PlotMenu
| ErrorOccurred (e : exn).

(** The loop of [send_top_artists]: [int(row['spotify_followers'])]
    raises a [ValueError] on the [NaN] of a row without followers,
    before the message of that row is sent. *)
Fixpoint send_rows (i : nat) (rows : list TopArtist.t)
  : list report * option Py.exn :=
  match rows with
  | [] => ([], None)
  | row :: rest =>
      match TopArtist.spotify_followers row with
      | None => ([], Some Py.ValueError)
      | Some followers =>
          let message :=
            TopEntry i (TopArtist.name row) (TopArtist.spotify_url row)
                     followers in
          let image :=
            match TopArtist.spotify_image row with
            | Some url => [Photo url]
            | None => []
            end in
          let '(more, e) := send_rows (S i) rest in
          (message :: image ++ more, e)
      end
  end.

Section Results.
Context {SK : SortKind}.

(** [str.lower], the table of [get_country_data], and what writing the
    collected table to its file answers. *)
Variable lower : Py.str -> Py.str.
Variable get_country_data : list Country.t.
Variable to_csv : list Enriched.t -> Py.result unit.

(** From [config.py]. *)
Variable SPOTIFY_CLIENT_ID SPOTIFY_CLIENT_SECRET : Py.str.

(** [ArtistVisualizer.create_summary_text], taken as given. *)
Variable create_summary_text : Visualizer -> Py.result Py.str.

(** [send_top_artists] *)
Definition send_top_artists (visualizer : Visualizer)
  : list report * option Py.exn :=
  let top_artists := Report.get_top_artists_data (artist_df visualizer) in
  let '(sent, e) := send_rows 1 top_artists in
  (TopHeader (length top_artists) :: sent, e).

(** The two statements that close a failed run: the state goes to
    ["idle"] and ["progress_message_id"] is dropped. *)
Definition settle_idle (user_id : Z) (ud : user_data)
  : option user_data :=
  match get user_id ud with
  | Some session =>
      let session := Session.with_state (Some idle) session in
      let session := Session.with_progress_message_id None session in
      Some (setitem user_id session ud)
  | None => None
  end.

(** The two statements that close a run that succeeded. *)
Definition settle_results (user_id : Z) (visualizer : Visualizer)
           (ud : user_data) : option user_data :=
  match get user_id ud with
  | Some session =>
      let session := Session.with_state (Some showing_results) session in
      let session := Session.with_visualizer (Some visualizer) session in
      Some (setitem user_id session ud)
  | None => None
  end.

(** The [except Exception] branch; its own [KeyError] is not caught. *)
Definition failed (e : exn) (sent : list report) (user_id : Z)
           (ud : user_data) : list report * option user_data :=
  (sent ++ [ErrorOccurred e], settle_idle user_id ud).

(** [process_data], run without anything else writing to [user_data] in
    between; the store is [None] when the call ends with a [KeyError].
    [server] and [world] are what the catalog and Spotify answer to the
    collector of this run. *)
Definition process_data (server : Z -> Response CatalogPage)
           (world : nat -> SpotifyAPI.World)
           (user_id : Z) (genre : Py.str) (count : Z) (ud : user_data)
  : list report * option user_data :=
  let spotify := SpotifyAPI.init SPOTIFY_CLIENT_ID SPOTIFY_CLIENT_SECRET in
  match collect_all_data lower get_country_data to_csv
                         count server spotify world
  with
  | Py.Raise e => failed (Raised e) [] user_id ud
  | Py.Ok (artist_df, countries_df) =>
      if (length artist_df =? 0)%nat then
        match settle_idle user_id ud with
        | Some ud => ([CouldNotFind genre], Some ud)
        | None => failed NoSession [CouldNotFind genre] user_id ud
        end
      else
        let visualizer := mkVisualizer artist_df countries_df genre in
        match create_summary_text visualizer with
        | Py.Raise e => failed (Raised e) [] user_id ud
        | Py.Ok summary =>
            let '(top, e) := send_top_artists visualizer in
            match e with
            | Some e => failed (Raised e) (Summary summary :: top) user_id ud
            | None =>
                let sent := Summary summary :: top ++ [PlotMenu] in
                match settle_results user_id visualizer ud with
                | Some ud => (sent, Some ud)
                | None => failed NoSession sent user_id ud
                end
            end
        end
  end.

End Results.

End Bot.

(* ================================================================== *)
(** * Part IV: further properties                                      *)
(* ================================================================== *)

(** ** The catalog client *)

Module CatalogFetch.
Import ArtistDataCollector.

(** The test of [fetch_artists] on a response: status 200 and a body. *)
Definition page_ok (response : Response CatalogPage) : bool :=
  (status_code response =? 200) && negb (content_empty response).

(** The number of pages the loop can ask for. *)
Definition pages_wanted (number_of_artists : Z) : nat :=
  Z.to_nat ((number_of_artists + 99) / 100).

Lemma range_length (n : Z) :
  length (range 2 (n + 2) 100) = pages_wanted n.
Proof.
  unfold range, pages_wanted. rewrite length_map, length_seq.
  f_equal. f_equal. lia.
Qed.

Lemma fetch_pages_source server offsets : forall acc r,
  In r (fst (fetch_pages server offsets acc)) ->
  In r acc \/
  exists pre offset post page,
    offsets = pre ++ offset :: post /\
    (forall o, In o pre -> page_ok (server o) = true) /\
    page_ok (server offset) = true /\
    json (server offset) = Some page /\
    In r (page_artists page).
Proof.
  induction offsets as [|o rest IH]; intros acc r; cbn [fetch_pages].
  - cbn. auto.
  - fold (page_ok (server o)).
    destruct (page_ok (server o)) eqn:Eok; [|cbn; auto].
    assert (Hshift : forall acc',
      (In r acc' \/
       exists pre offset post page,
         rest = pre ++ offset :: post /\
         (forall o', In o' pre -> page_ok (server o') = true) /\
         page_ok (server offset) = true /\
         json (server offset) = Some page /\ In r (page_artists page)) ->
      In r acc' \/
      exists pre offset post page,
        o :: rest = pre ++ offset :: post /\
        (forall o', In o' pre -> page_ok (server o') = true) /\
        page_ok (server offset) = true /\
        json (server offset) = Some page /\ In r (page_artists page)).
    { intros acc' [H|(pre & offset & post & page & -> & Hpre & Hok & Hj & Hr)];
        [now left|right].
      exists (o :: pre), offset, post, page. repeat split; auto.
      intros o' [<-|Ho']; auto. }
    destruct (json (server o)) as [data|] eqn:Ej.
    + destruct (fetch_pages server rest (acc ++ page_artists data))
        as [all log] eqn:Ef. cbn [fst]. intros Hr.
      specialize (IH (acc ++ page_artists data) r). rewrite Ef in IH.
      destruct (Hshift _ (IH Hr)) as [Hacc|Hex]; [|now right].
      apply in_app_or in Hacc as [Hacc|Hbatch]; [now left|right].
      exists [], o, rest, data. repeat split; auto.
    + destruct (fetch_pages server rest acc) as [all log] eqn:Ef.
      cbn [fst]. intros Hr. specialize (IH acc r). rewrite Ef in IH.
      apply Hshift. auto.
Qed.

(** X1.  Every record [fetch_artists] returns was on a page that answered
    with status 200, a non-empty body and valid JSON, at one of the
    offsets 2, 102, 202, ... of the loop, and every page asked for before
    it had answered with status 200 and a non-empty body. *)
Theorem fetched_record_has_page (n : Z) server (r : Raw.t) :
  In r (fst (fetch_artists n server)) ->
  exists pre offset post page,
    range 2 (n + 2) 100 = pre ++ offset :: post /\
    (forall o, In o pre -> page_ok (server o) = true) /\
    page_ok (server offset) = true /\
    json (server offset) = Some page /\
    In r (page_artists page).
Proof.
  unfold fetch_artists.
  destruct (fetch_pages server (range 2 (n + 2) 100) []) as [all log] eqn:Ef.
  cbn [fst]. intros Hr.
  pose proof (fetch_pages_source server (range 2 (n + 2) 100) [] r) as H.
  rewrite Ef in H. destruct (H Hr) as [[]|Hex]. exact Hex.
Qed.

Lemma fetch_pages_ext server server' offsets : forall acc,
  (forall o, In o offsets -> server' o = server o) ->
  fetch_pages server' offsets acc = fetch_pages server offsets acc.
Proof.
  induction offsets as [|o rest IH]; intros acc H; [reflexivity|].
  cbn [fetch_pages]. rewrite (H o (or_introl eq_refl)).
  destruct ((status_code (server o) =? 200) && negb (content_empty (server o)));
    [|reflexivity].
  destruct (json (server o)); rewrite IH; auto; intros; apply H; now right.
Qed.

Lemma fetch_pages_cut server pre o post : forall acc,
  page_ok (server o) = false ->
  fetch_pages server (pre ++ o :: post) acc =
  fetch_pages server (pre ++ [o]) acc.
Proof.
  induction pre as [|p pre IH]; intros acc Hbad; cbn [app fetch_pages].
  - fold (page_ok (server o)). now rewrite Hbad.
  - destruct ((status_code (server p) =? 200)
              && negb (content_empty (server p))); [|reflexivity].
    destruct (json (server p)); now rewrite IH.
Qed.

(** X2.  The loop ends at the first page that answers with another status
    or an empty body: what the pages after it would answer changes
    neither the records returned nor the messages. *)
Theorem fetch_stops_at_bad_response (n : Z) server server' pre o post :
  range 2 (n + 2) 100 = pre ++ o :: post ->
  page_ok (server o) = false ->
  (forall x, In x (pre ++ [o]) -> server' x = server x) ->
  fetch_artists n server' = fetch_artists n server.
Proof.
  intros Hrange Hbad Hagree. unfold fetch_artists. rewrite Hrange.
  assert (Hbad' : page_ok (server' o) = false).
  { rewrite Hagree; [assumption|]. apply in_or_app. right. now left. }
  rewrite (fetch_pages_cut server' pre o post [] Hbad').
  rewrite (fetch_pages_cut server pre o post [] Hbad).
  now rewrite (fetch_pages_ext server server' (pre ++ [o]) [] Hagree).
Qed.

Lemma fetch_pages_bounds server offsets : forall acc,
  (length (snd (fetch_pages server offsets acc)) <= length offsets)%nat /\
  ((forall o page, In o offsets -> json (server o) = Some page ->
                   (length (page_artists page) <= 100)%nat) ->
   (length (fst (fetch_pages server offsets acc))
    <= length acc + 100 * length offsets)%nat).
Proof.
  induction offsets as [|o rest IH]; intros acc; cbn [fetch_pages].
  - cbn. lia.
  - destruct ((status_code (server o) =? 200)
              && negb (content_empty (server o))); [|cbn; lia].
    destruct (json (server o)) as [data|] eqn:Ej.
    + destruct (IH (acc ++ page_artists data)) as [Hlog Hrec].
      destruct (fetch_pages server rest (acc ++ page_artists data))
        as [all log]. cbn [fst snd length] in *. split; [lia|].
      intros Hsize.
      assert (length (page_artists data) <= 100)%nat
        by (apply (Hsize o data); [now left|exact Ej]).
      rewrite length_app in Hrec.
      assert (length all <= length acc + length (page_artists data)
                            + 100 * length rest)%nat
        by (apply Hrec; intros o' page' Hin Hj;
            apply (Hsize o' page'); [now right|exact Hj]).
      lia.
    + destruct (IH acc) as [Hlog Hrec].
      destruct (fetch_pages server rest acc) as [all log].
      cbn [fst snd length] in *. split; [lia|].
      intros Hsize.
      assert (length all <= length acc + 100 * length rest)%nat
        by (apply Hrec; intros o' page' Hin Hj;
            apply (Hsize o' page'); [now right|exact Hj]).
      lia.
Qed.

(** X3.  [fetch_artists] asks for at most [ceil(n / 100)] pages, none at
    all when [n] is not positive.  With pages of at most 100 records it
    returns at most 100 records per page asked for, which can be more than
    the [n] that was wanted. *)
Theorem fetch_asks_for_bounded_pages (n : Z) server :
  (length (snd (fetch_artists n server)) <= pages_wanted n + 2)%nat /\
  (n <= 0 ->
   fetch_artists n server = ([], [Fetching; TotalFetched 0])) /\
  ((forall o page, json (server o) = Some page ->
                   (length (page_artists page) <= 100)%nat) ->
   (length (fst (fetch_artists n server)) <= 100 * pages_wanted n)%nat).
Proof.
  unfold fetch_artists.
  pose proof (fetch_pages_bounds server (range 2 (n + 2) 100) [])
    as [Hlog Hrec].
  rewrite range_length in Hlog, Hrec.
  split; [|split].
  - destruct (fetch_pages server (range 2 (n + 2) 100) []) as [all log].
    cbn [fst snd length] in *. rewrite length_app. cbn. lia.
  - intros Hn. unfold range.
    replace (Z.to_nat ((n + 2 - 2 + 100 - 1) / 100)) with 0%nat; [reflexivity|].
    assert ((n + 2 - 2 + 100 - 1) / 100 <= 0); [|lia].
    apply Z.lt_succ_r. apply Z.div_lt_upper_bound; lia.
  - intros Hsize.
    destruct (fetch_pages server (range 2 (n + 2) 100) []) as [all log].
    cbn [fst snd length] in *.
    assert (length all <= 0 + 100 * pages_wanted n)%nat
      by (apply Hrec; intros; eapply Hsize; eauto).
    lia.
Qed.

(** *** Concrete catalogs *)

(** The catalog of [Enrichment.one_page], with a page at offset 202
    that would have answered. *)
Definition page_after_gap (offset : Z) : Response CatalogPage :=
  if offset =? 202
  then mkResponse 200 false
                  (Some (mkCatalogPage (Some [Normalizer.kraftwerk])))
  else Enrichment.one_page offset.

Lemma fetched_record_has_page_witness :
  In Normalizer.abba (fst (fetch_artists 150 Enrichment.one_page)) /\
  exists pre offset post page,
    range 2 (150 + 2) 100 = pre ++ offset :: post /\
    (forall o, In o pre -> page_ok (Enrichment.one_page o) = true) /\
    page_ok (Enrichment.one_page offset) = true /\
    json (Enrichment.one_page offset) = Some page /\
    In Normalizer.abba (page_artists page).
Proof.
  assert (H : In Normalizer.abba
                 (fst (fetch_artists 150 Enrichment.one_page)))
    by (vm_compute; now left).
  split; [exact H|].
  exact (fetched_record_has_page 150 Enrichment.one_page Normalizer.abba H).
Defined.

Lemma fetch_stops_at_bad_response_witness :
  fetch_artists 250 page_after_gap = fetch_artists 250 Enrichment.one_page.
Proof.
  apply (fetch_stops_at_bad_response 250 Enrichment.one_page page_after_gap
           [2] 102 [202]).
  - reflexivity.
  - reflexivity.
  - intros x [<-|[<-|[]]]; reflexivity.
Defined.

Lemma fetch_asks_for_bounded_pages_witness :
  fetch_artists 0 Enrichment.one_page = ([], [Fetching; TotalFetched 0]) /\
  (length (fst (fetch_artists 150 Enrichment.one_page))
   <= 100 * pages_wanted 150)%nat.
Proof.
  split.
  - apply (fetch_asks_for_bounded_pages 0 Enrichment.one_page). lia.
  - apply (fetch_asks_for_bounded_pages 150 Enrichment.one_page).
    intros o page. unfold Enrichment.one_page.
    destruct (o =? 2); [|discriminate]. intros [= <-]. cbn. lia.
Defined.

End CatalogFetch.

(** ** Lookups against the Spotify client *)

Module Lookups.
Import SpotifyAPI ArtistDataCollector ExtractYear TokenCache Enrichment.

(** The token endpoint answers with another status than 200, or with a
    body that is not valid JSON. *)
Definition token_fails (w : World) : Prop :=
  status_code (token_response w) <> 200 \/ json (token_response w) = None.

(** The token endpoint answers 200 with the JSON body [tj]. *)
Definition token_answer (w : World) (tj : TokenJson) : Prop :=
  status_code (token_response w) = 200 /\ json (token_response w) = Some tj.

(** The token endpoint answers and line 42 can record an expiry. *)
Definition token_granted (w : World) : Prop :=
  exists tj recorded,
    token_answer w tj /\ new_expiry (now_fetched w) tj = Py.Ok recorded.

(** The search endpoint answers 200 with a body that is not valid JSON. *)
Definition search_malformed (w : World) : Prop :=
  status_code (search_response w) = 200 /\ json (search_response w) = None.

(** What [get_token] raises on a failed token request: the [Exception]
    of line 45, or the [ValueError] of [result.json()]. *)
Definition token_error (w : World) : Py.exn :=
  if status_code (token_response w) =? 200 then Py.ValueError
  else Py.Exception (status_code (token_response w)).

(** What a search that is sent and decodes hands back: the top match of a
    200 answer, [None] otherwise. *)
Definition lookup_result (w : World) : option Artist :=
  if status_code (search_response w) =? 200 then
    match json (search_response w) with
    | Some json_result => hd_error (artists_items json_result)
    | None => None
    end
  else None.

(** The names searched for, in the order of the requests. *)
Definition queries (evs : list event) : list Py.str :=
  flat_map (fun e => match e with Search _ q => [q] | _ => [] end) evs.

(** The lookup has to ask for a token: none is cached, or the cached one
    has expired. *)
Definition needs_token (self : SpotifyAPI.t) (now : Z) : Prop :=
  no_token self \/ cached_expired self now.

(** The lookup gets to send its search: the cached token is valid, or a
    token was asked for and granted. *)
Definition token_in_hand (self : SpotifyAPI.t) (w : World) : Prop :=
  cached_valid self (now_check w) \/
  (needs_token self (now_check w) /\ token_granted w).

(** The outcome of one lookup, case by case. *)
Lemma search_artist_outcome self artist_name w r self' evs :
  search_artist self artist_name w = (r, self', evs) ->
  match r with
  | Py.Raise e =>
      (without_expiry self /\ e = Py.TypeError /\ self' = self /\
       queries evs = [] /\ token_requests evs = 0%nat)
      \/
      (needs_token self (now_check w) /\ token_fails w /\
       e = token_error w /\ self' = self /\ queries evs = [] /\
       token_requests evs = 1%nat)
      \/
      (needs_token self (now_check w) /\
       (exists tj,
          token_answer w tj /\ new_expiry (now_fetched w) tj = Py.Raise e /\
          self' = with_token (access_token tj) self) /\
       queries evs = [] /\ token_requests evs = 1%nat)
      \/
      (token_in_hand self w /\ search_malformed w /\ e = Py.ValueError /\
       queries evs = [artist_name])
  | Py.Ok result =>
      token_in_hand self w /\ ~ search_malformed w /\
      result = lookup_result w /\ queries evs = [artist_name]
  end.
Proof.
  unfold search_artist, get_token, request_token.
  unfold token_in_hand, needs_token, token_granted, token_answer.
  unfold cached_valid, no_token, cached_expired, without_expiry.
  unfold token_fails, search_malformed, token_error, lookup_result.
  assert (Hsearch : forall self0 evs0,
    (exists tok,
       (if status_code (search_response w) =? 200
        then match json (search_response w) with
             | Some json_result =>
                 (Py.Ok (hd_error (artists_items json_result)), self0,
                  evs0 ++ [Search tok artist_name])
             | None =>
                 (Py.Raise Py.ValueError, self0,
                  evs0 ++ [Search tok artist_name])
             end
        else (Py.Ok None, self0, evs0 ++ [Search tok artist_name]))
       = (r, self', evs)) ->
    queries evs0 = [] ->
    match r with
    | Py.Raise e =>
        (status_code (search_response w) = 200 /\
         json (search_response w) = None) /\
        e = Py.ValueError /\ queries evs = [artist_name]
    | Py.Ok result =>
        ~ (status_code (search_response w) = 200 /\
           json (search_response w) = None) /\
        result =
          (if status_code (search_response w) =? 200
           then match json (search_response w) with
                | Some json_result => hd_error (artists_items json_result)
                | None => None
                end
           else None) /\
        queries evs = [artist_name]
    end).
  { intros self0 evs0 [tok E] Hq.
    assert (Hqs : queries (evs0 ++ [Search tok artist_name]) = [artist_name])
      by (unfold queries in *; rewrite flat_map_app, Hq; reflexivity).
    destruct (status_code (search_response w) =? 200) eqn:Es;
      [destruct (json (search_response w)) as [j|] eqn:Ej|];
      injection E as <- <- <-.
    - split; [now intros [_ ?]|]. auto.
    - apply Z.eqb_eq in Es. auto.
    - apply Z.eqb_neq in Es. split; [now intros [? _]|]. auto. }
  destruct (truthy (token self)) eqn:Etok.
  - destruct (token_expiry self) as [exp|] eqn:Eexp.
    + destruct (exp >? now_check w) eqn:Egt.
      * (* the cached token is still good *)
        intros E.
        assert (Hcached : true = true /\
                          exists e, Some exp = Some e /\ now_check w < e)
          by (split; [reflexivity|exists exp; split; [reflexivity|lia]]).
        specialize (Hsearch self [Now (now_check w)]
                            (ex_intro _ (token self) E) eq_refl).
        destruct r as [result|e].
        -- destruct Hsearch as (? & ? & ?). auto.
        -- destruct Hsearch as (? & ? & ?). right. right. right. auto.
      * (* the cached token has expired *)
        assert (Hneeds : true = false \/
                         true = true /\
                         exists e, Some exp = Some e /\ e <= now_check w)
          by (right; split; [reflexivity|exists exp; split; [reflexivity|lia]]).
        destruct (status_code (token_response w) =? 200) eqn:Et;
          [destruct (json (token_response w)) as [tj|] eqn:Etj;
           [destruct (new_expiry (now_fetched w) tj) as [recorded|e0] eqn:Erec|]|].
        -- intros E. apply Z.eqb_eq in Et.
           specialize (Hsearch _ [Now (now_check w); TokenRequest;
                                  Now (now_fetched w)]
                               (ex_intro _ _ E) eq_refl).
           destruct r as [result|e].
           ++ destruct Hsearch as (? & ? & ?).
              split; [right; split; [exact Hneeds|exists tj, recorded]|];
                auto.
           ++ destruct Hsearch as (? & ? & ?). right. right. right.
              split; [right; split; [exact Hneeds|exists tj, recorded]|];
                auto.
        -- intros [= <- <- <-]. apply Z.eqb_eq in Et. cbn.
           right. right. left. split; [exact Hneeds|].
           split; [|auto]. exists tj. auto.
        -- intros [= <- <- <-]. cbn. right. left.
           split; [exact Hneeds|]. auto 6.
        -- intros [= <- <- <-]. cbn. apply Z.eqb_neq in Et. right. left.
           split; [exact Hneeds|]. auto 6.
    + (* a token without expiry *)
      intros [= <- <- <-]. cbn. left. auto 6.
  - (* no token is cached *)
    assert (Hneeds : false = false \/
                     false = true /\
                     exists e, token_expiry self = Some e /\ e <= now_check w)
      by (left; reflexivity).
    destruct (status_code (token_response w) =? 200) eqn:Et;
      [destruct (json (token_response w)) as [tj|] eqn:Etj;
       [destruct (new_expiry (now_fetched w) tj) as [recorded|e0] eqn:Erec|]|].
    + intros E. apply Z.eqb_eq in Et.
      specialize (Hsearch _ [TokenRequest; Now (now_fetched w)]
                          (ex_intro _ _ E) eq_refl).
      destruct r as [result|e].
      * destruct Hsearch as (? & ? & ?).
        split; [right; split; [exact Hneeds|exists tj, recorded]|]; auto.
      * destruct Hsearch as (? & ? & ?). right. right. right.
        split; [right; split; [exact Hneeds|exists tj, recorded]|]; auto.
    + intros [= <- <- <-]. apply Z.eqb_eq in Et. cbn.
      right. right. left. split; [exact Hneeds|].
      split; [|auto]. exists tj. auto.
    + intros [= <- <- <-]. cbn. right. left.
      split; [exact Hneeds|]. auto 6.
    + intros [= <- <- <-]. cbn. apply Z.eqb_neq in Et. right. left.
      split; [exact Hneeds|]. auto 6.
Qed.

(** X4.  A lookup raises in four cases only.
    - A token is cached with no expiry next to it (line 42 raised in an
      earlier lookup): a [TypeError] at line 23, without any request.
    - It had to ask for a token and that request failed: the
      [Exception] carrying the status (or the [ValueError] of a body that
      is not JSON); the object is as it was and no search is sent.
    - It had to ask for a token, the token came, and line 42 raised on
      the lifetime declared with it: that exception; the object keeps
      the new token, and no search is sent.
    - The search answered 200 with a body that is not JSON: a
      [ValueError].
    In every other case it returns the top match of a 200 answer, and
    [None] for any other status. *)
Theorem lookup_raises_in_four_cases self artist_name w r self' evs :
  search_artist self artist_name w = (r, self', evs) ->
  match r with
  | Py.Raise e =>
      (without_expiry self /\ e = Py.TypeError /\ self' = self /\
       queries evs = [] /\ token_requests evs = 0%nat)
      \/
      (needs_token self (now_check w) /\ token_fails w /\
       e = token_error w /\ self' = self /\ queries evs = [] /\
       token_requests evs = 1%nat)
      \/
      (needs_token self (now_check w) /\
       (exists tj,
          token_answer w tj /\ new_expiry (now_fetched w) tj = Py.Raise e /\
          self' = with_token (access_token tj) self) /\
       queries evs = [] /\ token_requests evs = 1%nat)
      \/
      (token_in_hand self w /\ search_malformed w /\ e = Py.ValueError /\
       queries evs = [artist_name])
  | Py.Ok result =>
      token_in_hand self w /\ ~ search_malformed w /\
      result = lookup_result w /\ queries evs = [artist_name]
  end.
Proof. apply search_artist_outcome. Qed.

(** Once a lookup has returned, a cached token has an expiry next to
    it. *)
Lemma search_artist_ok_state self artist_name w result self' evs :
  search_artist self artist_name w = (Py.Ok result, self', evs) ->
  ~ without_expiry self'.
Proof.
  unfold search_artist, get_token, request_token, without_expiry.
  destruct (truthy (token self)) eqn:Etok.
  - destruct (token_expiry self) as [exp|] eqn:Eexp; [|discriminate].
    destruct (exp >? now_check w).
    + destruct (status_code (search_response w) =? 200);
        [destruct (json (search_response w))|];
        intros [= _ <- _]; intros [_ H]; congruence.
    + destruct (status_code (token_response w) =? 200);
        [destruct (json (token_response w)) as [tj|];
         [destruct (new_expiry (now_fetched w) tj) as [recorded|e0]|]|];
        try discriminate.
      destruct (status_code (search_response w) =? 200);
        [destruct (json (search_response w))|];
        intros [= _ <- _]; intros [_ H]; discriminate H.
  - destruct (status_code (token_response w) =? 200);
      [destruct (json (token_response w)) as [tj|];
       [destruct (new_expiry (now_fetched w) tj) as [recorded|e0]|]|];
      try discriminate.
    destruct (status_code (search_response w) =? 200);
      [destruct (json (search_response w))|];
      intros [= _ <- _]; intros [_ H]; discriminate H.
Qed.

Lemma queries_app evs evs' :
  queries (evs ++ evs') = queries evs ++ queries evs'.
Proof. apply flat_map_app. Qed.

Lemma token_requests_app evs evs' :
  token_requests (evs ++ evs') =
  (token_requests evs + token_requests evs')%nat.
Proof. unfold token_requests. now rewrite filter_app, length_app. Qed.

(** A lookup with a valid cached token: the clock is read, the search is
    sent with that token, and the object stays as it is. *)
Lemma search_artist_cached self artist_name w r self' evs :
  cached_valid self (now_check w) ->
  search_artist self artist_name w = (r, self', evs) ->
  self' = self /\
  evs = [Now (now_check w); Search (token self) artist_name].
Proof.
  intros (Htok & expiry & Eexp & Hlt).
  unfold search_artist, get_token. rewrite Htok, Eexp.
  replace (expiry >? now_check w) with true by (symmetry; lia).
  destruct (status_code (search_response w) =? 200);
    [destruct (json (search_response w))|];
    now intros [= <- <- <-].
Qed.

(** The cells [store_match] leaves in a row of the label. *)
Definition stored (found : Artist) (e : Enriched.t) : Enriched.t :=
  Enriched.mk (Enriched.artist e)
              (Some (followers_total found))
              (Some (external_urls_spotify found))
              (Some (popularity found))
              (match images found with
               | url :: _ => Some url
               | [] => Enriched.spotify_image e
               end).

Lemma store_match_map idx found df :
  store_match idx found df =
  map (fun e => if Py.str_eqb (Row.idx (Enriched.artist e)) idx
                then stored found e else e) df.
Proof.
  unfold store_match, at_set, stored.
  destruct (images found) as [|url urls]; rewrite !map_map;
    apply map_ext; intros e;
    destruct (Py.str_eqb (Row.idx (Enriched.artist e)) idx) eqn:E;
    repeat (progress (cbn; try rewrite E)); reflexivity.
Qed.

Lemma store_match_length idx found df :
  length (store_match idx found df) = length df.
Proof. rewrite store_match_map. apply length_map. Qed.

(** The loop of [enrich_with_spotify], lookup by lookup. *)
Lemma enrich_rows_outcome world rows :
  forall k0 spotify df r spotify' evs,
  enrich_rows world k0 rows spotify df = (r, spotify', evs) ->
  exists m, (m <= length rows)%nat /\
    queries evs = map Row.name (firstn m rows) /\
    match r with
    | Py.Ok out =>
        m = length rows /\ length out = length df /\
        forall k, (k < length rows)%nat ->
                  ~ search_malformed (world (k0 + k)%nat)
    | Py.Raise e =>
        exists k, (k < length rows)%nat /\
          (forall j, (j < k)%nat ->
                     ~ search_malformed (world (k0 + j)%nat)) /\
          ((search_malformed (world (k0 + k)%nat) /\
            e = Py.ValueError /\ m = S k) \/
           (token_fails (world (k0 + k)%nat) /\
            e = token_error (world (k0 + k)%nat) /\ m = k) \/
           ((exists tj,
               token_answer (world (k0 + k)%nat) tj /\
               new_expiry (now_fetched (world (k0 + k)%nat)) tj = Py.Raise e) /\
            m = k) \/
           (k = 0%nat /\ without_expiry spotify /\ e = Py.TypeError /\
            m = 0%nat))
    end.
Proof.
  induction rows as [|row rows IH]; intros k0 spotify df r spotify' evs;
    cbn [enrich_rows].
  - intros [= <- _ <-]. exists 0%nat. cbn. repeat split; auto. intros k Hk. lia.
  - destruct (search_artist spotify (Row.name row) (world k0))
      as [[r1 spotify1] evs1] eqn:Es.
    pose proof (search_artist_outcome _ _ _ _ _ _ Es) as Hout.
    destruct r1 as [result|e].
    + pose proof (search_artist_ok_state _ _ _ _ _ _ Es) as Hstate.
      destruct Hout as (_ & Hwell & _ & Hq).
      match goal with
      | |- context [enrich_rows world (S k0) rows spotify1 ?d] =>
          assert (Hlen : length d = length df)
            by (destruct result; [apply store_match_length|reflexivity]);
          destruct (enrich_rows world (S k0) rows spotify1 d)
            as [[r2 spotify2] evs2] eqn:Er
      end.
      intros [= <- _ <-].
      destruct (IH _ _ _ _ _ _ Er) as (m & Hm & Hqs & Hr).
      exists (S m). split; [cbn; lia|].
      split; [rewrite queries_app, Hq, Hqs; reflexivity|].
      destruct r2 as [out|e].
      * destruct Hr as (-> & Hl & Hrest). split; [reflexivity|].
        split; [congruence|].
        intros [|k] Hk; [now rewrite Nat.add_0_r|].
        rewrite Nat.add_succ_r. apply Hrest. cbn in Hk. lia.
      * destruct Hr as (k & Hk & Hbefore & Hcase).
        exists (S k). split; [cbn; lia|].
        split.
        -- intros [|j] Hj; [now rewrite Nat.add_0_r|].
           rewrite Nat.add_succ_r. apply Hbefore. lia.
        -- rewrite Nat.add_succ_r.
           destruct Hcase as [(? & ? & ->)|[(? & ? & ->)|[(? & ->)|H]]];
             auto.
           destruct H as (_ & Hno & _). contradiction.
    + intros [= <- _ <-].
      destruct Hout as [(Hno & -> & _ & Hq & _)
                       |[(_ & Hfail & -> & _ & Hq & _)
                        |[(_ & (tj & Hans & Hexp & _) & Hq & _)
                         |(_ & Hmal & -> & Hq)]]].
      * exists 0%nat. split; [cbn; lia|]. split; [exact Hq|].
        exists 0%nat. rewrite Nat.add_0_r.
        split; [cbn; lia|]. split; [intros j Hj; lia|]. auto 8.
      * exists 0%nat. split; [cbn; lia|]. split; [exact Hq|].
        exists 0%nat. rewrite Nat.add_0_r.
        split; [cbn; lia|]. split; [intros j Hj; lia|]. auto.
      * exists 0%nat. split; [cbn; lia|]. split; [exact Hq|].
        exists 0%nat. rewrite Nat.add_0_r.
        split; [cbn; lia|]. split; [intros j Hj; lia|]. eauto 8.
      * exists 1%nat. split; [cbn; lia|]. split; [exact Hq|].
        exists 0%nat. rewrite Nat.add_0_r.
        split; [cbn; lia|]. split; [intros j Hj; lia|]. auto.
Qed.

(** X5.  [enrich_with_spotify] sends one search per row, in the order of
    the rows and for the name of the row, and stops at the first lookup
    that raises.  It returns a table, with as many rows as it was given,
    unless a lookup raised, and that is the case when a search answered
    200 with a body that is not JSON (a [ValueError], after the search),
    when a token request failed (the exception of the request), when
    line 42 raised on the lifetime declared with a token (that
    exception), or when the object came in with a token and no expiry
    (a [TypeError] at the first row): in the last three before the
    search of that row. *)
Theorem enrichment_searches_each_row_in_order
        spotify world artist_df r spotify' evs :
  enrich_with_spotify spotify world artist_df = (r, spotify', evs) ->
  exists m, (m <= length artist_df)%nat /\
    queries evs = map Row.name (firstn m artist_df) /\
    match r with
    | Py.Ok out =>
        m = length artist_df /\ length out = length artist_df /\
        forall k, (k < length artist_df)%nat -> ~ search_malformed (world k)
    | Py.Raise e =>
        exists k, (k < length artist_df)%nat /\
          (forall j, (j < k)%nat -> ~ search_malformed (world j)) /\
          ((search_malformed (world k) /\ e = Py.ValueError /\ m = S k) \/
           (token_fails (world k) /\ e = token_error (world k) /\ m = k) \/
           ((exists tj,
               token_answer (world k) tj /\
               new_expiry (now_fetched (world k)) tj = Py.Raise e) /\
            m = k) \/
           (k = 0%nat /\ without_expiry spotify /\ e = Py.TypeError /\
            m = 0%nat))
    end.
Proof.
  unfold enrich_with_spotify. intros E.
  destruct (enrich_rows_outcome _ _ _ _ _ _ _ _ E) as (m & Hm & Hq & Hr).
  exists m. split; [exact Hm|]. split; [exact Hq|].
  destruct r as [out|e]; [|exact Hr].
  destruct Hr as (-> & Hl & Hrest). rewrite length_map in Hl. auto.
Qed.

Lemma enrich_rows_cached world rows : forall k spotify df r spotify' evs,
  (forall j, (j < length rows)%nat ->
             cached_valid spotify (now_check (world (k + j)%nat))) ->
  enrich_rows world k rows spotify df = (r, spotify', evs) ->
  spotify' = spotify /\ token_requests evs = 0%nat /\
  forall bearer q, In (Search bearer q) evs -> bearer = token spotify.
Proof.
  induction rows as [|row rows IH]; intros k spotify df r spotify' evs Hvalid;
    cbn [enrich_rows].
  - intros [= _ <- <-]. repeat split. intros bearer q [].
  - destruct (search_artist spotify (Row.name row) (world k))
      as [[r1 spotify1] evs1] eqn:Es.
    apply search_artist_cached in Es as [-> ->];
      [|rewrite <- (Nat.add_0_r k); apply Hvalid; cbn; lia].
    destruct r1 as [result|e].
    + match goal with
      | |- context [enrich_rows world (S k) rows spotify ?d] =>
          destruct (enrich_rows world (S k) rows spotify d)
            as [[r2 spotify2] evs2] eqn:Er
      end.
      intros [= _ <- <-].
      apply IH in Er as (-> & Hreq & Hbearer).
      * split; [reflexivity|]. split; [cbn; exact Hreq|].
        intros bearer q [[=]|[[= <- _]|Hin]]; [reflexivity|eauto].
      * intros j Hj. replace (S k + j)%nat with (k + S j)%nat by lia.
        apply Hvalid. cbn. lia.
    + intros [= _ <- <-]. repeat split.
      intros bearer q [[=]|[[= <- _]|[]]]. reflexivity.
Qed.

(** A lookup without a token in hand, when the token endpoint answers:
    either line 42 records the expiry of the new token and the search is
    sent with it, or line 42 raises and the object keeps the new
    token. *)
Lemma search_artist_new_token self artist_name w tj r self' evs :
  truthy (token self) = false ->
  status_code (token_response w) = 200 ->
  json (token_response w) = Some tj ->
  search_artist self artist_name w = (r, self', evs) ->
  match new_expiry (now_fetched w) tj with
  | Py.Ok recorded =>
      self' = with_token_expiry (Some recorded)
                (with_token (access_token tj) self) /\
      evs = [TokenRequest; Now (now_fetched w);
             Search (access_token tj) artist_name]
  | Py.Raise e =>
      r = Py.Raise e /\ self' = with_token (access_token tj) self /\
      evs = [TokenRequest; Now (now_fetched w)]
  end.
Proof.
  intros Htok Hst Hj. unfold search_artist, get_token, request_token.
  rewrite Htok, Hst, Hj. cbn [Z.eqb Pos.eqb].
  destruct (new_expiry (now_fetched w) tj) as [recorded|e].
  - destruct (status_code (search_response w) =? 200);
      [destruct (json (search_response w))|];
      now intros [= <- <- <-].
  - now intros [= <- <- <-].
Qed.

(** X6.  A run of [enrich_with_spotify] on a new [SpotifyAPI] object asks
    for a token once, at the first row, and sends every search with that
    token, when the token endpoint hands out a non-empty token and the
    clock readings of the later lookups all come before the expiry
    recorded for it.  (When line 42 cannot record an expiry the run ends
    at the first row, after that one request and before any search.) *)
Theorem enrichment_requests_one_token
        cid secret world row rest tj tok r spotify' evs :
  status_code (token_response (world 0%nat)) = 200 ->
  json (token_response (world 0%nat)) = Some tj ->
  access_token tj = Some tok -> tok <> [] ->
  (forall k recorded,
     (1 <= k <= length rest)%nat ->
     new_expiry (now_fetched (world 0%nat)) tj = Py.Ok recorded ->
     now_check (world k) < recorded) ->
  enrich_with_spotify (init cid secret) world (row :: rest)
  = (r, spotify', evs) ->
  token_requests evs = 1%nat /\
  (forall bearer q, In (Search bearer q) evs -> bearer = Some tok) /\
  token spotify' = Some tok.
Proof.
  intros Hst Hj Htok Hne Hclock.
  unfold enrich_with_spotify. cbn [enrich_rows].
  destruct (search_artist (init cid secret) (Row.name row) (world 0%nat))
    as [[r1 self1] evs1] eqn:Es.
  apply (search_artist_new_token _ _ _ tj) in Es;
    [|reflexivity|exact Hst|exact Hj].
  destruct (new_expiry (now_fetched (world 0%nat)) tj) as [recorded|e0] eqn:Erec.
  - destruct Es as [Eself ->].
    assert (Htoken : token self1 = Some tok) by (now subst self1).
    assert (Hvalid : forall j, (j < length rest)%nat ->
              cached_valid self1 (now_check (world (1 + j)%nat))).
    { intros j Hj'. split.
      - rewrite Htoken. destruct tok; [contradiction|reflexivity].
      - subst self1. eexists. split; [reflexivity|].
        apply Hclock; [lia|reflexivity]. }
    clear Eself. rewrite Htok.
    destruct r1 as [result|e].
    + match goal with
      | |- context [enrich_rows world 1 rest self1 ?d] =>
          destruct (enrich_rows world 1 rest self1 d)
            as [[r2 spotify2] evs2] eqn:Er
      end.
      intros [= _ <- <-].
      apply (enrich_rows_cached _ _ _ _ _ _ _ _ Hvalid) in Er
        as (-> & Hreq & Hbearer).
      split; [unfold token_requests in *; cbn; now rewrite Hreq|].
      split; [|exact Htoken].
      intros bearer q [[=]|[[=]|[[= <- _]|Hin]]]; [reflexivity|].
      rewrite <- Htoken. eauto.
    + intros [= _ <- <-]. split; [reflexivity|]. split; [|exact Htoken].
      intros bearer q [[=]|[[=]|[[= <- _]|[]]]]. reflexivity.
  - destruct Es as (-> & -> & ->). intros [= _ <- <-].
    split; [reflexivity|]. split; [|exact Htok].
    intros bearer q [[=]|[[=]|[]]].
Qed.

Lemma search_artist_ok_result self artist_name w result self' evs :
  search_artist self artist_name w = (Py.Ok result, self', evs) ->
  result = lookup_result w.
Proof.
  unfold search_artist, lookup_result.
  destruct (get_token self w) as [[[tok|e] self0] evs0]; [|discriminate].
  destruct (status_code (search_response w) =? 200);
    [destruct (json (search_response w))|]; now intros [= <- _ _].
Qed.

(** The cells of a row after the loop, on distinct labels: those its own
    lookup stored. *)
Lemma enrich_rows_cells world rows : forall k spotify df out spotify' evs,
  enrich_rows world k rows spotify df = (Py.Ok out, spotify', evs) ->
  NoDup (map Row.idx rows) ->
  forall p e j row,
    nth_error df p = Some e -> nth_error rows j = Some row ->
    Row.idx (Enriched.artist e) = Row.idx row ->
    nth_error out p =
    Some (match lookup_result (world (k + j)%nat) with
          | Some found => stored found e
          | None => e
          end).
Proof.
  induction rows as [|row0 rows IH]; intros k spotify df out spotify' evs;
    cbn [enrich_rows].
  - intros _ _ p e [|j] row _ Hj; discriminate Hj.
  - destruct (search_artist spotify (Row.name row0) (world k))
      as [[[result|e0] spotify1] evs1] eqn:Es; [|discriminate].
    apply search_artist_ok_result in Es. subst result.
    match goal with
    | |- context [enrich_rows world (S k) rows spotify1 ?d] =>
        set (df1 := d)
    end.
    destruct (enrich_rows world (S k) rows spotify1 df1)
      as [[out1 spotify2] evs2] eqn:Er.
    intros [= -> _ _] Hnd p e j row Hp Hj Hlabel.
    cbn [map] in Hnd. apply NoDup_cons_iff in Hnd as [Hfresh Hnd].
    destruct j as [|j]; cbn [nth_error] in Hj.
    + injection Hj as ->. rewrite Nat.add_0_r.
      set (e1 := match lookup_result (world k) with
                 | Some found => stored found e
                 | None => e
                 end).
      assert (Hp1 : nth_error df1 p = Some e1).
      { subst df1 e1. destruct (lookup_result (world k)) as [found|];
          [|exact Hp].
        rewrite store_match_map, nth_error_map, Hp. cbn.
        rewrite Hlabel, str_eqb_refl. reflexivity. }
      assert (Hl1 : Row.idx (Enriched.artist e1) = Row.idx row).
      { subst e1. now destruct (lookup_result (world k)). }
      apply enrich_rows_frame in Er.
      destruct (Forall2_nth_error _ _ _ _ _ Er Hp1) as (e' & Hout & _ & He).
      rewrite Hout, He; [reflexivity|].
      intros (j & row' & Hj & Hl & _). apply Hfresh.
      rewrite <- Hl1, <- Hl. apply in_map. eapply nth_error_In; eauto.
    + assert (Hp1 : nth_error df1 p = Some e).
      { subst df1. destruct (lookup_result (world k)) as [found|];
          [|exact Hp].
        rewrite store_match_map, nth_error_map, Hp. cbn.
        destruct (Py.str_eqb (Row.idx (Enriched.artist e)) (Row.idx row0))
          eqn:E; [|reflexivity].
        apply str_eqb_eq in E. exfalso. apply Hfresh.
        rewrite <- E, Hlabel. apply in_map. eapply nth_error_In; eauto. }
      rewrite Nat.add_succ_r.
      apply (IH (S k) spotify1 df1 out spotify2 evs2 Er Hnd p e j row);
        assumption.
Qed.

(** X7.  On a table whose index labels are distinct, each row of the
    table [enrich_with_spotify] returns carries what its own lookup
    found: the followers, the link and the popularity of the top match
    and the address of its first image (null when it has none), or four
    nulls when the search had another status than 200 or no match. *)
Theorem enriched_row_carries_its_own_match
        spotify world artist_df out spotify' evs :
  enrich_with_spotify spotify world artist_df = (Py.Ok out, spotify', evs) ->
  NoDup (map Row.idx artist_df) ->
  forall k row,
    nth_error artist_df k = Some row ->
    nth_error out k =
    Some (match lookup_result (world k) with
          | Some found =>
              Enriched.mk row
                          (Some (followers_total found))
                          (Some (external_urls_spotify found))
                          (Some (popularity found))
                          (hd_error (images found))
          | None => Enriched.mk row None None None None
          end).
Proof.
  unfold enrich_with_spotify. intros E Hnd k row Hk.
  rewrite (enrich_rows_cells _ _ _ _ _ _ _ _ E Hnd k
             (Enriched.mk row None None None None) k row);
    [| now rewrite nth_error_map, Hk | exact Hk | reflexivity].
  cbn [Nat.add]. destruct (lookup_result (world k)) as [found|];
    [|reflexivity].
  unfold stored. cbn. now destruct (images found).
Qed.

(** What the lookup of [row], the [k]-th of the run, writes into a row
    [e] of the table: the cells of its match, if it found one and [e]
    carries the label of [row]. *)
Definition written (world : nat -> World) (k : nat) (row : Row.t)
           (e : Enriched.t) : Enriched.t :=
  if Py.str_eqb (Row.idx (Enriched.artist e)) (Row.idx row) then
    match lookup_result (world k) with
    | Some found => stored found e
    | None => e
    end
  else e.

(** What the lookups of [rows] write into [e], one after the other. *)
Fixpoint written_all (world : nat -> World) (k : nat) (rows : list Row.t)
         (e : Enriched.t) : Enriched.t :=
  match rows with
  | [] => e
  | row :: rest => written_all world (S k) rest (written world k row e)
  end.

Lemma enrich_rows_written world rows : forall k spotify df out spotify' evs,
  enrich_rows world k rows spotify df = (Py.Ok out, spotify', evs) ->
  out = map (written_all world k rows) df.
Proof.
  induction rows as [|row rows IH]; intros k spotify df out spotify' evs;
    cbn [enrich_rows written_all].
  - intros [= <- _ _]. symmetry. apply map_id.
  - destruct (search_artist spotify (Row.name row) (world k))
      as [[[result|e0] spotify1] evs1] eqn:Es; [|discriminate].
    apply search_artist_ok_result in Es. subst result.
    match goal with
    | |- context [enrich_rows world (S k) rows spotify1 ?d] =>
        assert (Hd : d = map (written world k row) df)
    end.
    { unfold written. destruct (lookup_result (world k)) as [found|].
      - apply store_match_map.
      - rewrite <- (map_id df) at 1. apply map_ext. intros e.
        now destruct (Py.str_eqb _ _). }
    rewrite Hd.
    destruct (enrich_rows world (S k) rows spotify1
                          (map (written world k row) df))
      as [[out1 spotify2] evs2] eqn:Er.
    intros [= -> _ _]. apply IH in Er. now rewrite Er, map_map.
Qed.

Lemma written_all_same_cells world rows : forall k e e',
  Row.idx (Enriched.artist e) = Row.idx (Enriched.artist e') ->
  Enriched.spotify_followers e = Enriched.spotify_followers e' ->
  Enriched.spotify_url e = Enriched.spotify_url e' ->
  Enriched.spotify_popularity e = Enriched.spotify_popularity e' ->
  Enriched.spotify_image e = Enriched.spotify_image e' ->
  let w := written_all world k rows e in
  let w' := written_all world k rows e' in
  Enriched.artist w = Enriched.artist e /\
  Enriched.artist w' = Enriched.artist e' /\
  Enriched.spotify_followers w = Enriched.spotify_followers w' /\
  Enriched.spotify_url w = Enriched.spotify_url w' /\
  Enriched.spotify_popularity w = Enriched.spotify_popularity w' /\
  Enriched.spotify_image w = Enriched.spotify_image w'.
Proof.
  induction rows as [|row rows IH]; intros k e e' Hl Hf Hu Hp Hi;
    cbn [written_all]; [auto 10|].
  assert (H1 : Enriched.artist (written world k row e) = Enriched.artist e)
    by (unfold written, stored; destruct (Py.str_eqb _ _);
        [destruct (lookup_result (world k))|]; reflexivity).
  assert (H1' : Enriched.artist (written world k row e')
                = Enriched.artist e')
    by (unfold written, stored; destruct (Py.str_eqb _ _);
        [destruct (lookup_result (world k))|]; reflexivity).
  destruct (IH (S k) (written world k row e) (written world k row e'))
    as (Ha & Ha' & Hrest).
  - now rewrite H1, H1'.
  - unfold written. rewrite <- Hl.
    destruct (Py.str_eqb _ _); [destruct (lookup_result (world k))|]; auto.
  - unfold written. rewrite <- Hl.
    destruct (Py.str_eqb _ _); [destruct (lookup_result (world k))|]; auto.
  - unfold written. rewrite <- Hl.
    destruct (Py.str_eqb _ _); [destruct (lookup_result (world k))|]; auto.
  - unfold written, stored. rewrite <- Hl.
    destruct (Py.str_eqb _ _); [destruct (lookup_result (world k)) as [f|]|];
      auto.
    cbn. now destruct (images f).
  - cbn zeta. rewrite Ha, Ha', H1, H1'. auto.
Qed.

(** X8.  The table [enrich_with_spotify] returns, row by row: a row
    carries what the lookups of all the rows with its index label wrote,
    in the order of the rows.  Each lookup that found a match overwrites
    the followers, the link and the popularity, and the image when the
    match has one.  Rows that share a label therefore end with the same
    four cells, whatever their names. *)
Theorem enriched_cells_are_written_by_label
        spotify world artist_df out spotify' evs :
  enrich_with_spotify spotify world artist_df = (Py.Ok out, spotify', evs) ->
  out = map (fun row =>
               written_all world 0 artist_df
                           (Enriched.mk row None None None None))
            artist_df /\
  forall p q e e',
    nth_error out p = Some e -> nth_error out q = Some e' ->
    Row.idx (Enriched.artist e) = Row.idx (Enriched.artist e') ->
    Enriched.spotify_followers e = Enriched.spotify_followers e' /\
    Enriched.spotify_url e = Enriched.spotify_url e' /\
    Enriched.spotify_popularity e = Enriched.spotify_popularity e' /\
    Enriched.spotify_image e = Enriched.spotify_image e'.
Proof.
  unfold enrich_with_spotify. intros E.
  apply enrich_rows_written in E. rewrite map_map in E.
  split; [exact E|].
  intros p q e e' Hp Hq Hl. subst out.
  rewrite nth_error_map in Hp, Hq.
  destruct (nth_error artist_df p) as [row|]; [|discriminate].
  destruct (nth_error artist_df q) as [row'|]; [|discriminate].
  injection Hp as <-. injection Hq as <-.
  destruct (written_all_same_cells
              world artist_df 0
              (Enriched.mk row None None None None)
              (Enriched.mk row' None None None None))
    as (Ha & Ha' & Hcells); try reflexivity; [|exact Hcells].
  destruct (written_all_same_cells
              world artist_df 0
              (Enriched.mk row None None None None)
              (Enriched.mk row None None None None))
    as (Hb & _); try reflexivity.
  destruct (written_all_same_cells
              world artist_df 0
              (Enriched.mk row' None None None None)
              (Enriched.mk row' None None None None))
    as (Hb' & _); try reflexivity.
  cbn zeta in Hb, Hb'. rewrite Hb, Hb' in Hl. exact Hl.
Qed.

(** *** Concrete lookups *)

(** The token endpoint refuses the credentials. *)
Definition denied : World :=
  mkWorld (seconds 10) (mkResponse 401 false None)
          (seconds 10) (mkResponse 200 false (Some (mkSearchJson [hit]))).

Example lookup_denied :
  search_artist fresh (Py.of_string "ABBA") denied =
  (Py.Raise (Py.Exception 401), fresh, [TokenRequest]).
Proof. reflexivity. Qed.

Lemma lookup_raises_in_four_cases_witness :
  let call := search_artist fresh (Py.of_string "ABBA") denied in
  match fst (fst call) with
  | Py.Raise e =>
      (without_expiry fresh /\ e = Py.TypeError /\ snd (fst call) = fresh /\
       queries (snd call) = [] /\ token_requests (snd call) = 0%nat)
      \/
      (needs_token fresh (now_check denied) /\ token_fails denied /\
       e = token_error denied /\ snd (fst call) = fresh /\
       queries (snd call) = [] /\ token_requests (snd call) = 1%nat)
      \/
      (needs_token fresh (now_check denied) /\
       (exists tj,
          token_answer denied tj /\
          new_expiry (now_fetched denied) tj = Py.Raise e /\
          snd (fst call) = with_token (access_token tj) fresh) /\
       queries (snd call) = [] /\ token_requests (snd call) = 1%nat)
      \/
      (token_in_hand fresh denied /\ search_malformed denied /\
       e = Py.ValueError /\ queries (snd call) = [Py.of_string "ABBA"])
  | Py.Ok result =>
      token_in_hand fresh denied /\ ~ search_malformed denied /\
      result = lookup_result denied /\
      queries (snd call) = [Py.of_string "ABBA"]
  end.
Proof.
  intros call.
  apply (lookup_raises_in_four_cases
           fresh (Py.of_string "ABBA") denied
           (fst (fst call)) (snd (fst call)) (snd call)).
  reflexivity.
Defined.

(** A token is handed out with a lifetime that is a string: the run ends
    at the first row with the [TypeError] of [timedelta], one token
    request made and no search sent. *)
Example lifetime_in_words :
  enrich_with_spotify fresh
    (fun _ => declares (Py.JStr (Py.of_string "one hour")) 1000) three_rows =
  (Py.Raise Py.TypeError, holding_token, [TokenRequest; Now (seconds 1000)]).
Proof. vm_compute. reflexivity. Qed.

Lemma enrichment_searches_each_row_in_order_witness :
  let call := enrich_with_spotify fresh mixed_world three_rows in
  exists m, (m <= length three_rows)%nat /\
    queries (snd call) = map Row.name (firstn m three_rows) /\
    match fst (fst call) with
    | Py.Ok out =>
        m = length three_rows /\ length out = length three_rows /\
        forall k, (k < length three_rows)%nat ->
                  ~ search_malformed (mixed_world k)
    | Py.Raise e =>
        exists k, (k < length three_rows)%nat /\
          (forall j, (j < k)%nat -> ~ search_malformed (mixed_world j)) /\
          ((search_malformed (mixed_world k) /\ e = Py.ValueError /\
            m = S k) \/
           (token_fails (mixed_world k) /\ e = token_error (mixed_world k) /\
            m = k) \/
           ((exists tj,
               token_answer (mixed_world k) tj /\
               new_expiry (now_fetched (mixed_world k)) tj = Py.Raise e) /\
            m = k) \/
           (k = 0%nat /\ without_expiry fresh /\ e = Py.TypeError /\
            m = 0%nat))
    end.
Proof.
  intros call.
  apply (enrichment_searches_each_row_in_order
           fresh mixed_world three_rows
           (fst (fst call)) (snd (fst call)) (snd call)).
  vm_compute. reflexivity.
Defined.

Lemma enrichment_requests_one_token_witness :
  let call := enrich_with_spotify fresh mixed_world three_rows in
  token_requests (snd call) = 1%nat /\
  (forall bearer q,
     In (Search bearer q) (snd call) -> bearer = Some (Py.of_string "tok")) /\
  token (snd (fst call)) = Some (Py.of_string "tok").
Proof.
  intros call.
  apply (enrichment_requests_one_token
           (Py.of_string "id") (Py.of_string "secret") mixed_world
           (Normalizer.normalize Normalizer.abba)
           (map Normalizer.normalize
                [Normalizer.kraftwerk; Normalizer.poseidon])
           (mkTokenJson (Some (Py.of_string "tok")) (Some (Py.JInt 3600)))
           (Py.of_string "tok")
           (fst (fst call)) (snd (fst call)) (snd call)).
  - reflexivity.
  - reflexivity.
  - reflexivity.
  - discriminate.
  - intros k recorded _ Hrec. vm_compute in Hrec. injection Hrec as <-.
    destruct k as [|[|[|k]]]; vm_compute; reflexivity.
  - vm_compute. reflexivity.
Defined.

Lemma enriched_row_carries_its_own_match_witness :
  nth_error enriched_three_rows 0 =
  Some (match lookup_result (mixed_world 0) with
        | Some found =>
            Enriched.mk (Normalizer.normalize Normalizer.abba)
                        (Some (followers_total found))
                        (Some (external_urls_spotify found))
                        (Some (popularity found))
                        (hd_error (images found))
        | None =>
            Enriched.mk (Normalizer.normalize Normalizer.abba)
                        None None None None
        end) /\
  lookup_result (mixed_world 0) = Some hit.
Proof.
  split; [|reflexivity].
  apply (enriched_row_carries_its_own_match
           fresh mixed_world three_rows enriched_three_rows
           (snd (fst (enrich_with_spotify fresh mixed_world three_rows)))
           (snd (enrich_with_spotify fresh mixed_world three_rows))).
  - vm_compute. reflexivity.
  - exact (proj1 three_rows_distinct).
  - reflexivity.
Defined.

Lemma enriched_cells_are_written_by_label_witness :
  enriched_abba_twice =
    map (fun row =>
           written_all second_spelling 0 abba_twice
                       (Enriched.mk row None None None None))
        abba_twice /\
  forall p q e e',
    nth_error enriched_abba_twice p = Some e ->
    nth_error enriched_abba_twice q = Some e' ->
    Row.idx (Enriched.artist e) = Row.idx (Enriched.artist e') ->
    Enriched.spotify_followers e = Enriched.spotify_followers e' /\
    Enriched.spotify_url e = Enriched.spotify_url e' /\
    Enriched.spotify_popularity e = Enriched.spotify_popularity e' /\
    Enriched.spotify_image e = Enriched.spotify_image e'.
Proof.
  apply (enriched_cells_are_written_by_label
           fresh second_spelling abba_twice enriched_abba_twice
           (snd (fst (enrich_with_spotify fresh second_spelling abba_twice)))
           (snd (enrich_with_spotify fresh second_spelling abba_twice))).
  vm_compute. reflexivity.
Defined.

End Lookups.

(** ** The pipeline from catalog records to the enriched table *)

Module Pipeline.
Import SpotifyAPI ArtistDataCollector ExtractYear SortFacts Normalizer.
Import TokenCache Enrichment Lookups.

Lemma apply_raise {A B} (f : A -> Py.result B) (column : list A) e :
  apply f column = Py.Raise e -> exists x, In x column /\ f x = Py.Raise e.
Proof.
  induction column as [|x column IH]; cbn; [discriminate|].
  destruct (f x) as [y|e0] eqn:Ex; cbn.
  - destruct (apply f column) as [ys|e1]; cbn; [discriminate|].
    intros [= <-]. destruct IH as (x' & Hin & Hx'); [reflexivity|]. eauto.
  - intros [= <-]. eauto.
Qed.

Lemma int_digits_bound (s : Py.str) : forall acc n,
  0 <= acc ->
  Py.int_digits acc s = Py.Ok n ->
  acc * 10 ^ Z.of_nat (length s) <= n < (acc + 1) * 10 ^ Z.of_nat (length s).
Proof.
  induction s as [|c s IH]; intros acc n Hacc; cbn [Py.int_digits length].
  - intros [= <-]. cbn. lia.
  - destruct (Py.decimal_value c) as [d|] eqn:Ed; [|discriminate].
    apply decimal_value_nonneg in Ed. intros H.
    apply IH in H; [|lia].
    rewrite Nat2Z.inj_succ, Z.pow_succ_r by lia.
    assert (0 < 10 ^ Z.of_nat (length s)) by (apply Z.pow_pos_nonneg; lia).
    nia.
Qed.

(** A year that [extract_year] returns has at most four digits. *)
Lemma extract_year_range (d : option Py.str) (n : Z) :
  extract_year d = Py.Ok (Some n) -> 0 <= n <= 9999.
Proof.
  destruct d as [s|]; [|discriminate].
  unfold extract_year, Py.slice_to.
  destruct (Py.isdigit (firstn 4 s)); [|discriminate].
  unfold Py.int. destruct (firstn 4 s) as [|c t] eqn:Es; [discriminate|].
  destruct (Py.int_digits 0 (c :: t)) as [m|e] eqn:Em; [|discriminate].
  intros [= <-]. apply int_digits_bound in Em; [|lia].
  assert (Hlen : (length (c :: t) <= 4)%nat)
    by (rewrite <- Es; apply firstn_le_length).
  assert (10 ^ Z.of_nat (length (c :: t)) <= 10 ^ 4)
    by (apply Z.pow_le_mono_r; lia).
  change (10 ^ 4) with 10000 in *. lia.
Qed.

Lemma year_of_some (d : option Py.str) (n : Z) :
  year_of d = Some n -> extract_year d = Py.Ok (Some n).
Proof.
  unfold year_of. destruct (extract_year d) as [y|e]; [|discriminate].
  now intros ->.
Qed.

Lemma normalize_year_formed (r : Raw.t) :
  Row.Year_formed (normalize r) = year_of (Raw.life_span_begin r).
Proof.
  unfold normalize, fix_ended, features. cbn.
  now destruct (year_of (Raw.life_span_end r)).
Qed.

Lemma normalize_lifespan (r : Raw.t) :
  Row.Lifespan (normalize r) =
  sub_Int64 (Row.Year_disbanded (normalize r)) (Row.Year_formed (normalize r)).
Proof.
  unfold normalize, fix_ended, features. cbn.
  now destruct (year_of (Raw.life_span_end r)).
Qed.

Lemma frame_artist touched df out :
  frame touched df out -> map Enriched.artist out = map Enriched.artist df.
Proof.
  induction 1 as [|e e' df out [Ha _] _ IH]; cbn; [reflexivity|].
  now rewrite Ha, IH.
Qed.

Lemma range_head (n : Z) :
  0 < n -> exists rest, range 2 (n + 2) 100 = 2 :: rest.
Proof.
  intros Hn. unfold range.
  assert (H : 1 <= (n + 2 - 2 + 100 - 1) / 100)
    by (apply Z.div_le_lower_bound; lia).
  destruct (Z.to_nat ((n + 2 - 2 + 100 - 1) / 100)) as [|m] eqn:Em; [lia|].
  cbn [seq map]. eauto.
Qed.

(** [pd.json_normalize] makes a column for each key that some record
    has.  The embedding takes the four columns that
    [process_artist_data] reads after the sort ([area.name],
    [life-span.begin], [life-span.end], [life-span.ended]) as given, with
    a null where a record has no value; the code raises a [KeyError] on
    reading a column that no record gave.  [columns_filled] is a
    condition under which the four columns are there: each of the four
    keys has a value in some record.  Statements on whether a call
    returns or raises are made under it. *)
Definition columns_filled (raws : list Raw.t) : Prop :=
  (exists r, In r raws /\ Raw.area_name r <> None) /\
  (exists r, In r raws /\ Raw.life_span_begin r <> None) /\
  (exists r, In r raws /\ Raw.life_span_end r <> None) /\
  (exists r, In r raws /\ Raw.life_span_ended r <> None).

Lemma columns_filled_nonempty (raws : list Raw.t) :
  columns_filled raws -> raws <> [].
Proof. intros [(r & Hr & _) _] ->. contradiction. Qed.

Section Pipeline.
Context {SK : SortKind}.
Variable lower : Py.str -> Py.str.
Variable get_country_data : list Country.t.
Variable to_csv : list Enriched.t -> Py.result unit.

Let process := process_artist_data lower get_country_data.
Let collect := collect_all_data lower get_country_data to_csv.
Let table (raws : list Raw.t) : list Row.t :=
  map normalize (filter (survives lower get_country_data) (sorted raws)).

Lemma process_raise_inv raws e :
  process raws = Py.Raise e ->
  e = Py.ValueError /\
  exists r, In r raws /\
    (extract_year (Raw.life_span_begin r) = Py.Raise Py.ValueError \/
     extract_year (Raw.life_span_end r) = Py.Raise Py.ValueError).
Proof.
  unfold process, process_artist_data.
  destruct raws as [|r0 raws']; [discriminate|].
  set (raws := r0 :: raws'). cbn [length Nat.eqb]. fold (sorted raws).
  destruct (apply extract_year (map Raw.life_span_begin (sorted raws)))
    as [yf|e1] eqn:Ef; cbn [Py.bind].
  - destruct (apply extract_year (map Raw.life_span_end (sorted raws)))
      as [yd|e2] eqn:Ed; cbn [Py.bind]; [discriminate|].
    intros [= <-]. apply apply_raise in Ed as (d & Hd & Ex).
    apply in_map_iff in Hd as (r & <- & Hr).
    apply (proj1 (In_sorted _ _)) in Hr.
    pose proof (extract_year_raise _ _ Ex) as [-> _]. eauto 6.
  - intros [= <-]. apply apply_raise in Ef as (d & Hd & Ex).
    apply in_map_iff in Hd as (r & <- & Hr).
    apply (proj1 (In_sorted _ _)) in Hr.
    pose proof (extract_year_raise _ _ Ex) as [-> _]. eauto 6.
Qed.

Lemma process_none_inv raws : process raws = Py.Ok None -> raws = [].
Proof.
  unfold process, process_artist_data.
  destruct raws as [|r0 raws']; [reflexivity|].
  cbn [length Nat.eqb].
  destruct (apply extract_year _) as [yf|e1]; cbn [Py.bind]; [|discriminate].
  destruct (apply extract_year _) as [yd|e2]; cbn [Py.bind]; discriminate.
Qed.

(** X9.  On a catalog answer in which each of the four optional keys has
    a value in some record, [process_artist_data] raises exactly when
    some record has a begin or end date on which [extract_year] raises,
    be it a record the filters would have dropped; the exception is that
    [ValueError]. *)
Theorem one_bad_date_aborts_the_normalisation raws e :
  columns_filled raws ->
  (process raws = Py.Raise e <->
   e = Py.ValueError /\
   exists r, In r raws /\
     (extract_year (Raw.life_span_begin r) = Py.Raise Py.ValueError \/
      extract_year (Raw.life_span_end r) = Py.Raise Py.ValueError)).
Proof.
  intros _. split; [apply process_raise_inv|].
  intros (-> & r & Hr & Hbad).
  destruct (process raws) as [out|e'] eqn:E.
  - destruct (process_dates_parse _ _ _ _ E r Hr) as [[y1 H1] [y2 H2]].
    destruct Hbad as [H|H]; congruence.
  - apply process_raise_inv in E as [-> _]. reflexivity.
Qed.

(** X10.  In the table [process_artist_data] returns, a year of formation
    or disbanding that is not null lies between 0 and 9999, and
    [Lifespan] is the year of disbanding minus the year of formation,
    null when either is; nothing keeps it from being negative. *)
Theorem table_years_have_at_most_four_digits raws tbl cs :
  process raws = Py.Ok (Some (tbl, cs)) ->
  forall row, In row tbl ->
    (forall y, Row.Year_formed row = Some y -> 0 <= y <= 9999) /\
    (forall y, Row.Year_disbanded row = Some y -> 0 <= y <= 9999) /\
    Row.Lifespan row =
      sub_Int64 (Row.Year_disbanded row) (Row.Year_formed row) /\
    (forall d, Row.Lifespan row = Some d -> -9999 <= d <= 9999).
Proof.
  intros E row Hrow.
  destruct (row_source _ _ _ _ _ _ E Hrow) as (r & _ & _ & -> & _).
  assert (Hf : forall y, Row.Year_formed (normalize r) = Some y ->
                         0 <= y <= 9999).
  { intros y. rewrite normalize_year_formed. intros H.
    eapply extract_year_range, year_of_some, H. }
  assert (Hd : forall y, Row.Year_disbanded (normalize r) = Some y ->
                         0 <= y <= 9999).
  { intros y. rewrite normalize_year_disbanded. intros H.
    eapply extract_year_range, year_of_some, H. }
  split; [exact Hf|]. split; [exact Hd|].
  split; [apply normalize_lifespan|].
  intros d. rewrite normalize_lifespan.
  destruct (Row.Year_disbanded (normalize r)) as [yd|]; [|discriminate].
  destruct (Row.Year_formed (normalize r)) as [yf|]; [|discriminate].
  cbn. intros [= <-]. specialize (Hf yf eq_refl). specialize (Hd yd eq_refl).
  lia.
Qed.

(** X11.  When [fetch_artists] comes back with no record,
    [collect_all_data] raises a [TypeError]: it unpacks the [None] of
    [process_artist_data], and the test [artist_df is None] after it is
    never reached.  No lookup is made and nothing is written, whatever
    state the Spotify client is in.  That is the case when no artist is
    asked for, and when the first catalog page answers with another
    status than 200 or an empty body. *)
Theorem nothing_fetched_raises_TypeError n server spotify world :
  (fst (fetch_artists n server) = [] ->
   collect n server spotify world = Py.Raise Py.TypeError) /\
  (n <= 0 \/ CatalogFetch.page_ok (server 2) = false ->
   fst (fetch_artists n server) = [] /\
   collect n server spotify world = Py.Raise Py.TypeError).
Proof.
  assert (Hnone : fst (fetch_artists n server) = [] ->
                  collect n server spotify world = Py.Raise Py.TypeError).
  { unfold collect, collect_all_data.
    destruct (fetch_artists n server) as [fetched log]. cbn [fst].
    now intros ->. }
  split; [exact Hnone|].
  intros Hcase.
  assert (Hfetched : fst (fetch_artists n server) = []).
  { unfold fetch_artists.
    destruct Hcase as [Hn|Hbad].
    - unfold range.
      replace (Z.to_nat ((n + 2 - 2 + 100 - 1) / 100)) with 0%nat;
        [reflexivity|].
      assert ((n + 2 - 2 + 100 - 1) / 100 <= 0); [|lia].
      apply Z.lt_succ_r. apply Z.div_lt_upper_bound; lia.
    - destruct (Z_le_gt_dec n 0) as [Hn|Hn].
      + unfold range.
        replace (Z.to_nat ((n + 2 - 2 + 100 - 1) / 100)) with 0%nat;
          [reflexivity|].
        assert ((n + 2 - 2 + 100 - 1) / 100 <= 0); [|lia].
        apply Z.lt_succ_r. apply Z.div_lt_upper_bound; lia.
      + destruct (range_head n) as [rest ->]; [lia|].
        cbn [fetch_pages]. unfold CatalogFetch.page_ok in Hbad.
        rewrite Hbad. reflexivity. }
  split; [exact Hfetched|]. apply Hnone, Hfetched.
Qed.

(** X12.  What [collect_all_data] returns, when it returns: the country
    table of [get_country_data], and a table whose rows are, in order,
    the normalised rows of the fetched records that pass the two
    filters, by descending score, each with the cells
    [enrich_with_spotify] gave it.  Every date of every fetched record
    had then got through [extract_year]. *)
Theorem collection_is_fetch_then_normalise_then_enrich
        n server spotify world out cs :
  collect n server spotify world = Py.Ok (out, cs) ->
  let fetched := fst (fetch_artists n server) in
  fetched <> [] /\
  (forall r, In r fetched -> dates_parse r) /\
  cs = get_country_data /\
  map Enriched.artist out = table fetched /\
  fst (fst (enrich_with_spotify spotify world (table fetched))) = Py.Ok out.
Proof.
  unfold collect, collect_all_data.
  destruct (fetch_artists n server) as [fetched log]. cbn [fst].
  fold process.
  destruct (process fetched) as [[[tbl cs']|]|e] eqn:E; cbn [Py.bind];
    [|discriminate|discriminate].
  destruct (enrich_with_spotify spotify world tbl)
    as [[r spotify'] evs] eqn:Er.
  destruct r as [out'|e]; cbn [Py.bind]; [|discriminate].
  destruct (to_csv out') as [written|e]; cbn [Py.bind]; [|discriminate].
  intros [= <- <-].
  pose proof (process_dates_parse _ _ _ _ E) as Hdates.
  apply process_inv in E as (Hne & -> & ->).
  split; [exact Hne|]. split; [exact Hdates|]. split; [reflexivity|].
  fold (table fetched) in *. rewrite Er. cbn [fst]. split; [|reflexivity].
  unfold enrich_with_spotify in Er. apply enrich_rows_frame in Er.
  apply frame_artist in Er. rewrite Er, map_map. cbn. apply map_id.
Qed.

(** X13.  [collect_all_data] returns a table with one row per surviving
    record when the catalog answer has each of the four optional keys
    with a value in some record, every date of every fetched record gets
    through [extract_year], the Spotify client does not come in with a
    token and no expiry, at each lookup the token endpoint answers 200
    with JSON and a lifetime from which line 42 can record an expiry and
    the search endpoint does not answer 200 with a body that is not
    JSON, and the table can be written to its file. *)
Theorem collection_returns_when_dates_and_lookups_do
        n server spotify world :
  let fetched := fst (fetch_artists n server) in
  columns_filled fetched ->
  (forall r, In r fetched -> dates_parse r) ->
  ~ without_expiry spotify ->
  (forall k, (k < length (table fetched))%nat ->
     token_granted (world k) /\ ~ search_malformed (world k)) ->
  (forall df, to_csv df = Py.Ok tt) ->
  exists out,
    collect n server spotify world = Py.Ok (out, get_country_data) /\
    length out = length (table fetched).
Proof.
  intros fetched Hcols Hdates Hstate Hworld Hcsv.
  pose proof (columns_filled_nonempty _ Hcols) as Hne.
  unfold collect, collect_all_data. subst fetched.
  destruct (fetch_artists n server) as [fetched log]. cbn [fst] in *.
  rewrite (process_total lower get_country_data fetched Hne Hdates).
  cbn [Py.bind]. fold (table fetched).
  destruct (enrich_with_spotify spotify world (table fetched))
    as [[r spotify'] evs] eqn:Er.
  unfold enrich_with_spotify in Er.
  destruct (enrich_rows_outcome _ _ _ _ _ _ _ _ Er)
    as (m & _ & _ & Hr).
  destruct r as [out|e].
  - destruct Hr as (_ & Hl & _). rewrite length_map in Hl.
    exists out. cbn [Py.bind]. rewrite Hcsv. cbn [Py.bind]. auto.
  - destruct Hr as (k & Hk & _ & Hcase). exfalso.
    destruct (Hworld k Hk) as [(tj & recorded & [Hst Hj] & Hrec) Hs].
    cbn [Nat.add] in Hcase.
    destruct Hcase as [(? & _)|[([?|?] & _)|[((tj' & [_ Hj'] & Hrec') & _)
                                           |(_ & ? & _)]]];
      try contradiction; try congruence.
Qed.

End Pipeline.

(** *** Concrete runs *)

(** A record the filters would drop (its name is not ASCII, its country
    is not a reference country) whose begin date starts with a
    superscript two. *)
Definition superscript_record : Raw.t :=
  Raw.mk (py "x1") (py "Mot" ++ [246%N] ++ py "rhead") 50
         (Some (py "Atlantis")) (Some superscript_date) None None.

Definition unavailable (_ : Z) : Response CatalogPage :=
  mkResponse 503 false None.

Definition enriched_abba : Enriched.t :=
  Enriched.mk (normalize abba)
              (Some 5000)
              (Some (Py.of_string "https://open.spotify.com/artist/x"))
              (Some 70)
              (Some (Py.of_string "https://i.scdn.co/image/x")).

(** The table is written. *)
Definition saved (_ : list Enriched.t) : Py.result unit := Py.Ok tt.

(** The file cannot be opened. *)
Definition unwritable (_ : list Enriched.t) : Py.result unit :=
  Py.Raise Py.OSError.

Example abba_fills_the_columns (rest : list Raw.t) :
  columns_filled (abba :: rest).
Proof. repeat split; exists abba; (split; [now left|discriminate]). Qed.

Lemma one_bad_date_aborts_the_normalisation_witness :
  columns_filled [abba; superscript_record] /\
  survives ascii_lower reference superscript_record = false /\
  process_with SortKinds.stable_kind [abba; superscript_record] =
  Py.Raise Py.ValueError.
Proof.
  split; [apply abba_fills_the_columns|]. split; [reflexivity|].
  apply (proj2 (@one_bad_date_aborts_the_normalisation
                  SortKinds.stable_kind ascii_lower reference
                  [abba; superscript_record] Py.ValueError
                  (abba_fills_the_columns _))).
  split; [reflexivity|]. exists superscript_record.
  split; [right; left; reflexivity|]. left. reflexivity.
Defined.

Lemma table_years_have_at_most_four_digits_witness :
  let row := normalize abba in
  (forall y, Row.Year_formed row = Some y -> 0 <= y <= 9999) /\
  (forall y, Row.Year_disbanded row = Some y -> 0 <= y <= 9999) /\
  Row.Lifespan row =
    sub_Int64 (Row.Year_disbanded row) (Row.Year_formed row) /\
  (forall d, Row.Lifespan row = Some d -> -9999 <= d <= 9999).
Proof.
  intros row.
  apply (@table_years_have_at_most_four_digits
           SortKinds.stable_kind ascii_lower reference sample
           [normalize abba; normalize kraftwerk] reference).
  - vm_compute. reflexivity.
  - left. reflexivity.
Defined.

Lemma nothing_fetched_raises_TypeError_witness :
  fst (fetch_artists 100 unavailable) = [] /\
  @collect_all_data SortKinds.stable_kind ascii_lower reference saved
                    100 unavailable fresh mixed_world =
  Py.Raise Py.TypeError.
Proof.
  apply (proj2 (@nothing_fetched_raises_TypeError
                  SortKinds.stable_kind ascii_lower reference saved
                  100 unavailable fresh mixed_world)).
  right. reflexivity.
Defined.

Lemma collection_is_fetch_then_normalise_then_enrich_witness :
  let fetched := fst (fetch_artists 100 one_page) in
  fetched <> [] /\
  (forall r, In r fetched -> dates_parse r) /\
  reference = reference /\
  map Enriched.artist [enriched_abba] =
    map normalize (filter (survives ascii_lower reference)
                          (@sorted SortKinds.stable_kind fetched)) /\
  fst (fst (enrich_with_spotify
              fresh mixed_world
              (map normalize (filter (survives ascii_lower reference)
                                     (@sorted SortKinds.stable_kind fetched)))))
  = Py.Ok [enriched_abba].
Proof.
  apply (@collection_is_fetch_then_normalise_then_enrich
           SortKinds.stable_kind ascii_lower reference saved
           100 one_page fresh mixed_world [enriched_abba] reference).
  vm_compute. reflexivity.
Defined.

(** The same run when the file cannot be written: the table is
    collected and lost. *)
Example collection_lost_on_a_failed_write :
  @collect_all_data SortKinds.stable_kind ascii_lower reference unwritable
                    100 one_page fresh mixed_world =
  Py.Raise Py.OSError.
Proof. vm_compute. reflexivity. Qed.

Lemma collection_returns_when_dates_and_lookups_do_witness :
  exists out,
    @collect_all_data SortKinds.stable_kind ascii_lower reference saved
                      100 one_page fresh mixed_world =
    Py.Ok (out, reference) /\
    length out =
    length (map normalize
                (filter (survives ascii_lower reference)
                        (@sorted SortKinds.stable_kind
                                 (fst (fetch_artists 100 one_page))))).
Proof.
  apply (@collection_returns_when_dates_and_lookups_do
           SortKinds.stable_kind ascii_lower reference saved
           100 one_page fresh mixed_world).
  - apply abba_fills_the_columns.
  - intros r [<-|[]]. split; eexists; reflexivity.
  - intros [H _]. discriminate H.
  - intros k Hk.
    change (k < 1)%nat in Hk. assert (k = 0%nat) as -> by lia.
    split.
    + do 2 eexists. split; [split; reflexivity|]. vm_compute. reflexivity.
    + intros [_ H]. discriminate H.
  - reflexivity.
Defined.

End Pipeline.

(** ** Sorting a column that has nulls *)

Module NaLastFacts.
Import SortFacts NaLast.

Lemma take_nonzero_from {A} (p : A -> bool) (l : list A) : forall pre,
  take (pre ++ l) (nonzero_from (length pre) (map p l)) = filter p l.
Proof.
  induction l as [|x l IH]; intros pre; [reflexivity|].
  cbn [map nonzero_from filter]. rewrite take_app.
  specialize (IH (pre ++ [x])).
  rewrite <- app_assoc, length_app in IH. cbn [length app] in IH.
  rewrite Nat.add_1_r in IH. rewrite IH.
  destruct (p x); [|reflexivity].
  rewrite take_cons, nth_error_app2, Nat.sub_diag by lia. reflexivity.
Qed.

Lemma take_nonzero {A} (p : A -> bool) (l : list A) :
  take l (nonzero (map p l)) = filter p l.
Proof. exact (take_nonzero_from p l []). Qed.

Lemma nonzero_from_in_range (mask : list bool) : forall i,
  Forall (fun j => (j < i + length mask)%nat) (nonzero_from i mask).
Proof.
  induction mask as [|b mask IH]; intros i; cbn [nonzero_from length];
    [constructor|].
  apply Forall_app. split.
  - destruct b; constructor; [lia|constructor].
  - eapply Forall_impl; [|apply (IH (S i))]. cbn. intros j Hj. lia.
Qed.

(** Indexing through an indexer that stays inside the list. *)
Lemma nth_error_take_valid {A} (l : list A) (P : list nat) :
  Forall (fun p => (p < length l)%nat) P ->
  forall i, nth_error (take l P) i =
            match nth_error P i with
            | Some p => nth_error l p
            | None => None
            end.
Proof.
  induction 1 as [|p P Hp _ IH]; intros i.
  - now destruct i.
  - rewrite take_cons.
    destruct (nth_error l p) as [a|] eqn:Ea;
      [|apply nth_error_None in Ea; lia].
    destruct i as [|i]; cbn; [now rewrite Ea|apply IH].
Qed.

Lemma take_take {A} (l : list A) (P idx : list nat) :
  Forall (fun p => (p < length l)%nat) P ->
  take l (take P idx) = take (take l P) idx.
Proof.
  intros HP. induction idx as [|i idx IH]; [reflexivity|].
  rewrite !take_cons, take_app, IH. f_equal.
  rewrite (nth_error_take_valid l P HP).
  destruct (nth_error P i) as [p|]; [|reflexivity].
  cbn [take flat_map]. now rewrite app_nil_r.
Qed.

Lemma non_null_map {A K} (key : A -> option K) (key' : A -> K) (df : list A) :
  (forall r k, In r df -> key r = Some k -> key' r = k) ->
  non_null (map key df) =
  map key' (filter (fun r => negb (isna (key r))) df).
Proof.
  induction df as [|r df IH]; intros H; [reflexivity|].
  cbn [map non_null flat_map filter].
  fold (non_null (map key df)).
  rewrite IH by (intros; eapply H; [right|]; eauto).
  destruct (key r) as [k|] eqn:Ek; cbn; [|reflexivity].
  now rewrite (H r k (or_introl eq_refl) Ek).
Qed.

Section Split.
Context {SK : SortKind}.
Context {A K : Type}.
Variable leb : K -> K -> bool.
Variable key : A -> option K.
Variable key' : A -> K.

(** The rows that have a key come first, sorted among themselves as a
    column without nulls is; the rows without one follow in the order
    they had. *)
Lemma sort_values_descending_na_last_eq (df : list A) :
  (forall r k, In r df -> key r = Some k -> key' r = k) ->
  sort_values_descending_na_last leb key df =
  sort_values_descending leb key'
                         (filter (fun r => negb (isna (key r))) df)
  ++ filter (fun r => isna (key r)) df.
Proof.
  intros Hkey.
  unfold sort_values_descending_na_last, nargsort_descending_na_last.
  rewrite !map_map, take_app. f_equal.
  - rewrite sort_values_descending_eq, take_rev_indexer. f_equal.
    rewrite (non_null_map key key' df Hkey).
    set (good := filter (fun r => negb (isna (key r))) df).
    set (sigma := argsort leb (rev (map key' good))).
    rewrite take_take.
    + rewrite take_rev_indexer.
      now rewrite (take_nonzero (fun r => negb (isna (key r))) df).
    + apply Forall_rev.
      pose proof (nonzero_from_in_range
                    (map (fun r => negb (isna (key r))) df) 0) as H.
      now rewrite length_map in H.
  - apply (take_nonzero (fun r => isna (key r)) df).
Qed.

End Split.

(** *** The head of a sorted table *)

Lemma StronglySorted_app_order {A} (R : A -> A -> Prop) (l1 l2 : list A) :
  StronglySorted R (l1 ++ l2) ->
  forall a b, In a l1 -> In b l2 -> R a b.
Proof.
  induction l1 as [|x l1 IH]; cbn; intros H a b Ha Hb; [contradiction|].
  apply StronglySorted_inv in H as [Hs Hx].
  destruct Ha as [<-|Ha]; [|eauto].
  rewrite Forall_forall in Hx. apply Hx, in_or_app. now right.
Qed.

Lemma StronglySorted_firstn {A} (R : A -> A -> Prop) (n : nat) (l : list A) :
  StronglySorted R l -> StronglySorted R (firstn n l).
Proof.
  intros H. revert n. induction H as [|a l Hs IH Ha]; intros [|n]; cbn;
    try constructor; [apply IH|].
  apply Forall_forall. intros x Hx. rewrite Forall_forall in Ha.
  apply Ha. revert Hx. clear. revert n.
  induction l as [|y l IH]; intros [|n]; cbn; try contradiction.
  intros [->|H]; eauto.
Qed.

Section Head.
Context {SK : SortKind}.
Context {A K : Type}.
Variable leb : K -> K -> bool.
Variable key : A -> K.
Hypothesis leb_total : forall a b, leb a b = true \/ leb b a = true.
Hypothesis leb_trans :
  forall a b c, leb a b = true -> leb b c = true -> leb a c = true.

(** The first [n] rows of a table sorted by descending key: as many as
    there are, up to [n]; keys that never increase; and no row left out
    has a key above that of a row kept. *)
Lemma head_of_sorted (n : nat) (df : list A) :
  let top := firstn n (sort_values_descending leb key df) in
  length top = Nat.min n (length df) /\
  StronglySorted (fun a b => leb (key b) (key a) = true) top /\
  (forall a b, In a top -> In b df ->
               In b top \/ leb (key b) (key a) = true).
Proof.
  intros top. subst top.
  pose proof (sort_values_descending_perm leb key df) as Hperm.
  pose proof (sort_values_descending_sorted leb key df leb_total leb_trans)
    as Hsorted.
  set (s := sort_values_descending leb key df) in *.
  split; [|split].
  - rewrite length_firstn, (Permutation_length Hperm). reflexivity.
  - now apply StronglySorted_firstn.
  - intros a b Ha Hb.
    apply (Permutation_in _ (Permutation_sym Hperm)) in Hb.
    rewrite <- (firstn_skipn n s) in Hb, Hsorted.
    apply in_app_or in Hb as [Hb|Hb]; [now left|right].
    exact (StronglySorted_app_order _ _ _ Hsorted a b Ha Hb).
Qed.

End Head.

End NaLastFacts.

(** ** The top lists *)

Module TopLists.
Import ArtistVisualizer ExtractYear SortFacts NaLast NaLastFacts Report.

Lemma Zleb_total (a b : Z) : (a <=? b) = true \/ (b <=? a) = true.
Proof. rewrite !Z.leb_le. lia. Qed.

Lemma Zleb_trans (a b c : Z) :
  (a <=? b) = true -> (b <=? c) = true -> (a <=? c) = true.
Proof. rewrite !Z.leb_le. lia. Qed.

Lemma Natleb_total (a b : nat) :
  (a <=? b)%nat = true \/ (b <=? a)%nat = true.
Proof. rewrite !Nat.leb_le. lia. Qed.

Lemma Natleb_trans (a b c : nat) :
  (a <=? b)%nat = true -> (b <=? c)%nat = true -> (a <=? c)%nat = true.
Proof. rewrite !Nat.leb_le. lia. Qed.

Lemma float_leb_total (a b : Py.float) :
  float_leb a b = true \/ float_leb b a = true.
Proof.
  destruct a as [|[|]|x], b as [|[|]|y]; cbn; auto.
  destruct (Qlt_le_dec y x) as [H|H].
  - right. apply Qle_bool_iff. now apply Qlt_le_weak.
  - left. now apply Qle_bool_iff.
Qed.

Lemma float_leb_trans (a b c : Py.float) :
  float_leb a b = true -> float_leb b c = true -> float_leb a c = true.
Proof.
  destruct a as [|[|]|x], b as [|[|]|y], c as [|[|]|z]; cbn;
    try reflexivity; try discriminate.
  rewrite !Qle_bool_iff. apply Qle_trans.
Qed.

Lemma unique_In (l : list Py.str) x : In x (unique l) <-> In x l.
Proof.
  induction l as [|y l IH]; cbn; [tauto|].
  rewrite filter_In, IH, negb_true_iff.
  destruct (list_eq_dec N.eq_dec x y) as [->|Hne].
  - tauto.
  - assert (Py.str_eqb x y = false).
    { apply not_true_is_false. now rewrite str_eqb_eq. }
    intuition congruence.
Qed.

Lemma unique_NoDup (l : list Py.str) : NoDup (unique l).
Proof.
  induction l as [|y l IH]; cbn; constructor.
  - rewrite filter_In, negb_true_iff, str_eqb_refl. now intros [_ ?].
  - now apply NoDup_filter.
Qed.

Lemma non_null_In {K} (column : list (option K)) k :
  In k (non_null column) <-> In (Some k) column.
Proof.
  unfold non_null. rewrite in_flat_map. split.
  - intros ([k'|] & Hin & Hk); [|contradiction].
    destruct Hk as [->|[]]. exact Hin.
  - intros H. exists (Some k). split; [exact H|now left].
Qed.

Lemma group_size_positive k (column : list (option Py.str)) :
  In (Some k) column -> (1 <= group_size k column)%nat.
Proof.
  unfold group_size. intros H.
  assert (Hin : In (Some k)
                   (filter (fun c => match c with
                                     | Some k' => Py.str_eqb k' k
                                     | None => false
                                     end) column)).
  { apply filter_In. split; [exact H|apply str_eqb_refl]. }
  destruct (filter _ column); [contradiction|cbn; lia].
Qed.

Lemma NoDup_firstn {A} (n : nat) (l : list A) : NoDup l -> NoDup (firstn n l).
Proof.
  intros H. rewrite <- (firstn_skipn n l) in H.
  now apply NoDup_app_remove_r in H.
Qed.

Lemma firstn_map_fst {A B} (n : nat) (l : list (A * B)) :
  map fst (firstn n l) = firstn n (map fst l).
Proof. symmetry. apply firstn_map. Qed.

Section Facts.
Context {SK : SortKind}.

(** The sort of [get_top_artists_data], without the nulls: the rows
    with a follower count, sorted, then the others as they stood. *)
Lemma get_top_artists_data_eq (artist_df : list Enriched.t) :
  get_top_artists_data artist_df =
  map columns
      (firstn 10 (sort_values_descending Z.leb followers
                                         (filter followed artist_df)
                  ++ filter unfollowed artist_df)).
Proof.
  unfold get_top_artists_data. f_equal. f_equal.
  apply sort_values_descending_na_last_eq.
  intros r k _ Hk. unfold followers. now rewrite Hk.
Qed.

Lemma followed_sorted (artist_df : list Enriched.t) :
  StronglySorted (fun a b => followers b <= followers a)
                 (sort_values_descending Z.leb followers
                                         (filter followed artist_df)).
Proof.
  eapply StronglySorted_impl;
    [|apply (sort_values_descending_sorted Z.leb followers _
               Zleb_total Zleb_trans)].
  cbn. intros a b H. now apply Z.leb_le.
Qed.

Lemma length_followed_unfollowed (artist_df : list Enriched.t) :
  (length (filter followed artist_df) + length (filter unfollowed artist_df)
   = length artist_df)%nat.
Proof.
  rewrite <- (Permutation_length
                (Normalizer.filter_partition followed artist_df)).
  rewrite length_app. f_equal. f_equal.
  apply filter_ext. intros r. unfold followed, unfollowed.
  now rewrite negb_involutive.
Qed.

(** X14.  [get_top_artists_data] lists the rows that have a follower
    count first, by counts that never increase, and after them the rows
    without one, in the order of the table; of that list it returns the
    first ten, or all when the table has fewer rows.  So a row without a
    follower count is in the list whenever fewer than ten rows have
    one. *)
Theorem top_artists_puts_followed_rows_first (artist_df : list Enriched.t) :
  exists ranked,
    Permutation ranked (filter followed artist_df) /\
    StronglySorted (fun a b => followers b <= followers a) ranked /\
    get_top_artists_data artist_df =
      map columns (firstn 10 (ranked ++ filter unfollowed artist_df)) /\
    length (get_top_artists_data artist_df)
    = Nat.min 10 (length artist_df).
Proof.
  exists (sort_values_descending Z.leb followers (filter followed artist_df)).
  split; [apply sort_values_descending_perm|].
  split; [apply followed_sorted|].
  split; [apply get_top_artists_data_eq|].
  rewrite get_top_artists_data_eq.
  rewrite length_map, length_firstn, length_app.
  rewrite (Permutation_length (sort_values_descending_perm _ _ _)).
  now rewrite length_followed_unfollowed.
Qed.

Section PerMillion.
Variable str_to_numeric : Py.str -> Py.float.
Variable artist_df : list Enriched.t.
Variable countries_df : list Country.t.

Let table := artist_per_country str_to_numeric artist_df countries_df.
Let summary_ranking := top_per_million str_to_numeric artist_df countries_df.
Let chart_ranking := top_countries str_to_numeric artist_df countries_df.

(** The rows both rankings are drawn from. *)
Definition eligible : list PerCountry :=
  filter at_least_3 (filter has_rate table).

(** X15.  The three countries of the summary are the first three bars of
    the per-million chart.  The chart shows the countries with at least 3
    artists and a rate, ten of them at most, by rates that never
    increase, and no such country left out has a rate above that of a
    country shown. *)
Theorem summary_ranking_heads_the_chart :
  summary_ranking = firstn 3 chart_ranking /\
  length chart_ranking = Nat.min 10 (length eligible) /\
  StronglySorted
    (fun a b =>
       float_leb (ArtistsPerMillion b) (ArtistsPerMillion a) = true)
    chart_ranking /\
  (forall a b, In a chart_ranking -> In b eligible ->
     In b chart_ranking \/
     float_leb (ArtistsPerMillion b) (ArtistsPerMillion a) = true).
Proof.
  unfold summary_ranking, chart_ranking, top_per_million, top_countries.
  fold table.
  assert (Hsame : filter has_rate (filter at_least_3 table) = eligible).
  { unfold eligible. rewrite !Normalizer.filter_filter.
    apply filter_ext. intros r. apply andb_comm. }
  rewrite Hsame. fold eligible.
  split; [now rewrite firstn_firstn|].
  apply (head_of_sorted float_leb ArtistsPerMillion
                        float_leb_total float_leb_trans 10 eligible).
Qed.

End PerMillion.

(** X16.  The top countries of the summary are up to three distinct
    countries of the table, each with the number of its artists, by
    numbers that never increase, and no country of the table left out
    has more artists than a country listed. *)
Theorem summary_top_countries_are_the_most_frequent
        (artist_df : list Enriched.t) :
  let column := map country_of artist_df in
  let top := summary_top_countries artist_df in
  length top = Nat.min 3 (countries_count artist_df) /\
  NoDup (map fst top) /\
  (forall k n, In (k, n) top ->
     n = group_size k column /\ (1 <= n)%nat) /\
  StronglySorted (fun a b => (snd b <= snd a)%nat) top /\
  (forall k n c, In (k, n) top -> In (Some c) column ->
     In c (map fst top) \/ (group_size c column <= n)%nat).
Proof.
  intros column top. subst top.
  unfold summary_top_countries, Series_value_counts, countries_count.
  fold column.
  set (keys := unique (non_null column)).
  set (result := map (fun k => (k, group_size k column)) keys).
  destruct (head_of_sorted Nat.leb (@snd Py.str nat)
                           Natleb_total Natleb_trans 3 result)
    as (Hlen & Hsorted & Hdom).
  pose proof (sort_values_descending_perm Nat.leb (@snd Py.str nat) result)
    as Hperm.
  set (s := sort_values_descending Nat.leb snd result) in *.
  assert (Hin : forall k n, In (k, n) (firstn 3 s) ->
                            In k keys /\ n = group_size k column).
  { intros k n H. apply PerMillion.In_firstn in H.
    apply (Permutation_in _ Hperm) in H.
    apply in_map_iff in H as (k' & [= <- <-] & Hk). auto. }
  split; [|split; [|split; [|split]]].
  - rewrite Hlen. unfold result. now rewrite length_map.
  - rewrite firstn_map_fst. apply NoDup_firstn.
    apply (Permutation_NoDup (l := map fst result)).
    + apply Permutation_map, Permutation_sym, Hperm.
    + unfold result. rewrite map_map. cbn. rewrite map_id.
      apply unique_NoDup.
  - intros k n H. apply Hin in H as [Hk ->]. split; [reflexivity|].
    apply group_size_positive. apply non_null_In, unique_In, Hk.
  - eapply StronglySorted_impl; [|exact Hsorted].
    cbn. intros a b H. now apply Nat.leb_le.
  - intros k n c Htop Hc.
    assert (Hres : In (c, group_size c column) result).
    { unfold result. apply in_map_iff. exists c. split; [reflexivity|].
      apply unique_In, non_null_In, Hc. }
    destruct (Hdom (k, n) (c, group_size c column) Htop Hres) as [H|H].
    + left. apply in_map_iff. exists (c, group_size c column). auto.
    + right. cbn in H. now apply Nat.leb_le.
Qed.

End Facts.

(** *** Concrete tables *)

(** Three rows, the first alone with a follower count: it heads the
    list, the two others follow as they stood. *)
Example top_artists_of_three_rows :
  map TopArtist.spotify_followers
      (@get_top_artists_data SortKinds.stable_kind
                             Enrichment.enriched_three_rows)
  = [Some 5000; None; None].
Proof. vm_compute. reflexivity. Qed.

(** Three artists of Sweden, three of Iceland, two of Germany. *)
Example top_countries_of_sample :
  @summary_top_countries SortKinds.stable_kind PerMillion.sample_artists
  = [(Py.of_string "Sweden", 3%nat); (Py.of_string "Iceland", 3%nat);
     (Py.of_string "Germany", 2%nat)] /\
  @countries_count PerMillion.sample_artists = 3%nat.
Proof. split; vm_compute; reflexivity. Qed.

End TopLists.

(** ** The conversation *)

Module Conversation.
Import ArtistDataCollector Bot.

(** *** The store *)

Lemma get_setitem (k k' : Z) (session : Session.t) (ud : user_data) :
  get k' (setitem k session ud) = if k =? k' then Some session else get k' ud.
Proof.
  induction ud as [|[k0 v] ud IH]; cbn [setitem get].
  - now destruct (k =? k').
  - destruct (k0 =? k) eqn:E0; cbn [get].
    + apply Z.eqb_eq in E0. subst k0. now destruct (k =? k').
    + rewrite IH. destruct (k0 =? k') eqn:E1; [|reflexivity].
      apply Z.eqb_eq in E1. subst k0. now rewrite Z.eqb_sym, E0.
Qed.

Lemma get_setitem_same (k : Z) (session : Session.t) (ud : user_data) :
  get k (setitem k session ud) = Some session.
Proof. now rewrite get_setitem, Z.eqb_refl. Qed.

Lemma get_setitem_other (k k' : Z) (session : Session.t) (ud : user_data) :
  k' <> k -> get k' (setitem k session ud) = get k' ud.
Proof.
  intros H. rewrite get_setitem.
  destruct (k =? k') eqn:E; [|reflexivity].
  apply Z.eqb_eq in E. congruence.
Qed.

Lemma get_delitem (k k' : Z) (ud : user_data) :
  get k' (delitem k ud) = if k =? k' then None else get k' ud.
Proof.
  unfold delitem. induction ud as [|[k0 v] ud IH]; cbn [filter get fst].
  - now destruct (k =? k').
  - destruct (k0 =? k) eqn:E0; cbn [negb get].
    + apply Z.eqb_eq in E0. subst k0. rewrite IH.
      now destruct (k =? k').
    + destruct (k0 =? k') eqn:E1; [|exact IH].
      apply Z.eqb_eq in E1. subst k0. now rewrite Z.eqb_sym, E0.
Qed.

Lemma get_None (k : Z) (ud : user_data) :
  get k ud = None <-> ~ In k (map fst ud).
Proof.
  induction ud as [|[k0 v] ud IH]; cbn [get map fst In]; [tauto|].
  destruct (k0 =? k) eqn:E.
  - apply Z.eqb_eq in E. split; [discriminate|]. intros H. exfalso. auto.
  - apply Z.eqb_neq in E. rewrite IH. tauto.
Qed.

Lemma get_In (k : Z) (session : Session.t) (ud : user_data) :
  NoDup (map fst ud) ->
  (get k ud = Some session <-> In (k, session) ud).
Proof.
  induction ud as [|[k0 v] ud IH]; cbn [get map fst In]; intros Hnd.
  - split; [discriminate|contradiction].
  - apply NoDup_cons_iff in Hnd as [Hfresh Hnd].
    destruct (k0 =? k) eqn:E.
    + apply Z.eqb_eq in E. subst k0. split.
      * intros [= ->]. now left.
      * intros [[= ->]|Hin]; [reflexivity|].
        exfalso. apply Hfresh. apply in_map_iff. now exists (k, session).
    + apply Z.eqb_neq in E. rewrite (IH Hnd). split; [auto|].
      intros [[= -> _]|Hin]; [contradiction|assumption].
Qed.

Lemma keys_setitem (k : Z) (session : Session.t) (ud : user_data) :
  map fst (setitem k session ud) =
  match get k ud with
  | Some _ => map fst ud
  | None => map fst ud ++ [k]
  end.
Proof.
  induction ud as [|[k0 v] ud IH]; cbn [setitem get map fst app];
    [reflexivity|].
  destruct (k0 =? k) eqn:E; cbn [map fst]; [reflexivity|].
  rewrite IH. now destruct (get k ud).
Qed.

Lemma NoDup_setitem (k : Z) (session : Session.t) (ud : user_data) :
  NoDup (map fst ud) -> NoDup (map fst (setitem k session ud)).
Proof.
  intros H. rewrite keys_setitem.
  destruct (get k ud) eqn:E; [assumption|].
  apply get_None in E.
  apply (Permutation_NoDup (l := k :: map fst ud));
    [apply Permutation_cons_append|].
  now constructor.
Qed.

Lemma NoDup_delitem (k : Z) (ud : user_data) :
  NoDup (map fst ud) -> NoDup (map fst (delitem k ud)).
Proof.
  unfold delitem. induction ud as [|[k0 v] ud IH]; cbn [filter map fst];
    intros H; [constructor|].
  apply NoDup_cons_iff in H as [Hfresh Hnd].
  destruct (negb (k0 =? k)); [|auto].
  cbn [map fst]. constructor; [|auto].
  intros Hin. apply Hfresh. apply in_map_iff in Hin as (kv & E & Hkv).
  apply filter_In in Hkv as [Hkv _]. apply in_map_iff. eauto.
Qed.

Lemma get_delete_all (ks : list Z) : forall (ud : user_data) (k : Z),
  get k (fold_left (fun ud user_id => delitem user_id ud) ks ud) =
  if existsb (Z.eqb k) ks then None else get k ud.
Proof.
  induction ks as [|k0 ks IH]; intros ud k; cbn [fold_left existsb];
    [reflexivity|].
  rewrite IH, get_delitem, (Z.eqb_sym k k0).
  destruct (k0 =? k); cbn [orb]; [|reflexivity].
  now destruct (existsb (Z.eqb k) ks).
Qed.

Lemma NoDup_delete_all (ks : list Z) : forall (ud : user_data),
  NoDup (map fst ud) ->
  NoDup (map fst (fold_left (fun ud user_id => delitem user_id ud) ks ud)).
Proof.
  induction ks as [|k0 ks IH]; intros ud H; cbn [fold_left]; [assumption|].
  apply IH. now apply NoDup_delitem.
Qed.

(** What [cleanup_old_sessions] leaves of a dict. *)
Lemma get_cleanup (now k : Z) (ud : user_data) :
  NoDup (map fst ud) ->
  get k (cleanup_old_sessions now ud) =
  match get k ud with
  | Some session => if expired now session then None else Some session
  | None => None
  end.
Proof.
  intros Hnd. unfold cleanup_old_sessions. rewrite get_delete_all.
  destruct (existsb (Z.eqb k) _) eqn:Ex.
  - apply existsb_exists in Ex as (k' & Hin & E).
    apply Z.eqb_eq in E. subst k'.
    apply in_map_iff in Hin as ([k' s] & E & Hin). cbn in E. subst k'.
    apply filter_In in Hin as [Hin Hexp]. cbn in Hexp.
    apply (get_In _ _ _ Hnd) in Hin. now rewrite Hin, Hexp.
  - destruct (get k ud) as [s|] eqn:Eg; [|reflexivity].
    destruct (expired now s) eqn:Hexp; [|reflexivity].
    exfalso. apply (get_In _ _ _ Hnd) in Eg.
    assert (Hk : In k (map fst (filter (fun item => expired now (snd item))
                                       ud))).
    { apply in_map_iff. exists (k, s). split; [reflexivity|].
      apply filter_In. auto. }
    assert (existsb (Z.eqb k)
              (map fst (filter (fun item => expired now (snd item)) ud))
            = true).
    { apply existsb_exists. exists k. split; [exact Hk|apply Z.eqb_refl]. }
    congruence.
Qed.

(** *** The conversation *)

(** The states in which [handle_message] has no branch. *)
Definition quiet (st : State) : bool :=
  match st with
  | collecting | showing_results | idle => true
  | waiting_for_genre | waiting_for_count => false
  end.

(** A session that waits for the count has a genre. *)
Definition genre_known (session : Session.t) : Prop :=
  Session.state session = Some waiting_for_count ->
  Session.genre session <> None.

(** The keys of the dict are distinct, and every session that waits for
    the count has a genre. *)
Definition well_formed (ud : user_data) : Prop :=
  NoDup (map fst ud) /\
  forall user_id session, get user_id ud = Some session -> genre_known session.

Lemma well_formed_empty : well_formed [].
Proof. split; [constructor|]. intros user_id session H. discriminate H. Qed.

Lemma well_formed_setitem user_id session ud :
  well_formed ud -> genre_known session ->
  well_formed (setitem user_id session ud).
Proof.
  intros [Hnd Hg] Hs. split; [now apply NoDup_setitem|].
  intros k s. rewrite get_setitem.
  destruct (user_id =? k); [intros [= <-]; exact Hs|apply Hg].
Qed.

Lemma well_formed_delitem user_id ud :
  well_formed ud -> well_formed (delitem user_id ud).
Proof.
  intros [Hnd Hg]. split; [now apply NoDup_delitem|].
  intros k s. rewrite get_delitem.
  destruct (user_id =? k); [discriminate|apply Hg].
Qed.

Lemma well_formed_cleanup now ud :
  well_formed ud -> well_formed (cleanup_old_sessions now ud).
Proof.
  intros [Hnd Hg]. split.
  - now apply NoDup_delete_all.
  - intros k s. rewrite (get_cleanup now k ud Hnd).
    destruct (get k ud) as [s0|] eqn:E; [|discriminate].
    destruct (expired now s0); [discriminate|].
    intros [= <-]. now apply (Hg k).
Qed.

Lemma get_touch now user_id k ud :
  get k (touch now user_id ud) =
  if user_id =? k
  then option_map (Session.with_last_activity (Some now)) (get k ud)
  else get k ud.
Proof.
  unfold touch. destruct (user_id =? k) eqn:E.
  - apply Z.eqb_eq in E. subst k.
    destruct (get user_id ud) as [s|] eqn:Es; cbn [option_map].
    + apply get_setitem_same.
    + exact Es.
  - destruct (get user_id ud) as [s|]; [|reflexivity].
    now rewrite get_setitem, E.
Qed.

Lemma well_formed_touch now user_id ud :
  well_formed ud -> well_formed (touch now user_id ud).
Proof.
  intros H. unfold touch.
  destruct (get user_id ud) as [s|] eqn:E; [|exact H].
  apply well_formed_setitem; [exact H|].
  destruct H as [_ Hg]. exact (Hg user_id s E).
Qed.

Lemma well_formed_send_progress_phase user_id phase ud :
  well_formed ud -> well_formed (send_progress_phase user_id phase ud).
Proof.
  intros H. unfold send_progress_phase. cbn zeta.
  assert (H1 : well_formed (init_phase user_id ud)).
  { unfold init_phase. destruct (get user_id ud) as [s|] eqn:E.
    - destruct (Session.current_phase s); [exact H|].
      apply well_formed_setitem; [exact H|].
      destruct H as [_ Hg]. exact (Hg user_id s E).
    - apply well_formed_setitem; [exact H|]. intros Hst. discriminate Hst. }
  destruct phase as [p|]; [|exact H1].
  destruct (get user_id (init_phase user_id ud)) as [s|] eqn:E; [|exact H1].
  apply well_formed_setitem; [exact H1|].
  destruct H1 as [_ Hg]. exact (Hg user_id s E).
Qed.

Section ConversationFacts.
Variable strip : Py.str -> Py.str.
Variable int : Py.str -> option Z.
Variable DEFAULT_ARTISTS_COUNT : Z.

Let handle := handle_message strip int DEFAULT_ARTISTS_COUNT.

(** One piece of a handler that runs without giving way to another:
    every write to [user_data] in [bot.py] is in one of them. *)
Inductive step : user_data -> user_data -> Prop :=
| step_analyze user_id ud :
    step ud (fst (analyze user_id ud))
| step_end user_id ud :
    step ud (fst (end_ user_id ud))
| step_message now user_id text ud h :
    handle now user_id text ud = Returned h -> step ud (store h)
| step_message_error now user_id text ud ud' :
    handle now user_id text ud = KeyError ud' -> step ud ud'
| step_cleanup now ud :
    step ud (cleanup_old_sessions now ud)
| step_progress_phase user_id phase ud :
    step ud (send_progress_phase user_id phase ud)
| step_progress_sent user_id message_id ud ud' :
    send_progress_sent user_id message_id ud = Some ud' -> step ud ud'
| step_settle_idle user_id ud ud' :
    settle_idle user_id ud = Some ud' -> step ud ud'
| step_settle_results user_id visualizer ud ud' :
    settle_results user_id visualizer ud = Some ud' -> step ud ud'.

(** The stores the bot can get to from the empty dict it starts with. *)
Inductive reachable : user_data -> Prop :=
| reachable_start : reachable []
| reachable_step ud ud' : reachable ud -> step ud ud' -> reachable ud'.

(** [handle_message], branch by branch, on the session the user has
    once [last_activity] is set. *)
Lemma handle_message_cases now user_id text ud :
  handle now user_id text ud =
  let ud1 := touch now user_id ud in
  match get user_id ud with
  | None => Returned (mkHandled ud [UseAnalyze] None)
  | Some session0 =>
      let session := Session.with_last_activity (Some now) session0 in
      match Session.state session0 with
      | None => Returned (mkHandled ud1 [StartOver] None)
      | Some waiting_for_genre =>
          match strip text with
          | [] => Returned (mkHandled ud1 [EnterValidGenre] None)
          | _ :: _ =>
              Returned
                (mkHandled
                   (setitem user_id
                      (Session.with_state (Some waiting_for_count)
                         (Session.with_genre (Some (strip text)) session))
                      ud1)
                   [AskCount DEFAULT_ARTISTS_COUNT] None)
          end
      | Some waiting_for_count =>
          let start count :=
            let ud2 :=
              setitem user_id
                (Session.with_state (Some collecting)
                   (Session.with_count (Some count) session)) ud1 in
            match Session.genre session0 with
            | None => KeyError ud2
            | Some genre =>
                Returned (mkHandled ud2 [Starting count genre]
                                    (Some (genre, count)))
            end in
          match strip text with
          | [] => start DEFAULT_ARTISTS_COUNT
          | _ :: _ =>
              match int (strip text) with
              | Some count =>
                  if count <? 10
                  then Returned (mkHandled ud1 [AtLeast10] None)
                  else if count >? 1000
                  then Returned (mkHandled ud1 [NoMoreThan1000] None)
                  else start count
              | None => Returned (mkHandled ud1 [EnterValidNumber] None)
              end
          end
      | Some _ => Returned (mkHandled ud1 [] None)
      end
  end.
Proof.
  unfold handle, handle_message. cbn zeta.
  rewrite get_touch, Z.eqb_refl.
  destruct (get user_id ud) as [s0|] eqn:E0; cbn [option_map].
  - destruct s0 as [[[| | | |]|] g c la ph pid vz]; cbn; try reflexivity.
  - unfold touch. now rewrite E0.
Qed.

Lemma handle_message_well_formed now user_id text ud :
  well_formed ud ->
  match handle now user_id text ud with
  | Returned h => well_formed (store h)
  | KeyError _ => False
  end.
Proof.
  intros Hwf. rewrite handle_message_cases. cbn zeta.
  pose proof (well_formed_touch now user_id ud Hwf) as Hwf1.
  destruct (get user_id ud) as [s0|] eqn:E0; [|exact Hwf].
  pose proof (proj2 Hwf user_id s0 E0) as Hg.
  destruct (Session.state s0) as [[| | | |]|] eqn:Est; cbn [store];
    try exact Hwf1.
  - destruct (strip text) as [|c t] eqn:Et; cbn [store]; [exact Hwf1|].
    apply well_formed_setitem; [exact Hwf1|]. intros _. discriminate.
  - assert (Hstart : forall count,
      match
        match Session.genre s0 with
        | None =>
            KeyError
              (setitem user_id
                 (Session.with_state (Some collecting)
                    (Session.with_count (Some count)
                       (Session.with_last_activity (Some now) s0)))
                 (touch now user_id ud))
        | Some genre =>
            Returned
              (mkHandled
                 (setitem user_id
                    (Session.with_state (Some collecting)
                       (Session.with_count (Some count)
                          (Session.with_last_activity (Some now) s0)))
                    (touch now user_id ud))
                 [Starting count genre] (Some (genre, count)))
        end
      with
      | Returned h => well_formed (store h)
      | KeyError _ => False
      end).
    { intros count. destruct (Session.genre s0) as [g|] eqn:Eg.
      - cbn [store]. apply well_formed_setitem; [exact Hwf1|].
        intros Hst. discriminate Hst.
      - now apply Hg. }
    destruct (strip text) as [|c t]; [apply Hstart|].
    destruct (int (c :: t)) as [count|]; [|exact Hwf1].
    destruct (count <? 10); [exact Hwf1|].
    destruct (count >? 1000); [exact Hwf1|]. apply Hstart.
Qed.

Lemma step_well_formed ud ud' :
  step ud ud' -> well_formed ud -> well_formed ud'.
Proof.
  intros Hstep Hwf.
  destruct Hstep as [user_id ud|user_id ud|now user_id text ud h E
                     |now user_id text ud ud' E|now ud|user_id phase ud
                     |user_id message_id ud ud' E|user_id ud ud' E
                     |user_id visualizer ud ud' E].
  - cbn. apply well_formed_setitem; [exact Hwf|]. intros H. discriminate H.
  - cbn. destruct (get user_id ud); [|exact Hwf].
    now apply well_formed_delitem.
  - pose proof (handle_message_well_formed now user_id text ud Hwf) as H.
    now rewrite E in H.
  - pose proof (handle_message_well_formed now user_id text ud Hwf) as H.
    now rewrite E in H.
  - now apply well_formed_cleanup.
  - now apply well_formed_send_progress_phase.
  - unfold send_progress_sent in E.
    destruct (get user_id ud) as [s|] eqn:Es; [|discriminate].
    injection E as <-. apply well_formed_setitem; [exact Hwf|].
    exact (proj2 Hwf user_id s Es).
  - unfold settle_idle in E.
    destruct (get user_id ud) as [s|] eqn:Es; [|discriminate].
    injection E as <-. apply well_formed_setitem; [exact Hwf|].
    intros H. discriminate H.
  - unfold settle_results in E.
    destruct (get user_id ud) as [s|] eqn:Es; [|discriminate].
    injection E as <-. apply well_formed_setitem; [exact Hwf|].
    intros H. discriminate H.
Qed.

Lemma reachable_well_formed ud : reachable ud -> well_formed ud.
Proof.
  induction 1 as [|ud ud' _ IH Hstep]; [apply well_formed_empty|].
  eapply step_well_formed; eauto.
Qed.

(** X17.  [handle_message] starts a collection exactly when the user's
    session waits for the count and the text, stripped, is empty or an
    integer from 10 to 1000.  The collection then runs for the genre the
    session holds, and for that integer or, on an empty text, for the
    default count, which is not checked against the range.  The session
    goes to the state ["collecting"], and the one reply announces the
    start. *)
Theorem collection_starts_on_a_valid_count
        now user_id text ud h genre count :
  handle now user_id text ud = Returned h ->
  (task h = Some (genre, count) <->
   exists session,
     get user_id ud = Some session /\
     Session.state session = Some waiting_for_count /\
     Session.genre session = Some genre /\
     (strip text = [] /\ count = DEFAULT_ARTISTS_COUNT \/
      strip text <> [] /\ int (strip text) = Some count /\
      10 <= count <= 1000)) /\
  (task h = Some (genre, count) ->
   replies h = [Starting count genre] /\
   exists session,
     get user_id ud = Some session /\
     get user_id (store h) =
     Some (Session.with_state (Some collecting)
             (Session.with_count (Some count)
                (Session.with_last_activity (Some now) session)))).
Proof.
  rewrite handle_message_cases. cbn zeta.
  destruct (get user_id ud) as [s0|] eqn:E0.
  2:{ intros [= <-]. cbn. split; [|discriminate].
      split; [discriminate|]. now intros (s & [=] & _). }
  destruct (Session.state s0) as [st|] eqn:Est.
  2:{ intros [= <-]. cbn. split; [|discriminate].
      split; [discriminate|]. now intros (s & [= <-] & Hs & _);
        rewrite Est in Hs. }
  assert (Hno : forall ud1 rs,
            Session.state s0 <> Some waiting_for_count \/
            (strip text <> [] /\
             (int (strip text) = None \/
              exists c, int (strip text) = Some c /\ ~ 10 <= c <= 1000)) ->
            Returned (mkHandled ud1 rs None) = Returned h ->
            (task h = Some (genre, count) <->
             exists session,
               Some s0 = Some session /\
               Session.state session = Some waiting_for_count /\
               Session.genre session = Some genre /\
               (strip text = [] /\ count = DEFAULT_ARTISTS_COUNT \/
                strip text <> [] /\ int (strip text) = Some count /\
                10 <= count <= 1000)) /\
            (task h = Some (genre, count) ->
             replies h = [Starting count genre] /\
             exists session,
               Some s0 = Some session /\
               get user_id (store h) =
               Some (Session.with_state (Some collecting)
                       (Session.with_count (Some count)
                          (Session.with_last_activity (Some now) session))))).
  { intros ud1 rs Hwhy [= <-]. cbn. split; [|discriminate].
    split; [discriminate|].
    intros (s & [= <-] & Hs & _ & Hc).
    destruct Hwhy as [Hst|(Hne & Hint)]; [contradiction|].
    destruct Hc as [[Hempty _]|(_ & Hc & Hrange)]; [contradiction|].
    destruct Hint as [Hint|(c & Hint & Hout)]; [congruence|].
    rewrite Hc in Hint. injection Hint as <-. contradiction. }
  assert (Hyes : forall c,
            Session.state s0 = Some waiting_for_count ->
            (strip text = [] /\ c = DEFAULT_ARTISTS_COUNT \/
             strip text <> [] /\ int (strip text) = Some c /\
             10 <= c <= 1000) ->
            match Session.genre s0 with
            | None =>
                KeyError
                  (setitem user_id
                     (Session.with_state (Some collecting)
                        (Session.with_count (Some c)
                           (Session.with_last_activity (Some now) s0)))
                     (touch now user_id ud))
            | Some g =>
                Returned
                  (mkHandled
                     (setitem user_id
                        (Session.with_state (Some collecting)
                           (Session.with_count (Some c)
                              (Session.with_last_activity (Some now) s0)))
                        (touch now user_id ud))
                     [Starting c g] (Some (g, c)))
            end = Returned h ->
            (task h = Some (genre, count) <->
             exists session,
               Some s0 = Some session /\
               Session.state session = Some waiting_for_count /\
               Session.genre session = Some genre /\
               (strip text = [] /\ count = DEFAULT_ARTISTS_COUNT \/
                strip text <> [] /\ int (strip text) = Some count /\
                10 <= count <= 1000)) /\
            (task h = Some (genre, count) ->
             replies h = [Starting count genre] /\
             exists session,
               Some s0 = Some session /\
               get user_id (store h) =
               Some (Session.with_state (Some collecting)
                       (Session.with_count (Some count)
                          (Session.with_last_activity (Some now) session))))).
  { intros c Hst Hc. destruct (Session.genre s0) as [g|] eqn:Eg;
      [|discriminate].
    intros [= <-]. cbn [task replies store]. split.
    - split.
      + intros [= <- <-]. exists s0. auto.
      + intros (s & [= <-] & _ & Hg & Hc').
        rewrite Eg in Hg. injection Hg as <-.
        f_equal. f_equal.
        destruct Hc as [[He ->]|(Hne & Hi & _)],
                 Hc' as [[He' ->]|(Hne' & Hi' & _)];
          try reflexivity; try contradiction; congruence.
    - intros [= <- <-]. split; [reflexivity|].
      exists s0. split; [reflexivity|]. apply get_setitem_same. }
  destruct st.
  - destruct (strip text) as [|c t] eqn:Et; apply Hno; left; congruence.
  - destruct (strip text) as [|c t] eqn:Et.
    + apply Hyes; auto.
    + destruct (int (c :: t)) as [n|] eqn:Ei.
      * destruct (n <? 10) eqn:E10.
        { apply Hno. right. split; [discriminate|]. right. exists n.
          split; [reflexivity|]. apply Z.ltb_lt in E10. lia. }
        destruct (n >? 1000) eqn:E1000.
        { apply Hno. right. split; [discriminate|]. right. exists n.
          split; [reflexivity|]. apply Z.gtb_lt in E1000. lia. }
        apply Hyes; [exact Est|]. right.
        split; [discriminate|]. split; [reflexivity|].
        apply Z.ltb_ge in E10.
        assert (~ 1000 < n) by (rewrite <- Z.gtb_lt; congruence). lia.
      * apply Hno. right. split; [discriminate|]. now left.
  - apply Hno. left. congruence.
  - apply Hno. left. congruence.
  - apply Hno. left. congruence.
Qed.

(** The text messages of one user, handled in turn: the store they
    leave, the replies and the collections started; [None] when one of
    them ends in a [KeyError]. *)
Fixpoint handle_messages (user_id : Z) (messages : list (Z * Py.str))
         (ud : user_data)
  : option (user_data * list reply * list (Py.str * Z)) :=
  match messages with
  | [] => Some (ud, [], [])
  | (now, text) :: rest =>
      match handle now user_id text ud with
      | KeyError _ => None
      | Returned h =>
          match handle_messages user_id rest (store h) with
          | Some (ud', rs, ts) =>
              Some (ud', replies h ++ rs,
                    match task h with
                    | Some t => [t]
                    | None => []
                    end ++ ts)
          | None => None
          end
      end
  end.

(** X18.  While a user's session is in the state ["collecting"],
    ["showing_results"] or ["idle"], text messages of that user get no
    reply and start no collection, however many they are: all they
    change is [last_activity], and no other session is touched.  (Only
    [/analyze] leads out of these states.) *)
Theorem no_reaction_outside_the_two_prompts
        user_id messages ud session st :
  get user_id ud = Some session ->
  Session.state session = Some st -> quiet st = true ->
  exists ud',
    handle_messages user_id messages ud = Some (ud', [], []) /\
    get user_id ud' =
      Some (Session.with_last_activity
              (fold_left (fun _ m => Some (fst m)) messages
                         (Session.last_activity session))
              session) /\
    forall other, other <> user_id -> get other ud' = get other ud.
Proof.
  revert ud session.
  induction messages as [|[now text] messages IH]; intros ud session Hs Hst Hq.
  - exists ud. cbn. split; [reflexivity|]. split; [|reflexivity].
    rewrite Hs. now destruct session.
  - cbn [handle_messages fold_left fst].
    rewrite handle_message_cases. cbn zeta. rewrite Hs, Hst.
    set (session1 := Session.with_last_activity (Some now) session).
    assert (H1 : get user_id (touch now user_id ud) = Some session1).
    { rewrite get_touch, Z.eqb_refl, Hs. reflexivity. }
    destruct (IH (touch now user_id ud) session1 H1 Hst Hq)
      as (ud' & Hrun & Hget & Hother).
    exists ud'.
    replace (match st with
             | waiting_for_genre => _
             | waiting_for_count => _
             | _ => Returned (mkHandled (touch now user_id ud) [] None)
             end)
      with (Returned (mkHandled (touch now user_id ud) [] None))
      by (destruct st; try reflexivity; discriminate Hq).
    cbn [store replies task]. rewrite Hrun. cbn [app].
    split; [reflexivity|]. split.
    + rewrite Hget. subst session1. now destruct session.
    + intros other Hne. rewrite (Hother other Hne), get_touch.
      destruct (user_id =? other) eqn:E; [|reflexivity].
      apply Z.eqb_eq in E. congruence.
Qed.

(** X19.  Whatever [/analyze], [/end], text messages, clean-ups and the
    pieces of [send_progress] and [process_data] did before, in any
    order, [handle_message] finds the genre it reads for a session that
    waits for the count: it ends without a [KeyError]. *)
Theorem handle_message_finds_the_genre ud now user_id text :
  reachable ud ->
  exists h, handle now user_id text ud = Returned h.
Proof.
  intros Hreach. apply reachable_well_formed in Hreach.
  pose proof (handle_message_well_formed now user_id text ud Hreach) as H.
  destruct (handle now user_id text ud) as [h|ud']; [eauto|contradiction].
Qed.

(** X20.  [cleanup_old_sessions] removes a session exactly when it has a
    [last_activity] more than 1800 seconds before the current time, and
    leaves every other session as it is.  A session [/analyze] has just
    opened has no [last_activity]: until a text message of the user
    arrives no clean-up removes it, however late. *)
Theorem cleanup_removes_what_was_idle_for_30_minutes
        ud current_time user_id :
  reachable ud ->
  get user_id (cleanup_old_sessions current_time ud) =
    match get user_id ud with
    | Some session =>
        match Session.last_activity session with
        | Some t =>
            if current_time - t >? 1800000000 then None else Some session
        | None => Some session
        end
    | None => None
    end /\
  forall times,
    get user_id
        (fold_left (fun ud t => cleanup_old_sessions t ud) times
                   (fst (analyze user_id ud))) =
    Some (Session.with_state (Some waiting_for_genre) Session.empty).
Proof.
  intros Hreach. apply reachable_well_formed in Hreach as Hwf.
  split.
  - rewrite (get_cleanup _ _ _ (proj1 Hwf)).
    destruct (get user_id ud) as [s|]; [|reflexivity].
    unfold expired. now destruct (Session.last_activity s).
  - intros times.
    assert (Hwf1 : well_formed (fst (analyze user_id ud))).
    { apply (step_well_formed ud); [apply step_analyze|exact Hwf]. }
    assert (H1 : get user_id (fst (analyze user_id ud)) =
                 Some (Session.with_state (Some waiting_for_genre)
                                          Session.empty))
      by apply get_setitem_same.
    revert Hwf1 H1. generalize (fst (analyze user_id ud)).
    induction times as [|t times IH]; intros ud1 Hwf1 H1; [exact H1|].
    cbn [fold_left]. apply IH.
    + now apply well_formed_cleanup.
    + now rewrite (get_cleanup _ _ _ (proj1 Hwf1)), H1.
Qed.

End ConversationFacts.

(** *** The results *)

(** The messages [send_top_artists] sends for a row that has a follower
    count: the entry, and the photo when the row has an image. *)
Definition entry (i : nat) (r : Enriched.t) : list report :=
  TopEntry i (Row.name (Enriched.artist r)) (Enriched.spotify_url r)
           (Report.followers r)
  :: match Enriched.spotify_image r with
     | Some url => [Photo url]
     | None => []
     end.

Fixpoint entries (i : nat) (rows : list Enriched.t) : list report :=
  match rows with
  | [] => []
  | r :: rest => entry i r ++ entries (S i) rest
  end.

Lemma send_rows_followed (rows rest : list Enriched.t) : forall i,
  Forall (fun r => Report.followed r = true) rows ->
  send_rows i (map Report.columns (rows ++ rest)) =
  (entries i rows
   ++ fst (send_rows (i + length rows) (map Report.columns rest)),
   snd (send_rows (i + length rows) (map Report.columns rest))).
Proof.
  induction rows as [|r rows IH]; intros i Hall; cbn [app map length entries].
  - rewrite Nat.add_0_r. now destruct (send_rows i (map Report.columns rest)).
  - apply Forall_cons_iff in Hall as [Hr Hall].
    cbn [send_rows Report.columns TopArtist.spotify_followers
         TopArtist.name TopArtist.spotify_url TopArtist.spotify_image].
    unfold Report.followed, NaLast.isna in Hr.
    unfold entry, Report.followers.
    destruct (Enriched.spotify_followers r) as [f|]; [|discriminate].
    rewrite (IH (S i) Hall). cbn [fst snd].
    rewrite Nat.add_succ_r. cbn [Nat.add].
    now rewrite <- !app_assoc.
Qed.

Lemma send_rows_unfollowed (rest : list Enriched.t) (i : nat) :
  Forall (fun r => Report.unfollowed r = true) rest ->
  send_rows i (map Report.columns rest) =
  ([], match rest with [] => None | _ :: _ => Some Py.ValueError end).
Proof.
  destruct rest as [|r rest]; [reflexivity|].
  intros Hall. apply Forall_cons_iff in Hall as [Hr _].
  cbn [map send_rows Report.columns TopArtist.spotify_followers].
  unfold Report.unfollowed, NaLast.isna in Hr.
  now destruct (Enriched.spotify_followers r).
Qed.

Lemma entries_no_menu (rows : list Enriched.t) : forall i,
  ~ In PlotMenu (entries i rows).
Proof.
  induction rows as [|r rows IH]; intros i; cbn [entries]; [tauto|].
  intros H. apply in_app_or in H as [H|H]; [|now apply (IH (S i))].
  unfold entry in H. destruct H as [H|H]; [discriminate|].
  destruct (Enriched.spotify_image r); [|contradiction].
  destruct H as [H|[]]. discriminate.
Qed.

Lemma entries_no_apology genre (rows : list Enriched.t) : forall i,
  ~ In (CouldNotFind genre) (entries i rows).
Proof.
  induction rows as [|r rows IH]; intros i; cbn [entries]; [tauto|].
  intros H. apply in_app_or in H as [H|H]; [|now apply (IH (S i))].
  unfold entry in H. destruct H as [H|H]; [discriminate|].
  destruct (Enriched.spotify_image r); [|contradiction].
  destruct H as [H|[]]. discriminate.
Qed.

Lemma Forall_firstn {A} (P : A -> Prop) (n : nat) (l : list A) :
  Forall P l -> Forall P (firstn n l).
Proof.
  intros H. apply Forall_forall. intros x Hx.
  rewrite Forall_forall in H. apply H. eapply PerMillion.In_firstn, Hx.
Qed.

Lemma Forall_filter_true {A} (p : A -> bool) (l : list A) :
  Forall (fun x => p x = true) (filter p l).
Proof. apply Forall_forall. intros x Hx. now apply filter_In in Hx. Qed.

Section ResultsFacts.
Context {SK : SortKind}.
Variable lower : Py.str -> Py.str.
Variable get_country_data : list Country.t.
Variable to_csv : list Enriched.t -> Py.result unit.
Variable SPOTIFY_CLIENT_ID SPOTIFY_CLIENT_SECRET : Py.str.
Variable create_summary_text : Visualizer -> Py.result Py.str.

(** The rows with a follower count, as [get_top_artists_data] orders
    them. *)
Definition ranked (df : list Enriched.t) : list Enriched.t :=
  sort_values_descending Z.leb Report.followers (filter Report.followed df).

(** What [send_top_artists] sends, and whether it raises. *)
Lemma send_top_artists_eq (visualizer : Visualizer) :
  let df := artist_df visualizer in
  send_top_artists visualizer =
  (TopHeader (Nat.min 10 (length df)) :: entries 1 (firstn 10 (ranked df)),
   if (length (filter Report.followed df) <? Nat.min 10 (length df))%nat
   then Some Py.ValueError else None).
Proof.
  intros df. unfold send_top_artists. fold df.
  assert (Hlen : length (Report.get_top_artists_data df)
                 = Nat.min 10 (length df)).
  { rewrite TopLists.get_top_artists_data_eq.
    rewrite length_map, length_firstn, length_app.
    rewrite (Permutation_length
               (SortFacts.sort_values_descending_perm _ _ _)).
    now rewrite TopLists.length_followed_unfollowed. }
  rewrite Hlen. rewrite TopLists.get_top_artists_data_eq. fold (ranked df).
  rewrite firstn_app.
  assert (Hn : length (ranked df) = length (filter Report.followed df))
    by apply (Permutation_length
                (SortFacts.sort_values_descending_perm _ _ _)).
  assert (Hfollowed : Forall (fun r => Report.followed r = true)
                             (firstn 10 (ranked df))).
  { apply Forall_firstn. apply Forall_forall. intros r Hr.
    apply (Permutation_in
             _ (SortFacts.sort_values_descending_perm _ _ _)) in Hr.
    now apply filter_In in Hr. }
  assert (Hunfollowed :
            Forall (fun r => Report.unfollowed r = true)
                   (firstn (10 - length (ranked df))
                           (filter Report.unfollowed df))).
  { apply Forall_firstn, Forall_filter_true. }
  rewrite (send_rows_followed _ _ 1 Hfollowed).
  rewrite (send_rows_unfollowed _ _ Hunfollowed). cbn [fst snd].
  rewrite app_nil_r. f_equal.
  pose proof (TopLists.length_followed_unfollowed df) as Hsum.
  rewrite Hn.
  destruct (firstn (10 - length (filter Report.followed df))
                   (filter Report.unfollowed df)) as [|r rest] eqn:Ef.
  - assert (Hz : length (firstn (10 - length (filter Report.followed df))
                                (filter Report.unfollowed df)) = 0%nat)
      by now rewrite Ef.
    rewrite length_firstn in Hz.
    replace (length (filter Report.followed df) <? Nat.min 10 (length df))%nat
      with false; [reflexivity|].
    symmetry. apply Nat.ltb_ge. lia.
  - assert (Hz : length (firstn (10 - length (filter Report.followed df))
                                (filter Report.unfollowed df)) <> 0%nat)
      by now rewrite Ef.
    rewrite length_firstn in Hz.
    replace (length (filter Report.followed df) <? Nat.min 10 (length df))%nat
      with true; [reflexivity|].
    symmetry. apply Nat.ltb_lt. lia.
Qed.

(** X21.  [send_top_artists] announces as many artists as the list has
    (ten, or the size of the table when that is smaller), then sends an
    entry for each listed row that has a follower count, numbered from 1
    by counts that never increase, with the photo where the row has an
    image.  It raises a [ValueError] when it gets to a row without a
    follower count, which is the case exactly when fewer rows have one
    than were announced. *)
Theorem top_list_needs_a_follower_count_in_every_row
        (visualizer : Visualizer) :
  let df := artist_df visualizer in
  let announced := Nat.min 10 (length df) in
  let followed_rows := length (filter Report.followed df) in
  exists ranked,
    Permutation ranked (filter Report.followed df) /\
    StronglySorted (fun a b => Report.followers b <= Report.followers a)
                   ranked /\
    fst (send_top_artists visualizer) =
      TopHeader announced :: entries 1 (firstn 10 ranked) /\
    (snd (send_top_artists visualizer) = Some Py.ValueError <->
     (followed_rows < announced)%nat) /\
    (snd (send_top_artists visualizer) = None <->
     (announced <= followed_rows)%nat).
Proof.
  intros df announced followed_rows. exists (ranked df).
  split; [apply SortFacts.sort_values_descending_perm|].
  split; [apply TopLists.followed_sorted|].
  rewrite send_top_artists_eq. fold df. cbn [fst snd].
  split; [reflexivity|].
  fold announced followed_rows.
  destruct (followed_rows <? announced)%nat eqn:E.
  - apply Nat.ltb_lt in E. split; split; intros; try lia; try reflexivity.
    discriminate.
  - apply Nat.ltb_ge in E. split; split; intros; try lia; try reflexivity.
    discriminate.
Qed.

Let spotify := SpotifyAPI.init SPOTIFY_CLIENT_ID SPOTIFY_CLIENT_SECRET.
Let collect := collect_all_data lower get_country_data to_csv.
Let process := process_data lower get_country_data to_csv
                            SPOTIFY_CLIENT_ID SPOTIFY_CLIENT_SECRET
                            create_summary_text.

(** The collector hands back an empty table exactly when records were
    fetched, their dates all get through [extract_year], none passes
    the two filters, and the empty table could be written. *)
Lemma collect_empty_table count server world :
  let fetched := fst (fetch_artists count server) in
  (exists cs, collect count server spotify world = Py.Ok ([], cs)) <->
  fetched <> [] /\
  (forall r, In r fetched -> Normalizer.dates_parse r) /\
  (forall r, In r fetched ->
             Normalizer.survives lower get_country_data r = false) /\
  to_csv [] = Py.Ok tt.
Proof.
  intros fetched. subst fetched. unfold collect, collect_all_data.
  destruct (fetch_artists count server) as [fetched log]. cbn [fst].
  assert (Hnone : forall l : list Raw.t,
            filter (Normalizer.survives lower get_country_data)
                   (Normalizer.sorted l) = [] <->
            forall r, In r l ->
                      Normalizer.survives lower get_country_data r = false).
  { intros l. split.
    - intros Hf r Hr. apply (proj2 (Normalizer.In_sorted _ _)) in Hr.
      destruct (Normalizer.survives lower get_country_data r) eqn:E;
        [|reflexivity].
      assert (Hin : In r (filter (Normalizer.survives lower get_country_data)
                                 (Normalizer.sorted l)))
        by (apply filter_In; auto).
      rewrite Hf in Hin. contradiction.
    - intros Hall.
      destruct (filter (Normalizer.survives lower get_country_data)
                       (Normalizer.sorted l)) as [|r rest] eqn:Ef;
        [reflexivity|].
      assert (Hin : In r (filter (Normalizer.survives lower get_country_data)
                                 (Normalizer.sorted l)))
        by (rewrite Ef; now left).
      apply filter_In in Hin as [Hr Hs].
      apply (proj1 (Normalizer.In_sorted _ _)) in Hr.
      rewrite (Hall r Hr) in Hs. discriminate. }
  split.
  - intros [cs E].
    destruct (process_artist_data lower get_country_data fetched)
      as [[[tbl cs']|]|e] eqn:Ep; cbn [Py.bind] in E;
      [|discriminate|discriminate].
    destruct (enrich_with_spotify spotify world tbl)
      as [[r spotify'] evs] eqn:Er.
    destruct r as [out|e]; cbn [Py.bind] in E; [|discriminate].
    destruct (to_csv out) as [[]|e] eqn:Ecsv; cbn [Py.bind] in E;
      [|discriminate].
    injection E as -> <-.
    pose proof (Normalizer.process_dates_parse _ _ _ _ Ep) as Hdates.
    apply Normalizer.process_inv in Ep as (Hne & _ & ->).
    split; [exact Hne|]. split; [exact Hdates|]. split; [|exact Ecsv].
    apply Hnone.
    unfold enrich_with_spotify in Er.
    apply Enrichment.enrich_rows_frame, Pipeline.frame_artist in Er.
    cbn [map] in Er. rewrite map_map in Er. cbn in Er.
    rewrite map_id in Er. symmetry in Er.
    apply map_eq_nil in Er. exact Er.
  - intros (Hne & Hdates & Hall & Hcsv).
    rewrite (Normalizer.process_total lower get_country_data fetched
                                      Hne Hdates).
    cbn [Py.bind]. rewrite (proj2 (Hnone fetched) Hall). cbn.
    rewrite Hcsv. cbn. eauto.
Qed.

(** X22.  What [process_data] tells a user who has a session, on a
    catalog answer that has no record or has each of the four optional
    keys with a value in some record.
    - "Sorry, I couldn't find any ... artists" is sent exactly when the
      catalog returned records, every date of every record got through
      [extract_year], no record passed the name and country filters, and
      the empty table could be written to its file.
    - When the catalog returned no record at all, the one reply is the
      error message, for the [TypeError] of [collect_all_data].
    - The plot menu is sent exactly when the collector returned a table
      that is not empty, the summary could be built, and at least as many
      rows have a follower count as the top list announces; the session
      then goes to ["showing_results"] and keeps the visualizer.
    - In every other case the session goes to ["idle"] and loses
      ["progress_message_id"]. *)
Theorem process_data_replies server world user_id genre count ud session :
  get user_id ud = Some session ->
  let fetched := fst (fetch_artists count server) in
  let result := process server world user_id genre count ud in
  (fetched <> [] -> Pipeline.columns_filled fetched) ->
  (In (CouldNotFind genre) (fst result) <->
   fetched <> [] /\
   (forall r, In r fetched -> Normalizer.dates_parse r) /\
   (forall r, In r fetched ->
              Normalizer.survives lower get_country_data r = false) /\
   to_csv [] = Py.Ok tt) /\
  (fetched = [] -> fst result = [ErrorOccurred (Raised Py.TypeError)]) /\
  (In PlotMenu (fst result) <->
   exists df cs text,
     collect count server spotify world = Py.Ok (df, cs) /\
     df <> [] /\
     create_summary_text (mkVisualizer df cs genre) = Py.Ok text /\
     (Nat.min 10 (length df) <= length (filter Report.followed df))%nat) /\
  (In PlotMenu (fst result) ->
   exists visualizer,
     snd result =
     Some (setitem user_id
             (Session.with_visualizer (Some visualizer)
                (Session.with_state (Some showing_results) session)) ud)) /\
  (~ In PlotMenu (fst result) ->
   snd result =
   Some (setitem user_id
           (Session.with_progress_message_id None
              (Session.with_state (Some idle) session)) ud)).
Proof.
  intros Hs fetched result _.
  pose proof (collect_empty_table count server world) as Hempty.
  cbn zeta in Hempty. fold fetched in Hempty.
  assert (Hnothing : fetched = [] ->
            collect count server spotify world = Py.Raise Py.TypeError).
  { subst fetched. unfold collect, collect_all_data.
    destruct (fetch_artists count server) as [l log]. cbn [fst].
    now intros ->. }
  assert (Hidle : settle_idle user_id ud =
            Some (setitem user_id
                    (Session.with_progress_message_id None
                       (Session.with_state (Some idle) session)) ud))
    by (unfold settle_idle; now rewrite Hs).
  assert (Hshow : forall v, settle_results user_id v ud =
            Some (setitem user_id
                    (Session.with_visualizer (Some v)
                       (Session.with_state (Some showing_results) session))
                    ud))
    by (intros v; unfold settle_results; now rewrite Hs).
  subst result. unfold process, process_data. fold spotify. fold collect.
  destruct (collect count server spotify world) as [[df cs]|e] eqn:Ec.
  - assert (Hfetched : fetched <> []).
    { intros H. apply Hnothing in H. discriminate H. }
    destruct df as [|r0 df'].
    + (* an empty table *)
      cbn [length Nat.eqb]. rewrite Hidle. cbn [fst snd].
      split; [|split; [|split; [|split]]].
      * split; [intros _; apply Hempty; eauto|intros _; now left].
      * intros H. contradiction.
      * split; [intros [H|[]]; discriminate H|].
        intros (df & cs' & text & [= <- _] & Hne & _). contradiction.
      * intros [H|[]]. discriminate H.
      * reflexivity.
    + set (df := r0 :: df') in *.
      assert (Hne : df <> []) by discriminate.
      assert (Hnot_empty : ~ (fetched <> [] /\
                (forall r, In r fetched -> Normalizer.dates_parse r) /\
                (forall r, In r fetched ->
                   Normalizer.survives lower get_country_data r = false) /\
                to_csv [] = Py.Ok tt)).
      { intros H. apply Hempty in H as [cs' H]. discriminate H. }
      change (length df =? 0)%nat with false. cbn iota.
      destruct (create_summary_text (mkVisualizer df cs genre))
        as [text|e] eqn:Esum.
      * rewrite send_top_artists_eq. cbn [artist_df].
        destruct (length (filter Report.followed df)
                  <? Nat.min 10 (length df))%nat eqn:Elt.
        -- (* a listed row has no follower count *)
           apply Nat.ltb_lt in Elt.
           unfold failed. rewrite Hidle. cbn [fst snd].
           assert (Hmenu : ~ In PlotMenu
                     ((Summary text
                       :: TopHeader (Nat.min 10 (length df))
                          :: entries 1 (firstn 10 (ranked df)))
                      ++ [ErrorOccurred (Raised Py.ValueError)])).
           { intros H. apply in_app_or in H as [[H|[H|H]]|[H|[]]];
               try discriminate H. now apply entries_no_menu in H. }
           split; [|split; [|split; [|split]]].
           ++ split; [|intros H; contradiction].
              intros H. apply in_app_or in H as [[H|[H|H]]|[H|[]]];
                try discriminate H. now apply entries_no_apology in H.
           ++ intros H. contradiction.
           ++ split; [intros H; contradiction|].
              intros (df1 & cs1 & text1 & [= <- <-] & _ & _ & Hle). lia.
           ++ intros H. contradiction.
           ++ reflexivity.
        -- (* the whole list went out *)
           apply Nat.ltb_ge in Elt.
           rewrite Hshow. cbn [fst snd].
           assert (Hmenu : In PlotMenu
                     (Summary text
                      :: (TopHeader (Nat.min 10 (length df))
                          :: entries 1 (firstn 10 (ranked df)))
                         ++ [PlotMenu])).
           { right. apply in_or_app. right. now left. }
           split; [|split; [|split; [|split]]].
           ++ split; [|intros H; contradiction].
              intros [H|H]; [discriminate H|].
              apply in_app_or in H as [[H|H]|[H|[]]];
                try discriminate H. now apply entries_no_apology in H.
           ++ intros H. contradiction.
           ++ split; [|intros _; exact Hmenu].
              intros _. exists df, cs, text. auto.
           ++ intros _. eauto.
           ++ intros H. contradiction.
      * (* the summary raised *)
        unfold failed. rewrite Hidle. cbn [fst snd app].
        split; [|split; [|split; [|split]]].
        -- split; [intros [H|[]]; discriminate H|intros H; contradiction].
        -- intros H. contradiction.
        -- split; [intros [H|[]]; discriminate H|].
           intros (df1 & cs1 & text1 & [= <- <-] & _ & Hsum & _).
           rewrite Esum in Hsum. discriminate Hsum.
        -- intros [H|[]]. discriminate H.
        -- reflexivity.
  - (* the collector raised *)
    unfold failed. rewrite Hidle. cbn [fst snd app].
    split; [|split; [|split; [|split]]].
    + split; [intros [H|[]]; discriminate H|].
      intros H. apply Hempty in H as [cs H]. discriminate H.
    + intros H. apply Hnothing in H. congruence.
    + split; [intros [H|[]]; discriminate H|].
      intros (df1 & cs1 & text1 & [=] & _).
    + intros [H|[]]. discriminate H.
    + reflexivity.
Qed.

Section Isolation.
Variable strip : Py.str -> Py.str.
Variable int : Py.str -> option Z.
Variable DEFAULT_ARTISTS_COUNT : Z.

(** X23.  What a user's commands, text messages, progress updates and
    runs of [process_data] write stays in that user's session: the
    session of any other user is afterwards what it was.  (Only
    [cleanup_old_sessions] goes through all sessions.) *)
Theorem handlers_keep_to_their_own_session user_id other ud :
  other <> user_id ->
  get other (fst (analyze user_id ud)) = get other ud /\
  get other (fst (end_ user_id ud)) = get other ud /\
  (forall now text h,
     handle_message strip int DEFAULT_ARTISTS_COUNT now user_id text ud
     = Returned h ->
     get other (store h) = get other ud) /\
  (forall phase,
     get other (send_progress_phase user_id phase ud) = get other ud) /\
  (forall message_id ud',
     send_progress_sent user_id message_id ud = Some ud' ->
     get other ud' = get other ud) /\
  (forall server world genre count ud',
     snd (process server world user_id genre count ud) = Some ud' ->
     get other ud' = get other ud).
Proof.
  intros Hne.
  assert (Hset : forall s u, get other (setitem user_id s u) = get other u)
    by (intros s u; now apply get_setitem_other).
  assert (Hidle : forall ud', settle_idle user_id ud = Some ud' ->
                              get other ud' = get other ud).
  { unfold settle_idle. intros ud'.
    destruct (get user_id ud); [|discriminate]. intros [= <-]. apply Hset. }
  assert (Hshow : forall v ud', settle_results user_id v ud = Some ud' ->
                                get other ud' = get other ud).
  { unfold settle_results. intros v ud'.
    destruct (get user_id ud); [|discriminate]. intros [= <-]. apply Hset. }
  assert (Htouch : forall now, get other (touch now user_id ud) = get other ud).
  { intros now. rewrite get_touch.
    destruct (user_id =? other) eqn:E; [|reflexivity].
    apply Z.eqb_eq in E. congruence. }
  split; [apply Hset|]. split.
  { cbn. destruct (get user_id ud); [|reflexivity].
    rewrite get_delitem. destruct (user_id =? other) eqn:E; [|reflexivity].
    apply Z.eqb_eq in E. congruence. }
  split.
  { intros now text h. rewrite handle_message_cases. cbn zeta.
    destruct (get user_id ud) as [s0|]; [|now intros [= <-]].
    destruct (Session.state s0) as [[| | | |]|];
      try (intros [= <-]; cbn [store]; now rewrite ?Hset, Htouch).
    - destruct (strip text);
        intros [= <-]; cbn [store]; now rewrite ?Hset, Htouch.
    - assert (Hstart : forall c,
        match Session.genre s0 with
        | None =>
            KeyError
              (setitem user_id
                 (Session.with_state (Some collecting)
                    (Session.with_count (Some c)
                       (Session.with_last_activity (Some now) s0)))
                 (touch now user_id ud))
        | Some g =>
            Returned
              (mkHandled
                 (setitem user_id
                    (Session.with_state (Some collecting)
                       (Session.with_count (Some c)
                          (Session.with_last_activity (Some now) s0)))
                    (touch now user_id ud))
                 [Starting c g] (Some (g, c)))
        end = Returned h -> get other (store h) = get other ud).
      { intros c. destruct (Session.genre s0); [|discriminate].
        intros [= <-]. cbn [store]. now rewrite Hset, Htouch. }
      destruct (strip text) as [|c t]; [apply Hstart|].
      destruct (int (c :: t)) as [n|];
        [|intros [= <-]; cbn [store]; apply Htouch].
      destruct (n <? 10); [intros [= <-]; cbn [store]; apply Htouch|].
      destruct (n >? 1000); [intros [= <-]; cbn [store]; apply Htouch|].
      apply Hstart. }
  split.
  { intros phase. unfold send_progress_phase. cbn zeta.
    assert (Hinit : get other (init_phase user_id ud) = get other ud).
    { unfold init_phase. destruct (get user_id ud) as [s|];
        [destruct (Session.current_phase s)|]; now rewrite ?Hset. }
    destruct phase as [p|]; [|exact Hinit].
    destruct (get user_id (init_phase user_id ud)); [|exact Hinit].
    now rewrite Hset. }
  split.
  { unfold send_progress_sent. intros message_id ud'.
    destruct (get user_id ud); [|discriminate]. intros [= <-]. apply Hset. }
  intros server world genre count ud'.
  unfold process, process_data, failed.
  destruct (collect_all_data lower get_country_data to_csv
                             count server _ world)
    as [[df cs]|e]; cbn [snd]; [|apply Hidle].
  destruct (length df =? 0)%nat.
  - destruct (settle_idle user_id ud) as [ud1|] eqn:E1; cbn [snd].
    + intros [= <-]. now apply Hidle.
    + discriminate.
  - destruct (create_summary_text (mkVisualizer df cs genre)) as [text|e];
      cbn [snd]; [|apply Hidle].
    destruct (send_top_artists (mkVisualizer df cs genre)) as [top [e|]];
      cbn [snd]; [apply Hidle|].
    destruct (settle_results user_id (mkVisualizer df cs genre) ud)
      as [ud1|] eqn:E1; cbn [snd].
    + intros [= <-]. eapply Hshow, E1.
    + apply Hidle.
Qed.

End Isolation.
End ResultsFacts.

(** *** A conversation *)

Definition is_space (c : N) : bool :=
  ((c =? 32) || ((9 <=? c) && (c <=? 13)))%N.

Fixpoint lstrip (s : Py.str) : Py.str :=
  match s with
  | c :: rest => if is_space c then lstrip rest else s
  | [] => []
  end.

(** [str.strip] on text of letters, digits and blanks. *)
Definition ascii_strip (s : Py.str) : Py.str := rev (lstrip (rev (lstrip s))).

(** [int] on text without sign, blank or underscore. *)
Definition digits_int (s : Py.str) : option Z :=
  match Py.int s with
  | Py.Ok n => Some n
  | Py.Raise _ => None
  end.

Definition handle : Z -> Z -> Py.str -> user_data -> outcome :=
  handle_message ascii_strip digits_int 100.

Definition store_of (o : outcome) : user_data :=
  match o with
  | Returned h => store h
  | KeyError ud => ud
  end.

Definition handled_of (o : outcome) : handled :=
  match o with
  | Returned h => h
  | KeyError ud => mkHandled ud [] None
  end.

Definition jazz : Py.str := Py.of_string "Jazz".

(** User 7 sends [/analyze], then [" Jazz "], then ["50"]; the clock
    reads 100, then 200 seconds. *)
Definition opened : user_data := fst (analyze 7 []).
Definition asked_count : user_data :=
  store_of (handle (TokenCache.seconds 100) 7 (Py.of_string " Jazz ") opened).
Definition started : outcome :=
  handle (TokenCache.seconds 200) 7 (Py.of_string "50") asked_count.
Definition collecting_jazz : user_data := store_of started.

Example conversation :
  started =
  Returned
    (mkHandled
       [(7, Session.mk (Some collecting) (Some jazz) (Some 50)
                       (Some (TokenCache.seconds 200)) None None None)]
       [Starting 50 jazz] (Some (jazz, 50))).
Proof. reflexivity. Qed.

(** A count below the range, and a text that is no number. *)
Example counts_refused :
  replies (handled_of (handle 0 7 (Py.of_string "5") asked_count))
  = [AtLeast10] /\
  replies (handled_of (handle 0 7 (Py.of_string "1001") asked_count))
  = [NoMoreThan1000] /\
  replies (handled_of (handle 0 7 (Py.of_string "many") asked_count))
  = [EnterValidNumber].
Proof. repeat split. Qed.

Lemma reachable_asked_count :
  reachable ascii_strip digits_int 100 asked_count.
Proof.
  eapply reachable_step.
  - eapply reachable_step; [apply reachable_start|].
    apply (step_analyze ascii_strip digits_int 100 7 []).
  - apply (step_message ascii_strip digits_int 100
             (TokenCache.seconds 100) 7 (Py.of_string " Jazz ") opened
             (handled_of (handle (TokenCache.seconds 100) 7
                                 (Py.of_string " Jazz ") opened))).
    reflexivity.
Qed.

Lemma reachable_collecting_jazz :
  reachable ascii_strip digits_int 100 collecting_jazz.
Proof.
  eapply reachable_step; [apply reachable_asked_count|].
  apply (step_message ascii_strip digits_int 100
           (TokenCache.seconds 200) 7 (Py.of_string "50") asked_count
           (handled_of started)).
  reflexivity.
Qed.

Lemma collection_starts_on_a_valid_count_witness :
  let h := handled_of started in
  (task h = Some (jazz, 50) <->
   exists session,
     get 7 asked_count = Some session /\
     Session.state session = Some waiting_for_count /\
     Session.genre session = Some jazz /\
     (ascii_strip (Py.of_string "50") = [] /\ 50 = 100 \/
      ascii_strip (Py.of_string "50") <> [] /\
      digits_int (ascii_strip (Py.of_string "50")) = Some 50 /\
      10 <= 50 <= 1000)) /\
  (task h = Some (jazz, 50) ->
   replies h = [Starting 50 jazz] /\
   exists session,
     get 7 asked_count = Some session /\
     get 7 (store h) =
     Some (Session.with_state (Some collecting)
             (Session.with_count (Some 50)
                (Session.with_last_activity (Some (TokenCache.seconds 200))
                                            session)))).
Proof.
  intros h.
  apply (collection_starts_on_a_valid_count
           ascii_strip digits_int 100
           (TokenCache.seconds 200) 7 (Py.of_string "50") asked_count
           h jazz 50).
  reflexivity.
Defined.

Lemma no_reaction_outside_the_two_prompts_witness :
  let messages := [(TokenCache.seconds 300, Py.of_string "hello");
                   (TokenCache.seconds 400, Py.of_string "200")] in
  exists ud',
    handle_messages ascii_strip digits_int 100 7 messages collecting_jazz
    = Some (ud', [], []) /\
    get 7 ud' =
      Some (Session.with_last_activity
              (fold_left (fun _ m => Some (fst m)) messages
                         (Some (TokenCache.seconds 200)))
              (Session.mk (Some collecting) (Some jazz) (Some 50)
                          (Some (TokenCache.seconds 200)) None None None)) /\
    forall other, other <> 7 -> get other ud' = get other collecting_jazz.
Proof.
  intros messages.
  apply (no_reaction_outside_the_two_prompts
           ascii_strip digits_int 100 7 messages collecting_jazz
           (Session.mk (Some collecting) (Some jazz) (Some 50)
                       (Some (TokenCache.seconds 200)) None None None)
           collecting).
  - reflexivity.
  - reflexivity.
  - reflexivity.
Defined.

Lemma handle_message_finds_the_genre_witness :
  exists h, handle (TokenCache.seconds 200) 7 (Py.of_string "")
                   asked_count = Returned h.
Proof.
  apply (handle_message_finds_the_genre
           ascii_strip digits_int 100 asked_count
           (TokenCache.seconds 200) 7 (Py.of_string "")).
  exact reachable_asked_count.
Defined.

(** A clean-up 1800 seconds after the last message leaves the session, a
    clean-up one second later removes it. *)
Lemma cleanup_removes_what_was_idle_for_30_minutes_witness :
  get 7 (cleanup_old_sessions (TokenCache.seconds 2000) collecting_jazz)
  = get 7 collecting_jazz /\
  get 7 (cleanup_old_sessions (TokenCache.seconds 2001) collecting_jazz)
  = None /\
  forall times,
    get 7 (fold_left (fun ud t => cleanup_old_sessions t ud) times
                     (fst (analyze 7 collecting_jazz))) =
    Some (Session.with_state (Some waiting_for_genre) Session.empty).
Proof.
  split; [|split].
  - exact (proj1 (cleanup_removes_what_was_idle_for_30_minutes
                    ascii_strip digits_int 100 collecting_jazz
                    (TokenCache.seconds 2000) 7 reachable_collecting_jazz)).
  - exact (proj1 (cleanup_removes_what_was_idle_for_30_minutes
                    ascii_strip digits_int 100 collecting_jazz
                    (TokenCache.seconds 2001) 7 reachable_collecting_jazz)).
  - exact (proj2 (cleanup_removes_what_was_idle_for_30_minutes
                    ascii_strip digits_int 100 collecting_jazz
                    0 7 reachable_collecting_jazz)).
Defined.

(** *** Two runs of [process_data] *)

Definition summary_text (_ : Visualizer) : Py.result Py.str :=
  Py.Ok (Py.of_string "summary").

Definition run (server : Z -> Response CatalogPage) :=
  @process_data SortKinds.stable_kind Normalizer.ascii_lower
                Normalizer.reference Pipeline.saved (Py.of_string "id")
                (Py.of_string "secret") summary_text
                server Enrichment.mixed_world 7 jazz 50 collecting_jazz.

(** A catalog of three artists of reference countries; Spotify knows
    the first only (see [Enrichment.mixed_world]). *)
Definition three_artists (offset : Z) : Response CatalogPage :=
  if offset =? 2
  then mkResponse 200 false
         (Some (mkCatalogPage
                  (Some [Normalizer.abba; Normalizer.kraftwerk;
                         Raw.mk (Py.of_string "r1") (Py.of_string "Roxette")
                                90 (Some (Py.of_string "Sweden"))
                                (Some (Py.of_string "1986")) None None])))
  else mkResponse 404 true None.

(** One artist, with a match: the whole report goes out. *)
Example run_with_one_match :
  fst (run Enrichment.one_page) =
  [Summary (Py.of_string "summary"); TopHeader 1;
   TopEntry 1 (Py.of_string "ABBA")
            (Some (Py.of_string "https://open.spotify.com/artist/x")) 5000;
   Photo (Py.of_string "https://i.scdn.co/image/x");
   PlotMenu].
Proof. vm_compute. reflexivity. Qed.

(** Three artists, one match: the list is announced with three entries
    and ends after the first, with the error reply; no plot menu. *)
Example run_with_two_misses :
  fst (run three_artists) =
  [Summary (Py.of_string "summary"); TopHeader 3;
   TopEntry 1 (Py.of_string "ABBA")
            (Some (Py.of_string "https://open.spotify.com/artist/x")) 5000;
   Photo (Py.of_string "https://i.scdn.co/image/x");
   ErrorOccurred (Raised Py.ValueError)].
Proof. vm_compute. reflexivity. Qed.

Lemma process_data_replies_witness :
  let fetched := fst (fetch_artists 50 three_artists) in
  let result := run three_artists in
  (In (CouldNotFind jazz) (fst result) <->
   fetched <> [] /\
   (forall r, In r fetched -> Normalizer.dates_parse r) /\
   (forall r, In r fetched ->
      Normalizer.survives Normalizer.ascii_lower Normalizer.reference r
      = false) /\
   Pipeline.saved [] = Py.Ok tt) /\
  (fetched = [] -> fst result = [ErrorOccurred (Raised Py.TypeError)]) /\
  (In PlotMenu (fst result) <->
   exists df cs text,
     @collect_all_data SortKinds.stable_kind Normalizer.ascii_lower
                       Normalizer.reference Pipeline.saved
                       50 three_artists
                       (SpotifyAPI.init (Py.of_string "id")
                                        (Py.of_string "secret"))
                       Enrichment.mixed_world = Py.Ok (df, cs) /\
     df <> [] /\
     summary_text (mkVisualizer df cs jazz) = Py.Ok text /\
     (Nat.min 10 (length df) <= length (filter Report.followed df))%nat) /\
  (In PlotMenu (fst result) ->
   exists visualizer,
     snd result =
     Some (setitem 7
             (Session.with_visualizer (Some visualizer)
                (Session.with_state
                   (Some showing_results)
                   (Session.mk (Some collecting) (Some jazz) (Some 50)
                               (Some (TokenCache.seconds 200))
                               None None None)))
             collecting_jazz)) /\
  (~ In PlotMenu (fst result) ->
   snd result =
   Some (setitem 7
           (Session.with_progress_message_id None
              (Session.with_state
                 (Some idle)
                 (Session.mk (Some collecting) (Some jazz) (Some 50)
                             (Some (TokenCache.seconds 200))
                             None None None)))
           collecting_jazz)).
Proof.
  intros fetched result.
  apply (@process_data_replies
           SortKinds.stable_kind Normalizer.ascii_lower Normalizer.reference
           Pipeline.saved
           (Py.of_string "id") (Py.of_string "secret") summary_text
           three_artists Enrichment.mixed_world 7 jazz 50 collecting_jazz
           (Session.mk (Some collecting) (Some jazz) (Some 50)
                       (Some (TokenCache.seconds 200)) None None None)).
  - reflexivity.
  - intros _. apply Pipeline.abba_fills_the_columns.
Defined.

(** User 8 joins; what user 7 does leaves the session of user 8 alone. *)
Definition two_users : user_data := fst (analyze 8 collecting_jazz).

Lemma handlers_keep_to_their_own_session_witness :
  get 8 (fst (analyze 7 two_users)) = get 8 two_users /\
  get 8 (fst (end_ 7 two_users)) = get 8 two_users /\
  (forall now text h,
     handle_message ascii_strip digits_int 100 now 7 text two_users
     = Returned h ->
     get 8 (store h) = get 8 two_users) /\
  (forall phase,
     get 8 (send_progress_phase 7 phase two_users) = get 8 two_users) /\
  (forall message_id ud',
     send_progress_sent 7 message_id two_users = Some ud' ->
     get 8 ud' = get 8 two_users) /\
  (forall server world genre count ud',
     snd (@process_data SortKinds.stable_kind Normalizer.ascii_lower
                        Normalizer.reference Pipeline.saved
                        (Py.of_string "id")
                        (Py.of_string "secret") summary_text
                        server world 7 genre count two_users) = Some ud' ->
     get 8 ud' = get 8 two_users).
Proof.
  apply (@handlers_keep_to_their_own_session
           SortKinds.stable_kind Normalizer.ascii_lower Normalizer.reference
           Pipeline.saved
           (Py.of_string "id") (Py.of_string "secret") summary_text
           ascii_strip digits_int 100 7 8 two_users).
  discriminate.
Defined.

End Conversation.

(** ** The chart of followers *)

Module FollowersChart.
Import ArtistVisualizer ExtractYear SortFacts Report.

(** The follower counts of the entries [send_top_artists] sent. *)
Definition entry_counts (sent : list Bot.report) : list Z :=
  flat_map (fun m => match m with
                     | Bot.TopEntry _ _ _ followers => [followers]
                     | _ => []
                     end) sent.

Lemma entry_counts_entries (rows : list Enriched.t) : forall i,
  entry_counts (Conversation.entries i rows) = map Report.followers rows.
Proof.
  induction rows as [|r rows IH]; intros i; [reflexivity|].
  cbn [Conversation.entries map]. unfold entry_counts in *.
  rewrite flat_map_app, IH. unfold Conversation.entry. cbn.
  now destruct (Enriched.spotify_image r).
Qed.

Lemma sort_values_descending_map {SK : SortKind} {A B K}
      (leb : K -> K -> bool) (f : A -> B) (key : B -> K) (df : list A) :
  sort_values_descending leb key (map f df) =
  map f (sort_values_descending leb (fun r => key (f r)) df).
Proof.
  unfold sort_values_descending. now rewrite take_map, !map_map.
Qed.

Lemma loc_self (df rows : list Enriched.t) :
  NoDup (map label df) ->
  (forall r, In r rows -> In r df) ->
  loc (map label rows) df = rows.
Proof.
  intros Hnd Hsub. unfold loc.
  induction rows as [|r rows IH]; [reflexivity|].
  cbn [map flat_map]. rewrite IH by (intros; apply Hsub; now right).
  assert (Hr : In r df) by (apply Hsub; now left).
  assert (H : filter (fun r' => Py.str_eqb (label r') (label r)) df = [r]);
    [|now rewrite H].
  clear IH Hsub. induction df as [|x df IH]; [contradiction|].
  cbn [map] in Hnd. apply NoDup_cons_iff in Hnd as [Hfresh Hnd].
  cbn [filter]. destruct Hr as [->|Hr].
  - rewrite str_eqb_refl. f_equal.
    assert (Hnone : forall l : list Enriched.t,
              ~ In (label r) (map label l) ->
              filter (fun r' => Py.str_eqb (label r') (label r)) l = []).
    { induction l as [|y l IHl]; [reflexivity|]. cbn [map In filter].
      intros Hl. destruct (Py.str_eqb (label y) (label r)) eqn:E.
      - apply str_eqb_eq in E. exfalso. auto.
      - apply IHl. tauto. }
    now apply Hnone.
  - destruct (Py.str_eqb (label x) (label r)) eqn:E; [|now apply IH].
    apply str_eqb_eq in E. exfalso. apply Hfresh. rewrite E.
    now apply in_map.
Qed.

(** Two lists of integers that never increase and hold the same values
    as often are the same list. *)
Lemma descending_unique (l1 l2 : list Z) :
  StronglySorted (fun a b => b <= a) l1 ->
  StronglySorted (fun a b => b <= a) l2 ->
  Permutation l1 l2 -> l1 = l2.
Proof.
  intros H1. revert l2. induction H1 as [|a l1 Hs1 IH Ha]; intros l2 H2 P.
  - apply Permutation_nil in P. now subst.
  - destruct H2 as [|b l2 Hs2 Hb].
    + apply Permutation_sym, Permutation_nil in P. discriminate.
    + assert (a = b).
      { rewrite Forall_forall in Ha, Hb.
        assert (Hab : In a (b :: l2))
          by (apply (Permutation_in _ P); now left).
        assert (Hba : In b (a :: l1))
          by (apply (Permutation_in _ (Permutation_sym P)); now left).
        destruct Hab as [->|Hab]; [reflexivity|].
        destruct Hba as [->|Hba]; [reflexivity|].
        specialize (Ha b Hba). specialize (Hb a Hab). lia. }
      subst b. f_equal. apply IH; [assumption|].
      now apply Permutation_cons_inv in P.
Qed.

Lemma StronglySorted_map_image {A B} (R : B -> B -> Prop) (f : A -> B) l :
  StronglySorted (fun a b => R (f a) (f b)) l -> StronglySorted R (map f l).
Proof.
  induction 1 as [|a l Hs IH Ha]; cbn; constructor; [assumption|].
  now rewrite Forall_map.
Qed.

(** The follower counts of the rows that have one, from the highest
    down: the same whatever routine sorts them. *)
Lemma ranked_counts (SK1 SK2 : SortKind) (df : list Enriched.t) :
  map Report.followers
      (@sort_values_descending SK1 _ _ Z.leb Report.followers
                               (filter Report.followed df)) =
  map Report.followers
      (@sort_values_descending SK2 _ _ Z.leb Report.followers
                               (filter Report.followed df)).
Proof.
  apply descending_unique.
  - apply StronglySorted_map_image, (@TopLists.followed_sorted SK1).
  - apply StronglySorted_map_image, (@TopLists.followed_sorted SK2).
  - apply Permutation_map.
    eapply Permutation_trans;
      [apply (@sort_values_descending_perm SK1)|].
    apply Permutation_sym, (@sort_values_descending_perm SK2).
Qed.

Lemma NoDup_filter_labels (p : Enriched.t -> bool) (df : list Enriched.t) :
  NoDup (map label df) -> NoDup (map label (filter p df)).
Proof.
  induction df as [|x df IH]; cbn [filter map]; intros Hnd; [constructor|].
  apply NoDup_cons_iff in Hnd as [Hfresh Hnd].
  destruct (p x); [|auto].
  cbn [map]. constructor; [|auto].
  intros Hin. apply Hfresh. apply in_map_iff in Hin as (y & E & Hy).
  apply filter_In in Hy as [Hy _]. apply in_map_iff. eauto.
Qed.

(** The bars of the chart, on distinct labels: the first ten of the rows
    that have a follower count, sorted. *)
Lemma plot_top_artists_followers_eq {SK : SortKind} (df : list Enriched.t) :
  NoDup (map label df) ->
  plot_top_artists_followers df =
  match filter Report.followed df with
  | [] => None
  | _ :: _ =>
      Some (map (fun r => (Row.name (Enriched.artist r),
                           (inject_Z (Report.followers r) / 1000000)%Q))
                (firstn 10 (sort_values_descending
                              Z.leb Report.followers
                              (filter Report.followed df))))
  end.
Proof.
  intros Hnd. unfold plot_top_artists_followers.
  pose proof (NoDup_filter_labels Report.followed df Hnd) as Hvalid_nd.
  destruct (filter Report.followed df) as [|r0 rest]; [reflexivity|].
  cbn [length Nat.eqb]. set (valid_df := r0 :: rest) in *.
  f_equal. f_equal.
  rewrite (sort_values_descending_map
             Z.leb (fun r => (label r, Report.followers r)) snd valid_df).
  rewrite firstn_map, map_map.
  apply (loc_self valid_df). { exact Hvalid_nd. }
  intros r Hr. apply PerMillion.In_firstn in Hr.
  exact (Permutation_in _ (sort_values_descending_perm _ _ _) Hr).
Qed.

(** X24.  On a table whose index labels are distinct,
    [plot_top_artists_followers] draws no bar exactly when no row has a
    follower count.  Otherwise it draws one bar for each of up to ten
    rows that have one, by heights that never increase, the height being
    the count in millions; and the counts drawn are, in order, the counts
    of the entries [send_top_artists] sends, whichever routines sort the
    two lists (among artists of equal count the names can differ). *)
Theorem followers_chart_agrees_with_the_top_list
        (SK1 SK2 : SortKind) (visualizer : Bot.Visualizer) :
  let df := Bot.artist_df visualizer in
  let chart := @plot_top_artists_followers SK2 df in
  let sent := fst (@Bot.send_top_artists SK1 visualizer) in
  NoDup (map label df) ->
  (chart = None <-> filter Report.followed df = []) /\
  forall bars, chart = Some bars ->
    exists rows,
      bars = map (fun r => (Row.name (Enriched.artist r),
                            (inject_Z (Report.followers r) / 1000000)%Q))
                 rows /\
      (forall r, In r rows -> In r df /\ Report.followed r = true) /\
      length rows = Nat.min 10 (length (filter Report.followed df)) /\
      StronglySorted (fun a b => Report.followers b <= Report.followers a)
                     rows /\
      map Report.followers rows = entry_counts sent.
Proof.
  intros df chart sent Hnd. subst chart sent.
  rewrite (plot_top_artists_followers_eq df Hnd).
  set (sorted2 := @sort_values_descending SK2 _ _ Z.leb Report.followers
                                          (filter Report.followed df)).
  assert (Hperm : Permutation sorted2 (filter Report.followed df))
    by apply sort_values_descending_perm.
  split.
  - destruct (filter Report.followed df); split;
      reflexivity || discriminate.
  - intros bars Hbars. exists (firstn 10 sorted2).
    split.
    { destruct (filter Report.followed df); [discriminate Hbars|].
      now injection Hbars as <-. }
    clear Hbars. split; [|split; [|split]].
    + intros r Hr. apply PerMillion.In_firstn in Hr.
      apply (Permutation_in _ Hperm) in Hr.
      now apply filter_In in Hr.
    + rewrite length_firstn, (Permutation_length Hperm). reflexivity.
    + apply NaLastFacts.StronglySorted_firstn.
      apply (@TopLists.followed_sorted SK2).
    + rewrite (@Conversation.send_top_artists_eq SK1). cbn [fst].
      change (entry_counts
                (Bot.TopHeader
                   (Nat.min 10 (length (Bot.artist_df visualizer)))
                 :: Conversation.entries
                      1 (firstn 10 (@Conversation.ranked
                                      SK1 (Bot.artist_df visualizer)))))
        with (entry_counts
                (Conversation.entries
                   1 (firstn 10 (@Conversation.ranked SK1 df)))).
      rewrite entry_counts_entries.
      rewrite <- !firstn_map. f_equal.
      apply (ranked_counts SK2 SK1).
Qed.

(** Two artists have the same count: the chart and the list agree on
    the counts under either routine. *)
Definition tied_rows : list Enriched.t :=
  [ Enriched.mk (Normalizer.normalize Normalizer.abba)
                (Some 700) None (Some 50) None;
    Enriched.mk (Normalizer.normalize Normalizer.kraftwerk)
                (Some 700) None (Some 60) None;
    Enriched.mk (Normalizer.normalize Normalizer.poseidon)
                None None None None ].

Example chart_of_tied_rows :
  @plot_top_artists_followers SortKinds.stable_kind tied_rows =
  Some [(Py.of_string "ABBA", (700 # 1) / 1000000);
        (Py.of_string "Kraftwerk", (700 # 1) / 1000000)]%Q /\
  @plot_top_artists_followers SortKinds.unstable_kind tied_rows =
  Some [(Py.of_string "Kraftwerk", (700 # 1) / 1000000);
        (Py.of_string "ABBA", (700 # 1) / 1000000)]%Q.
Proof. split; vm_compute; reflexivity. Qed.

Lemma followers_chart_agrees_with_the_top_list_witness :
  let visualizer :=
    Bot.mkVisualizer tied_rows Normalizer.reference (Py.of_string "pop") in
  let chart := @plot_top_artists_followers SortKinds.unstable_kind tied_rows in
  let sent := fst (@Bot.send_top_artists SortKinds.stable_kind visualizer) in
  (chart = None <-> filter Report.followed tied_rows = []) /\
  forall bars, chart = Some bars ->
    exists rows,
      bars = map (fun r => (Row.name (Enriched.artist r),
                            (inject_Z (Report.followers r) / 1000000)%Q))
                 rows /\
      (forall r, In r rows -> In r tied_rows /\ Report.followed r = true) /\
      length rows = Nat.min 10 (length (filter Report.followed tied_rows)) /\
      StronglySorted (fun a b => Report.followers b <= Report.followers a)
                     rows /\
      map Report.followers rows = entry_counts sent.
Proof.
  intros visualizer chart sent.
  apply (followers_chart_agrees_with_the_top_list
           SortKinds.stable_kind SortKinds.unstable_kind visualizer).
  vm_compute. repeat constructor; cbn; intuition discriminate.
Defined.

End FollowersChart.
